(** * Electricity-grid fault detection: a shallow embedding of the analysis core

    The Python sources [grid/], [power/], [faults/] and [detection/] are
    embedded as Rocq functions and the statements of the specification are
    proved (or refuted) about them.

    Conventions of the embedding.
    - A Python [float] is a real number of [R]; a [complex] is a pair of
      reals.  Rounding, overflow and the IEEE special values are therefore
      outside the model; a division by zero, which Python answers with
      [ZeroDivisionError] and numpy with [nan], is an explicit failure.
      Where a source builds [float('inf')] itself, the value is a
      constructor of its own ([Cx.Inf], or [None] for a float).
    - A Python [dict] with integer keys is an insertion-ordered association
      list without duplicate keys.
    - [Bus] objects are shared between the grid and the lines that end on
      them, so they live in a heap and are referred to by address.
    - A numpy array is a function from indices to entries together with its
      shape; the LAPACK-backed routines of [numpy.linalg] are an interface
      ([Numpy]) the development is parametrised by. *)

From Stdlib Require Import Reals Lra Lia ZArith List Bool String.
From Stdlib Require Import Sorted Permutation.
Import ListNotations.

Local Open Scope R_scope.

(** ** Option as an error monad *)

Definition obind {A B : Type} (m : option A) (k : A -> option B) : option B :=
  match m with
  | Some a => k a
  | None => None
  end.

Notation "x <- m ;; k" := (obind m (fun x => k))
  (at level 61, m at next level, right associativity).

(** ** Complex numbers (Python [complex]) *)

Module Cx.

Record C : Type := mk { re : R; im : R }.

Definition zero : C := mk 0 0.
Definition of_real (x : R) : C := mk x 0.
Definition add (a b : C) : C := mk (re a + re b) (im a + im b).
Definition sub (a b : C) : C := mk (re a - re b) (im a - im b).
Definition neg (a : C) : C := mk (- re a) (- im a).
Definition mul (a b : C) : C :=
  mk (re a * re b - im a * im b) (re a * im b + im a * re b).
Definition conj (a : C) : C := mk (re a) (- im a).
Definition scale (k : R) (a : C) : C := mk (k * re a) (k * im a).

Definition norm2 (a : C) : R := re a * re a + im a * im a.

(** [abs(z)] *)
Definition abs (a : C) : R := sqrt (norm2 a).

Definition eq_dec (a b : C) : {a = b} + {a <> b}.
Proof.
  destruct a as [ar ai], b as [br bi].
  destruct (Req_dec_T ar br) as [Hr | Hr].
  - destruct (Req_dec_T ai bi) as [Hi | Hi].
    + left. now subst.
    + right. intros H. now inversion H.
  - right. intros H. now inversion H.
Defined.

(** [a / b]: fails on a zero divisor. *)
Definition div (a b : C) : option C :=
  if eq_dec b zero then None
  else Some (mk ((re a * re b + im a * im b) / norm2 b)
                ((im a * re b - re a * im b) / norm2 b)).

(** [np.exp(z)] *)
Definition exp (z : C) : C :=
  mk (Rtrigo_def.exp (re z) * cos (im z)) (Rtrigo_def.exp (re z) * sin (im z)).

(** The values the sources build with [float('inf')]: a finite complex
    number or [complex(float('inf'), float('inf'))]. *)
Inductive ext : Type := Fin (z : C) | Inf.

(** [abs(z)] on such a value; [None] is [float('inf')]. *)
Definition abs_ext (z : ext) : option R :=
  match z with
  | Fin z => Some (abs z)
  | Inf => None
  end.

End Cx.

Abbreviation C := Cx.C.

(** ** Python and numpy data *)

Inductive exn : Type := KeyError | LinAlgError | ValueError | ZeroDivisionError.

(** The outcome of a call that mutates a state [S] in place: it returns a
    value, or raises, and in both cases leaves a state behind. *)
Inductive outcome (S A : Type) : Type :=
| Return (s : S) (a : A)
| Raise (s : S) (e : exn).

Arguments Return {S A} s a.
Arguments Raise {S A} s e.

Module Dict.
Section WithValues.
Context {V : Type}.

Definition t : Type := list (Z * V).

(** [d.get(k)] *)
Fixpoint get (d : list (Z * V)) (k : Z) : option V :=
  match d with
  | [] => None
  | (k', v) :: d' => if Z.eqb k k' then Some v else get d' k
  end.

(** [k in d] *)
Definition contains (d : list (Z * V)) (k : Z) : bool :=
  match get d k with
  | Some _ => true
  | None => false
  end.

(** [d[k] = v]: a present key keeps its place, a new key goes last. *)
Fixpoint set (d : list (Z * V)) (k : Z) (v : V) : list (Z * V) :=
  match d with
  | [] => [(k, v)]
  | (k', v') :: d' =>
      if Z.eqb k k' then (k, v) :: d' else (k', v') :: set d' k v
  end.

Definition keys (d : list (Z * V)) : list Z := map fst d.
Definition values (d : list (Z * V)) : list V := map snd d.

(** Apply [f] to every value, in place. *)
Definition map_values (f : V -> V) (d : list (Z * V)) : list (Z * V) :=
  map (fun kv => (fst kv, f (snd kv))) d.

End WithValues.
Arguments t V : clear implicits.
End Dict.

(** [sorted(keys)] on integers. *)
Fixpoint insert_sorted (k : Z) (l : list Z) : list Z :=
  match l with
  | [] => [k]
  | x :: r => if Z.leb k x then k :: l else x :: insert_sorted k r
  end.

Definition sorted (l : list Z) : list Z := fold_right insert_sorted [] l.

(** [{bus_id: idx for idx, bus_id in enumerate(bus_ids)}.get(k)] for a list
    [bus_ids] without repetition. *)
Fixpoint index_of (k : Z) (l : list Z) : option nat :=
  match l with
  | [] => None
  | x :: r => if Z.eqb k x then Some O else option_map S (index_of k r)
  end.

Module Np.

(** A square complex array of shape [(shape, shape)]. *)
Record cmatrix : Type := mkc { shape : nat; entry : nat -> nat -> C }.

(** [np.zeros((n, n), dtype=complex)] *)
Definition zeros (n : nat) : cmatrix := mkc n (fun _ _ => Cx.mk 0 0).

(** [m[i, j] = v] *)
Definition upd (m : cmatrix) (i j : nat) (v : C) : cmatrix :=
  mkc (shape m)
      (fun a b => if Nat.eqb a i && Nat.eqb b j then v else entry m a b).

(** [m[i, j] -= v] and [m[i, j] += v] *)
Definition isub (m : cmatrix) (i j : nat) (v : C) : cmatrix :=
  upd m i j (Cx.sub (entry m i j) v).
Definition iadd (m : cmatrix) (i j : nat) (v : C) : cmatrix :=
  upd m i j (Cx.add (entry m i j) v).

(** [m + np.eye(n) * e], with numpy's broadcasting of a 1x1 operand;
    [None] is the [ValueError] of two shapes that do not broadcast. *)
Definition add_eye (m : cmatrix) (n : nat) (e : R) : option cmatrix :=
  let eye a b := Cx.of_real ((if Nat.eqb a b then 1 else 0) * e) in
  if Nat.eqb (shape m) n
  then Some (mkc n (fun a b => Cx.add (entry m a b) (eye a b)))
  else if Nat.eqb n 1
  then Some (mkc (shape m) (fun a b => Cx.add (entry m a b) (eye O O)))
  else if Nat.eqb (shape m) 1
  then Some (mkc n (fun a b => Cx.add (entry m O O) (eye a b)))
  else None.

(** A real array of shape [(rshape, rshape)]. *)
Record rmatrix : Type := mkr { rshape : nat; rentry : nat -> nat -> R }.

(** [v[i] = x] on a one-dimensional real array. *)
Definition vupd (v : nat -> R) (i : nat) (x : R) : nat -> R :=
  fun a => if Nat.eqb a i then x else v a.

End Np.

(** The routines of [numpy.linalg] the sources call; [None] stands for
    [LinAlgError]. *)
Class Numpy : Type := {
  linalg_inv : Np.cmatrix -> option Np.cmatrix;
  linalg_solve : Np.rmatrix -> list R -> option (list R);
  linalg_lstsq : Np.rmatrix -> list R -> option (list R);
  (** the solution of a square system is as long as its right-hand side *)
  linalg_solve_length :
    forall j b x, linalg_solve j b = Some x -> List.length x = List.length b;
  linalg_lstsq_length :
    forall j b x, linalg_lstsq j b = Some x -> List.length x = List.length b
}.

(** ** config.py *)

Module Config.

Definition NOMINAL_VOLTAGE : R := 220.
Definition VOLTAGE_BASE : R := 220.
Definition POWER_BASE : R := 100.
Definition IMPEDANCE_BASE : R := (VOLTAGE_BASE * VOLTAGE_BASE) / POWER_BASE.
Definition LINE_RESISTANCE_PER_KM : R := 0.035.
Definition LINE_REACTANCE_PER_KM : R := 0.37.
Definition LINE_SUSCEPTANCE_PER_KM : R := 4.0e-6.
Definition ZERO_SEQ_RESISTANCE_RATIO : R := 3.0.
Definition ZERO_SEQ_REACTANCE_RATIO : R := 3.0.

Definition ZONE1_REACH : R := 0.80.
Definition ZONE2_REACH : R := 1.20.
Definition ZONE3_REACH : R := 1.50.

End Config.

Inductive BusType : Type := SLACK | PV | PQ.

(** ** faults/types.py *)

Inductive FaultType : Type := SLG | LL | DLG | LLL | OPEN.

Definition FaultType_eqb (a b : FaultType) : bool :=
  match a, b with
  | SLG, SLG | LL, LL | DLG, DLG | LLL, LLL | OPEN, OPEN => true
  | _, _ => false
  end.

(** ** grid/bus.py *)

Module Bus.

Record t : Type := mk {
  id : Z;
  name : string;
  bus_type : BusType;
  voltage_kv : R;
  voltage_pu : R;
  angle_deg : R;
  p_gen : R;
  q_gen : R;
  p_load : R;
  q_load : R;
  x : R;
  y : R;
  is_faulted : bool;
  fault_type : option FaultType
}.

(** [Bus(bus_id, name, bus_type, voltage_kv, x, y)] *)
Definition init (bus_id : Z) (name : string) (bus_type : BusType)
    (voltage_kv x y : R) : t :=
  mk bus_id name bus_type voltage_kv 1.0 0.0 0.0 0.0 0.0 0.0 x y false None.

Definition p_net (b : t) : R := p_gen b - p_load b.
Definition q_net (b : t) : R := q_gen b - q_load b.

(** [np.radians] and [np.degrees] *)
Definition radians (d : R) : R := d * PI / 180.
Definition degrees (r : R) : R := r * 180 / PI.

Definition voltage_complex (b : t) : C :=
  let angle_rad := radians (angle_deg b) in
  Cx.mul (Cx.of_real (voltage_pu b)) (Cx.exp (Cx.mul (Cx.mk 0 1) (Cx.of_real angle_rad))).

Definition set_voltage (b : t) (v_pu a_deg : R) : t :=
  mk (id b) (name b) (bus_type b) (voltage_kv b) v_pu a_deg
     (p_gen b) (q_gen b) (p_load b) (q_load b) (x b) (y b)
     (is_faulted b) (fault_type b).

Definition set_as_load (b : t) (p q : R) : t :=
  mk (id b) (name b) PQ (voltage_kv b) (voltage_pu b) (angle_deg b)
     (p_gen b) (q_gen b) p q (x b) (y b) (is_faulted b) (fault_type b).

Definition apply_fault (b : t) (ft : FaultType) : t :=
  mk (id b) (name b) (bus_type b) (voltage_kv b) (voltage_pu b) (angle_deg b)
     (p_gen b) (q_gen b) (p_load b) (q_load b) (x b) (y b) true (Some ft).

Definition clear_fault (b : t) : t :=
  mk (id b) (name b) (bus_type b) (voltage_kv b) (voltage_pu b) (angle_deg b)
     (p_gen b) (q_gen b) (p_load b) (q_load b) (x b) (y b) false None.

End Bus.

(** The address of a [Bus] object and the store of all of them. *)
Definition BusRef : Type := nat.
Definition Heap : Type := BusRef -> Bus.t.

Definition heap_set (h : Heap) (r : BusRef) (b : Bus.t) : Heap :=
  fun r' => if Nat.eqb r' r then b else h r'.

(** ** grid/line.py *)

Module TransmissionLine.

Record t : Type := mk {
  id : Z;
  from_bus : BusRef;
  to_bus : BusRef;
  length_km : R;
  r_ohm : R;
  x_ohm : R;
  b_siemens : R;
  r_pu : R;
  x_pu : R;
  b_pu : R;
  r0_pu : R;
  x0_pu : R;
  rating_mva : R;
  is_closed : bool;
  is_faulted : bool;
  fault_type : option FaultType;
  fault_location : R;
  current_pu : R;
  power_flow_mw : R;
  loading_percent : R
}.

(** [TransmissionLine(line_id, from_bus, to_bus, length_km, r_per_km,
    x_per_km, b_per_km, rating_mva)] *)
Definition init (line_id : Z) (from_bus to_bus : BusRef)
    (length_km r_per_km x_per_km b_per_km rating_mva : R) : t :=
  let r_ohm := r_per_km * length_km in
  let x_ohm := x_per_km * length_km in
  let b_siemens := b_per_km * length_km in
  let r_pu := r_ohm / Config.IMPEDANCE_BASE in
  let x_pu := x_ohm / Config.IMPEDANCE_BASE in
  let b_pu := b_siemens * Config.IMPEDANCE_BASE in
  let r0_pu := r_pu * Config.ZERO_SEQ_RESISTANCE_RATIO in
  let x0_pu := x_pu * Config.ZERO_SEQ_REACTANCE_RATIO in
  mk line_id from_bus to_bus length_km r_ohm x_ohm b_siemens r_pu x_pu b_pu
     r0_pu x0_pu rating_mva true false None 0.5 0.0 0.0 0.0.

Definition z_pu (l : t) : C := Cx.mk (r_pu l) (x_pu l).

(** [1.0 / z] where the caller has excluded [z = 0]. *)
Definition reciprocal (z : C) : C :=
  Cx.mk (Cx.re z / Cx.norm2 z) (- Cx.im z / Cx.norm2 z).

Definition y_pu (l : t) : C :=
  if Rgt_dec (Cx.abs (z_pu l)) 1e-10 then reciprocal (z_pu l) else Cx.mk 0 0.

Definition z0_pu (l : t) : C := Cx.mk (r0_pu l) (x0_pu l).

Definition get_impedance_to_point (l : t) (distance_fraction : R) : C :=
  let distance_fraction := Rmax 0.0 (Rmin 1.0 distance_fraction) in
  Cx.mul (z_pu l) (Cx.of_real distance_fraction).

Definition open_line (l : t) : t :=
  mk (id l) (from_bus l) (to_bus l) (length_km l) (r_ohm l) (x_ohm l)
     (b_siemens l) (r_pu l) (x_pu l) (b_pu l) (r0_pu l) (x0_pu l)
     (rating_mva l) false (is_faulted l) (fault_type l) (fault_location l)
     (current_pu l) (power_flow_mw l) (loading_percent l).

Definition close_line (l : t) : t :=
  mk (id l) (from_bus l) (to_bus l) (length_km l) (r_ohm l) (x_ohm l)
     (b_siemens l) (r_pu l) (x_pu l) (b_pu l) (r0_pu l) (x0_pu l)
     (rating_mva l) true false None (fault_location l)
     (current_pu l) (power_flow_mw l) (loading_percent l).

Definition apply_fault (l : t) (ft : FaultType) (location : R) : t :=
  mk (id l) (from_bus l) (to_bus l) (length_km l) (r_ohm l) (x_ohm l)
     (b_siemens l) (r_pu l) (x_pu l) (b_pu l) (r0_pu l) (x0_pu l)
     (rating_mva l) (is_closed l) true (Some ft)
     (Rmax 0.0 (Rmin 1.0 location))
     (current_pu l) (power_flow_mw l) (loading_percent l).

Definition clear_fault (l : t) : t :=
  mk (id l) (from_bus l) (to_bus l) (length_km l) (r_ohm l) (x_ohm l)
     (b_siemens l) (r_pu l) (x_pu l) (b_pu l) (r0_pu l) (x0_pu l)
     (rating_mva l) (is_closed l) false None (fault_location l)
     (current_pu l) (power_flow_mw l) (loading_percent l).

Definition update_loading (l : t) (current power_mw : R) : t :=
  mk (id l) (from_bus l) (to_bus l) (length_km l) (r_ohm l) (x_ohm l)
     (b_siemens l) (r_pu l) (x_pu l) (b_pu l) (r0_pu l) (x0_pu l)
     (rating_mva l) (is_closed l) (is_faulted l) (fault_type l)
     (fault_location l) current power_mw
     (if Rgt_dec (rating_mva l) 0
      then (Rabs power_mw / rating_mva l) * 100 else 0).

Definition z_ohm (l : t) : C := Cx.mk (r_ohm l) (x_ohm l).

(** [None] is the [ZeroDivisionError] of the division by the length. *)
Definition z_per_km_pu (l : t) : option C :=
  if Rgt_dec (length_km l) 0
  then Cx.div (z_pu l) (Cx.of_real (length_km l))
  else Some (Cx.mk 0 0).

End TransmissionLine.

(** ** grid/network.py *)

Module Grid.

(** The attributes [_bus_id_to_idx] and [_idx_to_bus_id], which
    [build_y_bus] writes and nothing reads back, are left out.  A line
    object is registered under one key, so the line map holds the lines by
    value. *)
Record t : Type := mk {
  name : string;
  buses : Dict.t BusRef;
  lines : Dict.t TransmissionLine.t;
  adjacency : Dict.t (list Z);
  y_bus : option Np.cmatrix;
  y_bus_valid : bool
}.

Definition init (name : string) : t := mk name [] [] [] None false.

Definition set_lines (g : t) (ls : Dict.t TransmissionLine.t) : t :=
  mk (name g) (buses g) ls (adjacency g) (y_bus g) (y_bus_valid g).

Definition set_adjacency (g : t) (adj : Dict.t (list Z)) : t :=
  mk (name g) (buses g) (lines g) adj (y_bus g) (y_bus_valid g).

Definition add_bus (h : Heap) (g : t) (bus : BusRef) : t :=
  let bus_id := Bus.id (h bus) in
  mk (name g) (Dict.set (buses g) bus_id bus) (lines g)
     (Dict.set (adjacency g) bus_id []) (y_bus g) false.

(** [k in l] on a list of integers. *)
Definition mem (k : Z) (l : list Z) : bool := existsb (Z.eqb k) l.

Definition add_line (h : Heap) (g : t) (line : TransmissionLine.t)
  : outcome t unit :=
  let g := set_lines g (Dict.set (lines g) (TransmissionLine.id line) line) in
  let from_id := Bus.id (h (TransmissionLine.from_bus line)) in
  let to_id := Bus.id (h (TransmissionLine.to_bus line)) in
  match Dict.get (adjacency g) from_id with
  | None => Raise g KeyError
  | Some adj_from =>
      let g :=
        if mem to_id adj_from then g
        else set_adjacency g (Dict.set (adjacency g) from_id (adj_from ++ [to_id])) in
      match Dict.get (adjacency g) to_id with
      | None => Raise g KeyError
      | Some adj_to =>
          let g :=
            if mem from_id adj_to then g
            else set_adjacency g
                   (Dict.set (adjacency g) to_id (adj_to ++ [from_id])) in
          Return (mk (name g) (buses g) (lines g) (adjacency g) (y_bus g) false) tt
      end
  end.

Definition get_bus (g : t) (bus_id : Z) : option BusRef :=
  Dict.get (buses g) bus_id.

Definition get_line (g : t) (line_id : Z) : option TransmissionLine.t :=
  Dict.get (lines g) line_id.

Definition get_connected_lines (h : Heap) (g : t) (bus_id : Z)
  : list TransmissionLine.t :=
  filter (fun line =>
            Z.eqb (Bus.id (h (TransmissionLine.from_bus line))) bus_id
            || Z.eqb (Bus.id (h (TransmissionLine.to_bus line))) bus_id)
         (Dict.values (lines g)).

Definition n_buses (g : t) : nat := List.length (buses g).

(** The body of the loop of [build_y_bus] for one line; [None] is the
    [KeyError] of a terminal bus that is not in the index. *)
Definition stamp_line (h : Heap) (bus_id_to_idx : Z -> option nat)
    (y_bus : Np.cmatrix) (line : TransmissionLine.t) : option Np.cmatrix :=
  if negb (TransmissionLine.is_closed line) then Some y_bus
  else
    i <- bus_id_to_idx (Bus.id (h (TransmissionLine.from_bus line))) ;;
    j <- bus_id_to_idx (Bus.id (h (TransmissionLine.to_bus line))) ;;
    let y_series := TransmissionLine.y_pu line in
    let y_shunt := Cx.mk 0 (TransmissionLine.b_pu line / 2) in
    let y_bus := Np.isub y_bus i j y_series in
    let y_bus := Np.isub y_bus j i y_series in
    let y_bus := Np.iadd y_bus i i (Cx.add y_series y_shunt) in
    let y_bus := Np.iadd y_bus j j (Cx.add y_series y_shunt) in
    Some y_bus.

Fixpoint stamp_lines (h : Heap) (bus_id_to_idx : Z -> option nat)
    (y_bus : Np.cmatrix) (ls : list TransmissionLine.t)
  : option Np.cmatrix :=
  match ls with
  | [] => Some y_bus
  | line :: rest =>
      y_bus <- stamp_line h bus_id_to_idx y_bus line ;;
      stamp_lines h bus_id_to_idx y_bus rest
  end.

Definition build_y_bus (h : Heap) (g : t) : outcome t Np.cmatrix :=
  match y_bus_valid g, y_bus g with
  | true, Some cached => Return g cached
  | _, _ =>
      let n := n_buses g in
      let y_bus := Np.zeros n in
      let bus_ids := sorted (Dict.keys (buses g)) in
      match stamp_lines h (fun k => index_of k bus_ids) y_bus
              (Dict.values (lines g)) with
      | None => Raise g KeyError
      | Some y_bus =>
          Return (mk (name g) (buses g) (lines g) (adjacency g)
                     (Some y_bus) true) y_bus
      end
  end.

(** [np.linalg.inv(m)], retried on [m + np.eye(n) * 1e-10]. *)
Definition inv_regularized `{Numpy} (m : Np.cmatrix) (n : nat)
  : Np.cmatrix + exn :=
  match linalg_inv m with
  | Some z => inl z
  | None =>
      match Np.add_eye m n 1e-10 with
      | None => inr ValueError
      | Some m' =>
          match linalg_inv m' with
          | Some z => inl z
          | None => inr LinAlgError
          end
      end
  end.

Definition build_z_bus `{Numpy} (h : Heap) (g : t) : outcome t Np.cmatrix :=
  match build_y_bus h g with
  | Raise g e => Raise g e
  | Return g y_bus =>
      match inv_regularized y_bus (n_buses g) with
      | inl z_bus => Return g z_bus
      | inr e => Raise g e
      end
  end.

Definition clear_all_faults (h : Heap) (g : t) : Heap * t :=
  let h :=
    fold_left (fun h bus => heap_set h bus (Bus.clear_fault (h bus)))
              (Dict.values (buses g)) h in
  let ls :=
    Dict.map_values
      (fun line =>
         let line := TransmissionLine.clear_fault line in
         if negb (TransmissionLine.is_closed line)
         then TransmissionLine.close_line line else line)
      (lines g) in
  (h, set_lines g ls).

Definition invalidate_matrices (g : t) : t :=
  mk (name g) (buses g) (lines g) (adjacency g) (y_bus g) false.

Definition get_line_between (h : Heap) (g : t) (bus1_id bus2_id : Z)
  : option TransmissionLine.t :=
  find (fun line =>
          (Z.eqb (Bus.id (h (TransmissionLine.from_bus line))) bus1_id
           && Z.eqb (Bus.id (h (TransmissionLine.to_bus line))) bus2_id)
          || (Z.eqb (Bus.id (h (TransmissionLine.from_bus line))) bus2_id
              && Z.eqb (Bus.id (h (TransmissionLine.to_bus line))) bus1_id))
       (Dict.values (lines g)).

(** [self.adjacency.get(bus_id, [])] *)
Definition get_neighbors (g : t) (bus_id : Z) : list Z :=
  match Dict.get (adjacency g) bus_id with
  | Some l => l
  | None => []
  end.

Definition get_faulted_elements (h : Heap) (g : t)
  : list BusRef * list TransmissionLine.t :=
  (filter (fun b => Bus.is_faulted (h b)) (Dict.values (buses g)),
   filter TransmissionLine.is_faulted (Dict.values (lines g))).

(** [min(l)] and [max(l)] of a list of floats with first element [x]. *)
Definition min_of (x : R) (r : list R) : R := fold_left Rmin r x.
Definition max_of (x : R) (r : list R) : R := fold_left Rmax r x.

Definition get_bounds (h : Heap) (g : t) : R * R * R * R :=
  let xs := map (fun b => Bus.x (h b)) (Dict.values (buses g)) in
  let ys := map (fun b => Bus.y (h b)) (Dict.values (buses g)) in
  let margin := 50 in
  match xs, ys with
  | x :: xs', y :: ys' =>
      (min_of x xs' - margin, min_of y ys' - margin,
       max_of x xs' + margin, max_of y ys' + margin)
  | _, _ => (0, 0, 1, 1)
  end.

End Grid.

(** ** faults/models.py *)

Module FaultModel.

(** The test [if abs(z_total) < 1e-10: z_total = 1e-10] shared by the models. *)
Definition guard_total (z_total : C) : C :=
  if Rlt_dec (Cx.abs z_total) 1e-10 then Cx.of_real 1e-10 else z_total.

Definition sequence_to_phase (i0 i1 i2 : C) : C * C * C :=
  let a := Cx.exp (Cx.mk 0 (2 * PI / 3)) in
  let a2 := Cx.mul a a in
  let ia := Cx.add (Cx.add i0 i1) i2 in
  let ib := Cx.add (Cx.add i0 (Cx.mul a2 i1)) (Cx.mul a i2) in
  let ic := Cx.add (Cx.add i0 (Cx.mul a i1)) (Cx.mul a2 i2) in
  (ia, ib, ic).

End FaultModel.

Module SLGFault.

Definition calculate_fault_current (v_f z0 z1 z2 : C) (z_f : R)
  : option (C * C * C) :=
  let z_total :=
    Cx.add (Cx.add (Cx.add z0 z1) z2) (Cx.of_real (3 * z_f)) in
  let z_total := FaultModel.guard_total z_total in
  i_seq <- Cx.div v_f z_total ;;
  Some (i_seq, i_seq, i_seq).

End SLGFault.

Module LLFault.

Definition calculate_fault_current (v_f z0 z1 z2 : C) (z_f : R)
  : option (C * C * C) :=
  let z_total := Cx.add (Cx.add z1 z2) (Cx.of_real z_f) in
  let z_total := FaultModel.guard_total z_total in
  i1 <- Cx.div v_f z_total ;;
  let i2 := Cx.neg i1 in
  let i0 := Cx.mk 0 0 in
  Some (i0, i1, i2).

End LLFault.

Module DLGFault.

Definition calculate_fault_current (v_f z0 z1 z2 : C) (z_f : R)
  : option (C * C * C) :=
  let z0_with_fault := Cx.add z0 (Cx.of_real (3 * z_f)) in
  z_parallel <-
    (if Rlt_dec (Cx.abs (Cx.add z0_with_fault z2)) 1e-10
     then Some (Cx.of_real 0)
     else Cx.div (Cx.mul z0_with_fault z2) (Cx.add z0_with_fault z2)) ;;
  let z_total := Cx.add z1 z_parallel in
  let z_total := FaultModel.guard_total z_total in
  i1 <- Cx.div v_f z_total ;;
  if Rlt_dec (Cx.abs (Cx.add z0_with_fault z2)) 1e-10
  then
    i0 <- Cx.div i1 (Cx.of_real 2) ;;
    i2 <- Cx.div i1 (Cx.of_real 2) ;;
    Some (i0, i1, i2)
  else
    i0 <- Cx.div (Cx.mul (Cx.neg i1) z2) (Cx.add z0_with_fault z2) ;;
    i2 <- Cx.div (Cx.mul (Cx.neg i1) z0_with_fault)
                 (Cx.add z0_with_fault z2) ;;
    Some (i0, i1, i2).

End DLGFault.

Module ThreePhaseFault.

Definition calculate_fault_current (v_f z0 z1 z2 : C) (z_f : R)
  : option (C * C * C) :=
  let z_total := Cx.add z1 (Cx.of_real z_f) in
  let z_total := FaultModel.guard_total z_total in
  i1 <- Cx.div v_f z_total ;;
  let i0 := Cx.mk 0 0 in
  let i2 := Cx.mk 0 0 in
  Some (i0, i1, i2).

End ThreePhaseFault.

Module OpenCircuitFault.

Definition calculate_fault_current (v_f z0 z1 z2 : C) (z_f : R)
  : option (C * C * C) :=
  Some (Cx.mk 0 0, Cx.mk 0 0, Cx.mk 0 0).

End OpenCircuitFault.

(** [get_fault_model(fault_type).calculate_fault_current]: the dictionary of
    model objects is a dispatch on the tag. *)
Definition get_fault_model (fault_type : FaultType)
  : C -> C -> C -> C -> R -> option (C * C * C) :=
  match fault_type with
  | SLG => SLGFault.calculate_fault_current
  | LL => LLFault.calculate_fault_current
  | DLG => DLGFault.calculate_fault_current
  | LLL => ThreePhaseFault.calculate_fault_current
  | OPEN => OpenCircuitFault.calculate_fault_current
  end.

(** ** power/impedance.py *)

Module Impedance.

(** The body of the zero-sequence loop of [build_sequence_networks]. *)
Definition stamp0_line (h : Heap) (bus_id_to_idx : Z -> option nat)
    (y0_bus : Np.cmatrix) (line : TransmissionLine.t) : option Np.cmatrix :=
  if negb (TransmissionLine.is_closed line) then Some y0_bus
  else
    i <- bus_id_to_idx (Bus.id (h (TransmissionLine.from_bus line))) ;;
    j <- bus_id_to_idx (Bus.id (h (TransmissionLine.to_bus line))) ;;
    let z0 := TransmissionLine.z0_pu line in
    let y0 :=
      if Rgt_dec (Cx.abs z0) 1e-10
      then TransmissionLine.reciprocal z0 else Cx.mk 0 0 in
    let y0_bus := Np.isub y0_bus i j y0 in
    let y0_bus := Np.isub y0_bus j i y0 in
    let y0_bus := Np.iadd y0_bus i i y0 in
    let y0_bus := Np.iadd y0_bus j j y0 in
    Some y0_bus.

Fixpoint stamp0_lines (h : Heap) (bus_id_to_idx : Z -> option nat)
    (y0_bus : Np.cmatrix) (ls : list TransmissionLine.t)
  : option Np.cmatrix :=
  match ls with
  | [] => Some y0_bus
  | line :: rest =>
      y0_bus <- stamp0_line h bus_id_to_idx y0_bus line ;;
      stamp0_lines h bus_id_to_idx y0_bus rest
  end.

Definition build_sequence_networks `{Numpy} (h : Heap) (g : Grid.t)
  : outcome Grid.t (Np.cmatrix * Np.cmatrix * Np.cmatrix) :=
  match Grid.build_z_bus h g with
  | Raise g e => Raise g e
  | Return g z1_bus =>
      let z2_bus := z1_bus in
      let n := Grid.n_buses g in
      let y0_bus := Np.zeros n in
      let bus_ids := sorted (Dict.keys (Grid.buses g)) in
      match stamp0_lines h (fun k => index_of k bus_ids) y0_bus
              (Dict.values (Grid.lines g)) with
      | None => Raise g KeyError
      | Some y0_bus =>
          match Grid.inv_regularized y0_bus n with
          | inl z0_bus => Return g (z0_bus, z1_bus, z2_bus)
          | inr e => Raise g e
          end
      end
  end.

Definition calculate_line_impedance (length_km r_per_km x_per_km : R) : C :=
  Cx.mk (r_per_km * length_km) (x_per_km * length_km).

(** [None] is the [ZeroDivisionError] of a zero base. *)
Definition impedance_to_pu (z_ohm : C) (z_base : R) : option C :=
  Cx.div z_ohm (Cx.of_real z_base).

Definition impedance_to_ohm (z_pu : C) (z_base : R) : C :=
  Cx.mul z_pu (Cx.of_real z_base).

Definition calculate_sequence_impedances (z1_pu : C) : C * C * C :=
  let z0_pu :=
    Cx.mk (Cx.re z1_pu * Config.ZERO_SEQ_RESISTANCE_RATIO)
          (Cx.im z1_pu * Config.ZERO_SEQ_REACTANCE_RATIO) in
  let z2_pu := z1_pu in
  (z0_pu, z1_pu, z2_pu).

(** [abs(z_apparent) / abs(z_line_per_km)] on a finite [z_apparent]. *)
Definition distance_to_fault (z_apparent z_line_per_km : C) : R :=
  if Rgt_dec (Cx.abs z_line_per_km) 1e-10
  then Cx.abs z_apparent / Cx.abs z_line_per_km
  else 0.0.

End Impedance.

(** ** faults/types.py: the [Fault] dataclass *)

Inductive LocationType : Type := AtBus | AtLine.

Module Fault.

(** [oid] is the identity [id(fault)] of the object, which is no field of
    the dataclass. *)
Record t : Type := mk {
  oid : Z;
  fault_type : FaultType;
  location_type : LocationType;
  element_id : Z;
  position : R;
  resistance : R;
  is_active : bool;
  detected : bool;
  detected_location : option R
}.

Definition is_bus_fault (f : t) : bool :=
  match location_type f with AtBus => true | AtLine => false end.

Definition is_line_fault (f : t) : bool :=
  match location_type f with AtLine => true | AtBus => false end.

Definition set_is_active (f : t) (a : bool) : t :=
  mk (oid f) (fault_type f) (location_type f) (element_id f) (position f)
     (resistance f) a (detected f) (detected_location f).

Definition set_detected (f : t) (d : bool) (loc : option R) : t :=
  mk (oid f) (fault_type f) (location_type f) (element_id f) (position f)
     (resistance f) (is_active f) d loc.

Definition option_R_eqb (a b : option R) : bool :=
  match a, b with
  | None, None => true
  | Some x, Some y => if Req_dec_T x y then true else false
  | _, _ => false
  end.

(** [a is b or a == b], the test behind [in] and [list.remove]; [==] is the
    field-wise equality the dataclass generates. *)
Definition py_eq (a b : t) : bool :=
  Z.eqb (oid a) (oid b)
  || (FaultType_eqb (fault_type a) (fault_type b)
      && Bool.eqb (is_bus_fault a) (is_bus_fault b)
      && Z.eqb (element_id a) (element_id b)
      && (if Req_dec_T (position a) (position b) then true else false)
      && (if Req_dec_T (resistance a) (resistance b) then true else false)
      && Bool.eqb (is_active a) (is_active b)
      && Bool.eqb (detected a) (detected b)
      && option_R_eqb (detected_location a) (detected_location b)).

Definition get_detection_error (f : t) : option R :=
  match detected f, detected_location f with
  | true, Some loc =>
      if is_line_fault f then Some (Rabs (loc - position f))
      else if detected f then Some 0.0 else None
  | _, _ => None
  end.

End Fault.

(** ** faults/simulator.py *)

(** [grid.get_line(line_id)] followed by a method call that mutates the
    line object it returned. *)
Definition mutate_line (g : Grid.t) (line_id : Z)
    (method : TransmissionLine.t -> TransmissionLine.t) : Grid.t :=
  match Grid.get_line g line_id with
  | Some line => Grid.set_lines g (Dict.set (Grid.lines g) line_id (method line))
  | None => g
  end.

Module FaultSimulator.

Record t : Type := mk {
  active_faults : list Fault.t;
  fault_currents : Dict.t (R * R * R)
}.

(** What a method of the simulator can touch: the bus objects, the grid it
    holds, and itself. *)
Record world : Type := mkw { heap : Heap; grid : Grid.t; self : t }.

Definition init : t := mk [] [].

Definition with_grid (w : world) (g : Grid.t) : world :=
  mkw (heap w) g (self w).

Definition _calculate_line_fault_current `{Numpy} (w : world) (fault : Fault.t)
  : outcome world unit :=
  match Grid.get_line (grid w) (Fault.element_id fault) with
  | None => Return w tt
  | Some line =>
      match Impedance.build_sequence_networks (heap w) (grid w) with
      | Raise g e => Raise (with_grid w g) e
      | Return g (z0_bus, z1_bus, z2_bus) =>
          let w := with_grid w g in
          let bus_ids := sorted (Dict.keys (Grid.buses (grid w))) in
          match index_of (Bus.id (heap w (TransmissionLine.from_bus line)))
                  bus_ids with
          | None => Return w tt
          | Some from_idx =>
              let v_f := Cx.mk 1.0 0 in
              let z_line_to_fault :=
                TransmissionLine.get_impedance_to_point line
                  (Fault.position fault) in
              let z0_line :=
                Cx.mul (TransmissionLine.z0_pu line)
                       (Cx.of_real (Fault.position fault)) in
              let z0 := Cx.add (Np.entry z0_bus from_idx from_idx) z0_line in
              let z1 :=
                Cx.add (Np.entry z1_bus from_idx from_idx) z_line_to_fault in
              let z2 :=
                Cx.add (Np.entry z2_bus from_idx from_idx) z_line_to_fault in
              let z_f := Fault.resistance fault / Config.IMPEDANCE_BASE in
              match get_fault_model (Fault.fault_type fault) v_f z0 z1 z2 z_f
              with
              | None => Raise w ZeroDivisionError
              | Some (i0, i1, i2) =>
                  let '(ia, ib, ic) := FaultModel.sequence_to_phase i0 i1 i2 in
                  let i_base := Config.POWER_BASE * 1e6 / (sqrt 3 * 220e3) in
                  Return
                    (mkw (heap w) (grid w)
                       (mk (active_faults (self w))
                          (Dict.set (fault_currents (self w)) (Fault.oid fault)
                             (Cx.abs ia * i_base, Cx.abs ib * i_base,
                              Cx.abs ic * i_base))))
                    tt
              end
          end
      end
  end.

(** [new_oid] is the identity of the [Fault] object the call creates. *)
Definition inject_line_fault `{Numpy} (w : world) (line_id : Z)
    (fault_type : FaultType) (position resistance : R) (new_oid : Z)
  : outcome world (option Fault.t) :=
  match Grid.get_line (grid w) line_id with
  | None => Return w None
  | Some _ =>
      let position := Rmax 0.0 (Rmin 1.0 position) in
      let fault :=
        Fault.mk new_oid fault_type AtLine line_id position resistance
                 true false None in
      let g := grid w in
      let g :=
        if FaultType_eqb fault_type OPEN
        then mutate_line g line_id TransmissionLine.open_line else g in
      let g :=
        mutate_line g line_id
          (fun line => TransmissionLine.apply_fault line fault_type position) in
      match _calculate_line_fault_current (with_grid w g) fault with
      | Raise w e => Raise w e
      | Return w _ =>
          Return
            (mkw (heap w) (grid w)
               (mk (active_faults (self w) ++ [fault])
                   (fault_currents (self w))))
            (Some fault)
      end
  end.

(** [l.remove(x)] when [x in l]. *)
Fixpoint remove_first (x : Fault.t) (l : list Fault.t) : list Fault.t :=
  match l with
  | [] => []
  | e :: r => if Fault.py_eq e x then r else e :: remove_first x r
  end.

Definition clear_fault (w : world) (fault : Fault.t) : world :=
  let fault := Fault.set_is_active fault false in
  let w :=
    if Fault.is_bus_fault fault
    then
      match Grid.get_bus (grid w) (Fault.element_id fault) with
      | Some bus =>
          mkw (heap_set (heap w) bus (Bus.clear_fault (heap w bus)))
              (grid w) (self w)
      | None => w
      end
    else
      with_grid w
        (mutate_line (grid w) (Fault.element_id fault)
           (fun line =>
              let line := TransmissionLine.clear_fault line in
              if FaultType_eqb (Fault.fault_type fault) OPEN
              then TransmissionLine.close_line line else line)) in
  if existsb (fun e => Fault.py_eq e fault) (active_faults (self w))
  then mkw (heap w) (grid w)
           (mk (remove_first fault (active_faults (self w)))
               (fault_currents (self w)))
  else w.

Definition clear_all_faults (w : world) : world :=
  let w := fold_left clear_fault (active_faults (self w)) w in
  let '(h, g) := Grid.clear_all_faults (heap w) (grid w) in
  mkw h g (mk [] []).

Definition get_fault_current (s : t) (fault : Fault.t) : option (R * R * R) :=
  Dict.get (fault_currents s) (Fault.oid fault).

Definition _calculate_bus_fault_current `{Numpy} (w : world) (fault : Fault.t)
  : outcome world unit :=
  match Impedance.build_sequence_networks (heap w) (grid w) with
  | Raise g e => Raise (with_grid w g) e
  | Return g (z0_bus, z1_bus, z2_bus) =>
      let w := with_grid w g in
      let bus_ids := sorted (Dict.keys (Grid.buses (grid w))) in
      match index_of (Fault.element_id fault) bus_ids with
      | None => Return w tt
      | Some idx =>
          let v_f := Cx.mk 1.0 0 in
          let z0 := Np.entry z0_bus idx idx in
          let z1 := Np.entry z1_bus idx idx in
          let z2 := Np.entry z2_bus idx idx in
          let z_f := Fault.resistance fault / Config.IMPEDANCE_BASE in
          match get_fault_model (Fault.fault_type fault) v_f z0 z1 z2 z_f with
          | None => Raise w ZeroDivisionError
          | Some (i0, i1, i2) =>
              let '(ia, ib, ic) := FaultModel.sequence_to_phase i0 i1 i2 in
              let i_base := Config.POWER_BASE * 1e6 / (sqrt 3 * 220e3) in
              Return
                (mkw (heap w) (grid w)
                   (mk (active_faults (self w))
                      (Dict.set (fault_currents (self w)) (Fault.oid fault)
                         (Cx.abs ia * i_base, Cx.abs ib * i_base,
                          Cx.abs ic * i_base))))
                tt
          end
      end
  end.

(** [new_oid] is the identity of the [Fault] object the call creates; its
    [position] is the default 0.5 of the dataclass. *)
Definition inject_bus_fault `{Numpy} (w : world) (bus_id : Z)
    (fault_type : FaultType) (resistance : R) (new_oid : Z)
  : outcome world (option Fault.t) :=
  match Grid.get_bus (grid w) bus_id with
  | None => Return w None
  | Some bus =>
      let fault :=
        Fault.mk new_oid fault_type AtBus bus_id 0.5 resistance
                 true false None in
      let w :=
        mkw (heap_set (heap w) bus (Bus.apply_fault (heap w bus) fault_type))
            (grid w) (self w) in
      match _calculate_bus_fault_current w fault with
      | Raise w e => Raise w e
      | Return w _ =>
          Return
            (mkw (heap w) (grid w)
               (mk (active_faults (self w) ++ [fault])
                   (fault_currents (self w))))
            (Some fault)
      end
  end.

End FaultSimulator.

(** ** power/flow.py *)

Module PowerFlow.

(** [mismatch] is [None] while it holds the initial [float('inf')]. *)
Record t : Type := mk {
  max_iterations : nat;
  tolerance : R;
  converged : bool;
  iterations : nat;
  mismatch : option R
}.

(** [PowerFlow(grid, max_iterations, tolerance)] *)
Definition init (max_iterations : nat) (tolerance : R) : t :=
  mk max_iterations tolerance false 0 None.

Record world : Type := mkw { heap : Heap; grid : Grid.t; self : t }.

(** [acc = 0; for k in range(n): acc += f(k)] *)
Definition sum_range (n : nat) (f : nat -> R) : R :=
  fold_left (fun acc k => acc + f k) (seq 0 n) 0.

Definition _calculate_power (n : nat) (y_bus : Np.cmatrix)
    (v_mag v_ang : nat -> R) : (nat -> R) * (nat -> R) :=
  (fun i =>
     sum_range n (fun j =>
       let g_ij := Cx.re (Np.entry y_bus i j) in
       let b_ij := Cx.im (Np.entry y_bus i j) in
       let angle_diff := v_ang i - v_ang j in
       v_mag i * v_mag j * (g_ij * cos angle_diff + b_ij * sin angle_diff)),
   fun i =>
     sum_range n (fun j =>
       let g_ij := Cx.re (Np.entry y_bus i j) in
       let b_ij := Cx.im (Np.entry y_bus i j) in
       let angle_diff := v_ang i - v_ang j in
       v_mag i * v_mag j * (g_ij * sin angle_diff - b_ij * cos angle_diff))).

Definition _build_jacobian (n : nat) (y_bus : Np.cmatrix)
    (v_mag v_ang : nat -> R) (non_slack pq_indices : list nat) : Np.rmatrix :=
  let n_p := List.length non_slack in
  let n_q := List.length pq_indices in
  let g i j := Cx.re (Np.entry y_bus i j) in
  let b i j := Cx.im (Np.entry y_bus i j) in
  let p_i i := fst (_calculate_power n y_bus v_mag v_ang) i in
  let q_i i := snd (_calculate_power n y_bus v_mag v_ang) i in
  let j11 i j :=
    if Nat.eqb i j then - q_i i - b i j * (v_mag i) ^ 2
    else v_mag i * v_mag j
         * (g i j * sin (v_ang i - v_ang j) - b i j * cos (v_ang i - v_ang j)) in
  let j12 i j :=
    if Nat.eqb i j then p_i i / v_mag i + g i j * v_mag i
    else v_mag i
         * (g i j * cos (v_ang i - v_ang j) + b i j * sin (v_ang i - v_ang j)) in
  let j21 i j :=
    if Nat.eqb i j then p_i i - g i j * (v_mag i) ^ 2
    else - v_mag i * v_mag j
         * (g i j * cos (v_ang i - v_ang j) + b i j * sin (v_ang i - v_ang j)) in
  let j22 i j :=
    if Nat.eqb i j then q_i i / v_mag i - b i j * v_mag i
    else v_mag i
         * (g i j * sin (v_ang i - v_ang j) - b i j * cos (v_ang i - v_ang j)) in
  Np.mkr (n_p + n_q)
    (fun r c =>
       if Nat.ltb r n_p
       then if Nat.ltb c n_p
            then j11 (nth r non_slack O) (nth c non_slack O)
            else j12 (nth r non_slack O) (nth (c - n_p) pq_indices O)
       else if Nat.ltb c n_p
            then j21 (nth (r - n_p) pq_indices O) (nth c non_slack O)
            else j22 (nth (r - n_p) pq_indices O) (nth (c - n_p) pq_indices O)).

(** [np.max(np.abs(m))]; [None] is the [ValueError] on an empty array. *)
Definition max_abs (m : list R) : option R :=
  match m with
  | [] => None
  | x :: r => Some (fold_left (fun acc y => Rmax acc (Rabs y)) r (Rabs x))
  end.

(** [np.linalg.solve], and [np.linalg.lstsq] on a singular Jacobian. *)
Definition solve_corrections `{Numpy} (j : Np.rmatrix) (mismatch : list R)
  : option (list R) :=
  match linalg_solve j mismatch with
  | Some corrections => Some corrections
  | None => linalg_lstsq j mismatch
  end.

(** [for i, idx in enumerate(indices): v[idx] += step(d[i], v[idx])] *)
Definition apply_corrections (step : R -> R -> R) (indices : list nat)
    (d : list R) (v : nat -> R) : nat -> R :=
  fold_left
    (fun v '(i, idx) => Np.vupd v idx (v idx + step (nth i d 0) (v idx)))
    (combine (seq 0 (List.length indices)) indices) v.

Inductive nr_exit : Type :=
| Converged (iteration : nat) (mm : R) (v_mag v_ang : nat -> R)
| Exhausted (mm : option R) (v_mag v_ang : nat -> R)
| Aborted (e : exn) (mm : option R).

(** The [for iteration in range(max_iterations)] loop; [fuel] counts the
    iterations that remain and [mm] is the current [self.mismatch]. *)
Fixpoint newton_raphson `{Numpy} (fuel iteration : nat) (mm : option R)
    (n : nat) (y_bus : Np.cmatrix) (p_spec q_spec : nat -> R)
    (non_slack pq_indices : list nat) (tol : R)
    (v_mag v_ang : nat -> R) : nr_exit :=
  match fuel with
  | O => Exhausted mm v_mag v_ang
  | S fuel' =>
      let '(p_calc, q_calc) := _calculate_power n y_bus v_mag v_ang in
      let dp i := p_spec i - p_calc i in
      let dq i := q_spec i - q_calc i in
      let mismatch := map dp non_slack ++ map dq pq_indices in
      match max_abs mismatch with
      | None => Aborted ValueError mm
      | Some m =>
          if Rlt_dec m tol then Converged iteration m v_mag v_ang
          else
            let j := _build_jacobian n y_bus v_mag v_ang non_slack pq_indices in
            match solve_corrections j mismatch with
            | None => Aborted LinAlgError (Some m)
            | Some corrections =>
                let n_p := List.length non_slack in
                let d_ang := firstn n_p corrections in
                let d_mag := skipn n_p corrections in
                let v_ang :=
                  apply_corrections (fun d _ => d) non_slack d_ang v_ang in
                let v_mag :=
                  apply_corrections (fun d v => d * v) pq_indices d_mag v_mag in
                newton_raphson fuel' (S iteration) (Some m) n y_bus
                  p_spec q_spec non_slack pq_indices tol v_mag v_ang
            end
      end
  end.

(** [(bus_id_to_idx[bus_id], bus) for bus_id, bus in buses.items()];
    [None] is the [KeyError] of a key without index. *)
Fixpoint indexed_buses (bus_ids : list Z) (items : Dict.t BusRef)
  : option (list (nat * BusRef)) :=
  match items with
  | [] => Some []
  | (bus_id, bus) :: rest =>
      idx <- index_of bus_id bus_ids ;;
      tl <- indexed_buses bus_ids rest ;;
      Some ((idx, bus) :: tl)
  end.

(** The per-line step of [_calculate_line_flows]. *)
Definition line_flow (h : Heap) (bus_id_to_idx : Z -> option nat)
    (v_mag v_ang : nat -> R) (line : TransmissionLine.t)
  : option TransmissionLine.t :=
  if negb (TransmissionLine.is_closed line)
  then Some (TransmissionLine.update_loading line 0 0)
  else
    i <- bus_id_to_idx (Bus.id (h (TransmissionLine.from_bus line))) ;;
    j <- bus_id_to_idx (Bus.id (h (TransmissionLine.to_bus line))) ;;
    let v_i :=
      Cx.mul (Cx.of_real (v_mag i))
             (Cx.exp (Cx.mul (Cx.mk 0 1) (Cx.of_real (v_ang i)))) in
    let v_j :=
      Cx.mul (Cx.of_real (v_mag j))
             (Cx.exp (Cx.mul (Cx.mk 0 1) (Cx.of_real (v_ang j)))) in
    let y_series := TransmissionLine.y_pu line in
    let i_ij := Cx.mul (Cx.sub v_i v_j) y_series in
    let s_ij :=
      Cx.mul (Cx.mul v_i (Cx.conj i_ij)) (Cx.of_real Config.POWER_BASE) in
    Some (TransmissionLine.update_loading line (Cx.abs i_ij) (Cx.re s_ij)).

(** [_calculate_line_flows]: the lines are updated in place, so a [KeyError]
    leaves the lines before it updated. *)
Fixpoint _calculate_line_flows (h : Heap) (bus_id_to_idx : Z -> option nat)
    (v_mag v_ang : nat -> R) (ls : Dict.t TransmissionLine.t)
  : Dict.t TransmissionLine.t * option exn :=
  match ls with
  | [] => ([], None)
  | (k, line) :: rest =>
      match line_flow h bus_id_to_idx v_mag v_ang line with
      | None => (ls, Some KeyError)
      | Some line' =>
          let '(rest', e) :=
            _calculate_line_flows h bus_id_to_idx v_mag v_ang rest in
          ((k, line') :: rest', e)
      end
  end.

(** The end of [solve], after the loop: the voltages go back into the bus
    objects, the line flows are computed, and [self.converged] is returned. *)
Definition store_results (h : Heap) (g : Grid.t) (rows : list (nat * BusRef))
    (bus_ids : list Z) (v_mag v_ang : nat -> R) (pf : t)
  : outcome world bool :=
  let h :=
    fold_left
      (fun h '(idx, bus) =>
         heap_set h bus
           (Bus.set_voltage (h bus) (v_mag idx) (Bus.degrees (v_ang idx))))
      rows h in
  let '(ls, e) :=
    _calculate_line_flows h (fun k => index_of k bus_ids) v_mag v_ang
      (Grid.lines g) in
  match e with
  | Some e => Raise (mkw h (Grid.set_lines g ls) pf) e
  | None => Return (mkw h (Grid.set_lines g ls) pf) (converged pf)
  end.

(** The set-up loops of [solve] over [buses.items()]. *)
Definition initial_v_mag (h : Heap) (rows : list (nat * BusRef)) : nat -> R :=
  fold_left (fun v '(idx, bus) => Np.vupd v idx (Bus.voltage_pu (h bus)))
            rows (fun _ => 1).

Definition initial_v_ang (h : Heap) (rows : list (nat * BusRef)) : nat -> R :=
  fold_left
    (fun v '(idx, bus) => Np.vupd v idx (Bus.radians (Bus.angle_deg (h bus))))
    rows (fun _ => 0).

Definition slack_index (h : Heap) (rows : list (nat * BusRef)) : option nat :=
  fold_left
    (fun s '(idx, bus) =>
       match Bus.bus_type (h bus) with SLACK => Some idx | _ => s end)
    rows None.

Definition pq_index_list (h : Heap) (rows : list (nat * BusRef)) : list nat :=
  map fst
      (filter (fun '(idx, bus) =>
                 match Bus.bus_type (h bus) with PQ => true | _ => false end)
              rows).

Definition p_spec_of (h : Heap) (rows : list (nat * BusRef)) : nat -> R :=
  fold_left
    (fun v '(idx, bus) => Np.vupd v idx (Bus.p_net (h bus) / Config.POWER_BASE))
    rows (fun _ => 0).

Definition q_spec_of (h : Heap) (rows : list (nat * BusRef)) : nat -> R :=
  fold_left
    (fun v '(idx, bus) => Np.vupd v idx (Bus.q_net (h bus) / Config.POWER_BASE))
    rows (fun _ => 0).

(** [[i for i in range(n) if i != slack_idx]] *)
Definition non_slack_list (n : nat) (slack_idx : option nat) : list nat :=
  filter (fun i => match slack_idx with
                   | Some s => negb (Nat.eqb i s)
                   | None => true
                   end)
         (seq 0 n).

(** The Newton-Raphson loop as [solve] starts it. *)
Definition run_newton_raphson `{Numpy} (h : Heap) (n : nat)
    (y_bus : Np.cmatrix) (rows : list (nat * BusRef)) (pf : t) : nr_exit :=
  newton_raphson (max_iterations pf) 0 (mismatch pf) n y_bus
    (p_spec_of h rows) (q_spec_of h rows)
    (non_slack_list n (slack_index h rows)) (pq_index_list h rows)
    (tolerance pf) (initial_v_mag h rows) (initial_v_ang h rows).

Definition solve `{Numpy} (w : world) : outcome world bool :=
  match Grid.build_y_bus (heap w) (grid w) with
  | Raise g e => Raise (mkw (heap w) g (self w)) e
  | Return g y_bus =>
      let h := heap w in
      let pf := self w in
      let n := Grid.n_buses g in
      let bus_ids := sorted (Dict.keys (Grid.buses g)) in
      match indexed_buses bus_ids (Grid.buses g) with
      | None => Raise (mkw h g pf) KeyError
      | Some rows =>
          match run_newton_raphson h n y_bus rows pf with
          | Aborted e mm =>
              Raise (mkw h g (mk (max_iterations pf) (tolerance pf)
                                 (converged pf) (iterations pf) mm)) e
          | Converged iteration mm v_mag v_ang =>
              store_results h g rows bus_ids v_mag v_ang
                (mk (max_iterations pf) (tolerance pf) true (iteration + 1)
                    (Some mm))
          | Exhausted mm v_mag v_ang =>
              store_results h g rows bus_ids v_mag v_ang
                (mk (max_iterations pf) (tolerance pf) (converged pf)
                    (iterations pf) mm)
          end
      end
  end.

End PowerFlow.

(** ** detection/graph_based.py *)

Module GraphBasedDetector.

(** The [evidence] and [message] texts, which format floats for display,
    are left out.  A Python [set] of integers is a list without
    repetition. *)
Record FaultSection : Type := mkSection {
  bus_ids : list Z;
  line_ids : list Z;
  probability : R
}.

Record GraphDetectionResult : Type := mkResult {
  detected : bool;
  fault_sections : list FaultSection;
  faulted_line_id : option Z;
  faulted_bus_id : option Z;
  estimated_position : option R
}.

Record t : Type := mk {
  voltage_deviations : Dict.t R;
  current_anomalies : Dict.t R
}.

(** [{a, b}] *)
Definition set2 (a b : Z) : list Z := if Z.eqb a b then [a] else [a; b].

(** [{x for x in l}] *)
Fixpoint set_of (l : list Z) : list Z :=
  match l with
  | [] => []
  | x :: r => if Grid.mem x r then set_of r else x :: set_of r
  end.

Definition _two_terminal_location (h : Heap) (line : TransmissionLine.t) : R :=
  let v_from := Cx.abs (Bus.voltage_complex (h (TransmissionLine.from_bus line))) in
  let v_to := Cx.abs (Bus.voltage_complex (h (TransmissionLine.to_bus line))) in
  if Rlt_dec (v_from + v_to) 1e-10 then 0.5
  else
    let drop_from := 1.0 - v_from in
    let drop_to := 1.0 - v_to in
    let total_drop := drop_from + drop_to in
    if Rlt_dec total_drop 1e-10 then 0.5
    else
      let position := drop_from / total_drop in
      Rmax 0.0 (Rmin 1.0 position).

(** [max(buses, key=lambda b: deviations.get(b, 0))]: the first maximum. *)
Fixpoint max_by (key : Z -> R) (best : Z) (l : list Z) : Z :=
  match l with
  | [] => best
  | b :: r => if Rgt_dec (key b) (key best) then max_by key b r else max_by key best r
  end.

Definition deviation_of (d : t) (b : Z) : R :=
  match Dict.get (voltage_deviations d) b with
  | Some v => v
  | None => 0
  end.

(** [affected_buses] lists the set in its iteration order.  The fault
    object is mutated in place and is returned with the result. *)
Definition _localize_fault (h : Heap) (g : Grid.t) (d : t) (fault : Fault.t)
    (affected_buses : list Z) : GraphDetectionResult * Fault.t :=
  match find TransmissionLine.is_faulted (Dict.values (Grid.lines g)) with
  | Some line =>
      let section :=
        mkSection
          (set2 (Bus.id (h (TransmissionLine.from_bus line)))
                (Bus.id (h (TransmissionLine.to_bus line))))
          [TransmissionLine.id line] 0.95 in
      let estimated_pos := _two_terminal_location h line in
      let fault :=
        if Fault.is_line_fault fault
           && Z.eqb (Fault.element_id fault) (TransmissionLine.id line)
        then Fault.set_detected fault true (Some estimated_pos) else fault in
      (mkResult true [section] (Some (TransmissionLine.id line)) None
                (Some estimated_pos), fault)
  | None =>
      match find (fun bus => Bus.is_faulted (h bus)) (Dict.values (Grid.buses g))
      with
      | Some bus =>
          let connected_lines := Grid.get_connected_lines h g (Bus.id (h bus)) in
          let section :=
            mkSection [Bus.id (h bus)]
                      (set_of (map TransmissionLine.id connected_lines)) 0.9 in
          let fault :=
            if Fault.is_bus_fault fault
               && Z.eqb (Fault.element_id fault) (Bus.id (h bus))
            then Fault.set_detected fault true (Fault.detected_location fault)
            else fault in
          (mkResult true [section] None (Some (Bus.id (h bus))) None, fault)
      | None =>
          match affected_buses with
          | first :: others =>
              let max_drop_bus := max_by (deviation_of d) first others in
              let section := mkSection affected_buses [] 0.5 in
              (mkResult true [section] None (Some max_drop_bus) None, fault)
          | [] => (mkResult false [] None None None, fault)
          end
      end
  end.

(** [_analyze_voltages] and [_analyze_currents] clear their dictionary and
    fill it again, one entry per bus id and per line id. *)
Definition _analyze_voltages (h : Heap) (g : Grid.t) (d : t) : t :=
  mk (fold_left
        (fun acc bus =>
           let deviation := Rabs (1.0 - Bus.voltage_pu (h bus)) in
           Dict.set acc (Bus.id (h bus)) deviation)
        (Dict.values (Grid.buses g)) [])
     (current_anomalies d).

Definition _analyze_currents (g : Grid.t) (d : t) : t :=
  mk (voltage_deviations d)
     (fold_left
        (fun acc line =>
           let anomaly :=
             if TransmissionLine.is_closed line
             then
               let anomaly := TransmissionLine.loading_percent line / 100.0 in
               if TransmissionLine.is_faulted line then 5.0 else anomaly
             else 0.0 in
           Dict.set acc (TransmissionLine.id line) anomaly)
        (Dict.values (Grid.lines g)) []).

(** [sorted(items, key=lambda x: x[1], reverse=True)]: stable, so items of
    equal deviation keep their order. *)
Fixpoint insert_desc (x : Z * R) (l : list (Z * R)) : list (Z * R) :=
  match l with
  | [] => [x]
  | y :: r =>
      if Rge_dec (snd x) (snd y) then x :: l else y :: insert_desc x r
  end.

Definition sorted_desc (l : list (Z * R)) : list (Z * R) :=
  fold_right insert_desc [] l.

Section SetOrder.

(** The order in which CPython iterates over the [set] that results from
    adding the given integers one after the other. *)
Variable set_iter : list Z -> list Z.

Definition _find_affected_buses (d : t) (threshold : R) : list Z :=
  let sorted_buses := sorted_desc (voltage_deviations d) in
  set_iter
    (map fst
         (filter (fun item => if Rge_dec (snd item) threshold then true else false)
                 sorted_buses)).

(** The detector and the fault object are mutated in place and are
    returned with the result. *)
Definition detect_fault (h : Heap) (g : Grid.t) (d : t)
    (fault : option Fault.t) : t * GraphDetectionResult * option Fault.t :=
  match fault with
  | None => (d, mkResult false [] None None None, None)
  | Some f =>
      if negb (Fault.is_active f)
      then (d, mkResult false [] None None None, Some f)
      else
        let d := _analyze_voltages h g d in
        let d := _analyze_currents g d in
        let affected_buses := _find_affected_buses d 0.05 in
        let '(result, f) := _localize_fault h g d f affected_buses in
        (d, result, Some f)
  end.

End SetOrder.

(** The [for neighbor in ...] loop of [find_shortest_path] for one entry
    taken from the queue: [inl] is the [return] inside the loop, [inr] the
    visited set and the queue it leaves. *)
Fixpoint scan_neighbors (to_bus_id : Z) (path : list Z) (neighbors : list Z)
    (visited : list Z) (queue : list (Z * list Z))
  : list Z + (list Z * list (Z * list Z)) :=
  match neighbors with
  | [] => inr (visited, queue)
  | neighbor :: rest =>
      if Z.eqb neighbor to_bus_id then inl (path ++ [neighbor])
      else if Grid.mem neighbor visited
      then scan_neighbors to_bus_id path rest visited queue
      else scan_neighbors to_bus_id path rest (neighbor :: visited)
             (queue ++ [(neighbor, path ++ [neighbor])])
  end.

(** The [while queue] loop; [fuel] bounds the number of entries taken from
    the queue and [None] means that it ran out. *)
Fixpoint bfs (fuel : nat) (g : Grid.t) (to_bus_id : Z) (visited : list Z)
    (queue : list (Z * list Z)) : option (list Z) :=
  match fuel with
  | O => None
  | S fuel' =>
      match queue with
      | [] => Some []
      | (current, path) :: queue' =>
          match scan_neighbors to_bus_id path (Grid.get_neighbors g current)
                  visited queue' with
          | inl found => Some found
          | inr (visited', queue'') => bfs fuel' g to_bus_id visited' queue''
          end
      end
  end.

Definition find_shortest_path (fuel : nat) (g : Grid.t)
    (from_bus_id to_bus_id : Z) : option (list Z) :=
  if Z.eqb from_bus_id to_bus_id then Some [from_bus_id]
  else bfs fuel g to_bus_id [from_bus_id] [(from_bus_id, [from_bus_id])].

End GraphBasedDetector.

(** ** detection/impedance_based.py *)

Module RelayMeasurement.

Record t : Type := mk {
  line_id : Z;
  voltage : C;
  current : C;
  apparent_impedance : Cx.ext
}.

End RelayMeasurement.

Module DetectionResult.

(** The [message] text, which formats floats for display, is left out. *)
Record t : Type := mk {
  detected : bool;
  line_id : option Z;
  estimated_position : option R;
  zone : option Z;
  confidence : R
}.

Definition not_detected : t := mk false None None None 0.0.

End DetectionResult.

Module ImpedanceBasedDetector.

Record t : Type := mk {
  measurements : Dict.t RelayMeasurement.t;
  results : list DetectionResult.t
}.

Definition init : t := mk [] [].

(** [v / i if abs(i) > 1e-10 else complex(inf, inf)] *)
Definition measured_impedance (v i : C) : option Cx.ext :=
  if Rgt_dec (Cx.abs i) 1e-10
  then option_map Cx.Fin (Cx.div v i)
  else Some Cx.Inf.

(** The body of the loop of [simulate_measurements] for one line.  The outer
    [None] is a [ZeroDivisionError], the inner one the [continue] on a line
    that is open and not faulted. *)
Definition measure_line (h : Heap) (fault : option Fault.t)
    (line : TransmissionLine.t) : option (option RelayMeasurement.t) :=
  if negb (TransmissionLine.is_closed line)
     && negb (TransmissionLine.is_faulted line)
  then Some None
  else
    let v_from := Bus.voltage_complex (h (TransmissionLine.from_bus line)) in
    let v_to := Bus.voltage_complex (h (TransmissionLine.to_bus line)) in
    i_normal <-
      (if Rgt_dec (Cx.abs (TransmissionLine.z_pu line)) 1e-10
       then Cx.div (Cx.sub v_from v_to) (TransmissionLine.z_pu line)
       else Some (Cx.mk 0 0)) ;;
    match fault with
    | Some f =>
        if TransmissionLine.is_faulted line
           && Z.eqb (Fault.element_id f) (TransmissionLine.id line)
        then
          let fault_pos := TransmissionLine.fault_location line in
          let z_to_fault :=
            Cx.mul (TransmissionLine.z_pu line) (Cx.of_real fault_pos) in
          let z_f_pu := Fault.resistance f / Config.IMPEDANCE_BASE in
          let z_total := Cx.add z_to_fault (Cx.of_real z_f_pu) in
          i_fault <-
            (if Rgt_dec (Cx.abs z_total) 1e-10
             then Cx.div v_from z_total
             else Cx.div v_from (Cx.of_real 1e-6)) ;;
          z_apparent <- measured_impedance v_from i_fault ;;
          Some (Some (RelayMeasurement.mk (TransmissionLine.id line) v_from
                        i_fault z_apparent))
        else
          z_apparent <- measured_impedance v_from i_normal ;;
          Some (Some (RelayMeasurement.mk (TransmissionLine.id line) v_from
                        i_normal z_apparent))
    | None =>
        z_apparent <- measured_impedance v_from i_normal ;;
        Some (Some (RelayMeasurement.mk (TransmissionLine.id line) v_from
                      i_normal z_apparent))
    end.

(** [simulate_measurements]: the dictionary is cleared and filled again. *)
Fixpoint measure_lines (h : Heap) (fault : option Fault.t)
    (ls : list TransmissionLine.t) (acc : Dict.t RelayMeasurement.t)
  : option (Dict.t RelayMeasurement.t) :=
  match ls with
  | [] => Some acc
  | line :: rest =>
      m <- measure_line h fault line ;;
      match m with
      | None => measure_lines h fault rest acc
      | Some m =>
          measure_lines h fault rest
            (Dict.set acc (TransmissionLine.id line) m)
      end
  end.

Definition simulate_measurements (h : Heap) (g : Grid.t)
    (fault : option Fault.t) : option (Dict.t RelayMeasurement.t) :=
  measure_lines h fault (Dict.values (Grid.lines g)) [].

(** The zone a reach ratio falls in. *)
Definition zone_of (reach_ratio : R) : option Z :=
  if Rle_dec reach_ratio Config.ZONE1_REACH then Some 1%Z
  else if Rle_dec reach_ratio Config.ZONE2_REACH then Some 2%Z
  else if Rle_dec reach_ratio Config.ZONE3_REACH then Some 3%Z
  else None.

Definition confidence_of (zone : Z) (reach_ratio : R) : R :=
  if Z.eqb zone 1
  then 0.95 - (reach_ratio / Config.ZONE1_REACH) * 0.1
  else if Z.eqb zone 2
  then 0.8 - ((reach_ratio - Config.ZONE1_REACH)
              / (Config.ZONE2_REACH - Config.ZONE1_REACH)) * 0.1
  else 0.6 - ((reach_ratio - Config.ZONE2_REACH)
              / (Config.ZONE3_REACH - Config.ZONE2_REACH)) * 0.1.

(** The loop of [detect_fault] over [self.measurements.items()]; [None]
    means that the loop ended without a [return]. *)
Fixpoint check_zones (g : Grid.t) (fault : Fault.t)
    (items : list (Z * RelayMeasurement.t))
  : option (DetectionResult.t * Fault.t) :=
  match items with
  | [] => None
  | (line_id, measurement) :: rest =>
      match Grid.get_line g line_id with
      | None => check_zones g fault rest
      | Some line =>
          let z_line := TransmissionLine.z_pu line in
          match Cx.abs_ext (RelayMeasurement.apparent_impedance measurement)
          with
          | None => check_zones g fault rest
          | Some abs_z_apparent =>
              if Rgt_dec abs_z_apparent (Cx.abs z_line * 2)
              then check_zones g fault rest
              else if Rgt_dec (Cx.abs z_line) 1e-10
              then
                let reach_ratio := abs_z_apparent / Cx.abs z_line in
                match zone_of reach_ratio with
                | None => check_zones g fault rest
                | Some zone =>
                    let estimated_pos := Rmin 1.0 reach_ratio in
                    let confidence := confidence_of zone reach_ratio in
                    let result :=
                      DetectionResult.mk true (Some line_id)
                        (Some estimated_pos) (Some zone)
                        (Rmax 0.1 confidence) in
                    let fault :=
                      if Fault.is_line_fault fault
                         && Z.eqb (Fault.element_id fault) line_id
                      then Fault.set_detected fault true (Some estimated_pos)
                      else fault in
                    Some (result, fault)
                end
              else
                (* reach_ratio = float('inf'), which falls in no zone *)
                check_zones g fault rest
          end
      end
  end.

(** The detector and the fault object are mutated in place and are
    returned with the result; [None] is a [ZeroDivisionError]. *)
Definition detect_fault (h : Heap) (g : Grid.t) (d : t)
    (fault : option Fault.t)
  : option (t * DetectionResult.t * option Fault.t) :=
  ms <- simulate_measurements h g fault ;;
  let d := mk ms (results d) in
  match fault with
  | None => Some (d, DetectionResult.not_detected, None)
  | Some f =>
      if negb (Fault.is_active f)
      then Some (d, DetectionResult.not_detected, Some f)
      else
        match check_zones g f ms with
        | Some (result, f) =>
            Some (mk ms (results d ++ [result]), result, Some f)
        | None => Some (d, DetectionResult.not_detected, Some f)
        end
  end.

End ImpedanceBasedDetector.

(** ** Definitions used by the statements *)

(** The sequence-network denominator of each model, as the source forms it
    before the small-magnitude test. *)
Definition sequence_denominator (ft : FaultType) (z0 z1 z2 : C) (z_f : R)
  : option C :=
  match ft with
  | SLG => Some (Cx.add (Cx.add (Cx.add z0 z1) z2) (Cx.of_real (3 * z_f)))
  | LL => Some (Cx.add (Cx.add z1 z2) (Cx.of_real z_f))
  | DLG =>
      let z0_with_fault := Cx.add z0 (Cx.of_real (3 * z_f)) in
      z_parallel <-
        (if Rlt_dec (Cx.abs (Cx.add z0_with_fault z2)) 1e-10
         then Some (Cx.of_real 0)
         else Cx.div (Cx.mul z0_with_fault z2) (Cx.add z0_with_fault z2)) ;;
      Some (Cx.add z1 z_parallel)
  | LLL => Some (Cx.add z1 (Cx.of_real z_f))
  | OPEN => None
  end.

(** The replacement the specification words: a small denominator becomes
    1e-10 in the direction of the original one. *)
Definition guard_same_direction (z : C) : C :=
  if Rlt_dec (Cx.abs z) 1e-10 then Cx.scale (1e-10 / Cx.abs z) z else z.

(** The estimate of [_two_terminal_location] in terms of the two voltage
    magnitudes. *)
Definition two_terminal_estimate (v_from v_to : R) : R :=
  if Rlt_dec (v_from + v_to) 1e-10 then 0.5
  else if Rlt_dec ((1 - v_from) + (1 - v_to)) 1e-10 then 0.5
  else Rmax 0 (Rmin 1 ((1 - v_from) / ((1 - v_from) + (1 - v_to)))).

(** The estimate as the specification words it: the fallback is taken when
    both drops are below 1e-10. *)
Definition two_terminal_estimate_spec (v_from v_to : R) : R :=
  let drop_from := 1 - v_from in
  let drop_to := 1 - v_to in
  match Rlt_dec drop_from 1e-10, Rlt_dec drop_to 1e-10 with
  | left _, left _ => 0.5
  | _, _ => Rmax 0 (Rmin 1 (drop_from / (drop_from + drop_to)))
  end.

(** The state a call leaves behind, whether it returned or raised. *)
Definition state_of {S A : Type} (o : outcome S A) : S :=
  match o with
  | Return s _ => s
  | Raise s _ => s
  end.

(** Closed lines end on buses of the grid. *)
Definition closed_lines_registered (h : Heap) (g : Grid.t) : Prop :=
  forall line,
    In line (Dict.values (Grid.lines g)) ->
    TransmissionLine.is_closed line = true ->
    In (Bus.id (h (TransmissionLine.from_bus line))) (Dict.keys (Grid.buses g))
    /\ In (Bus.id (h (TransmissionLine.to_bus line))) (Dict.keys (Grid.buses g)).

(** The grid after the marking step of [inject_line_fault]:
    [if fault_type == OPEN: line.open_line()] and then
    [line.apply_fault(fault_type.value, position)]. *)
Definition marked_grid (g : Grid.t) (line_id : Z) (ft : FaultType)
    (alpha : R) : Grid.t :=
  mutate_line
    (if FaultType_eqb ft OPEN
     then mutate_line g line_id TransmissionLine.open_line else g)
    line_id (fun line => TransmissionLine.apply_fault line ft alpha).

(** ** The admittance matrix as the specification words it

    Every closed line adds its PI model: [-y] at the two off-diagonal
    places of its terminals and [y + j b/2] at the two diagonal places. *)

Definition pi_stamp (i j : nat) (y y_shunt : C) (a b : nat) : C :=
  Cx.add
    (Cx.add
       (Cx.add
          (if Nat.eqb a i && Nat.eqb b j then Cx.neg y else Cx.zero)
          (if Nat.eqb a j && Nat.eqb b i then Cx.neg y else Cx.zero))
       (if Nat.eqb a i && Nat.eqb b i then Cx.add y y_shunt else Cx.zero))
    (if Nat.eqb a j && Nat.eqb b j then Cx.add y y_shunt else Cx.zero).

Definition line_contribution (h : Heap) (bus_ids : list Z)
    (line : TransmissionLine.t) (a b : nat) : C :=
  if TransmissionLine.is_closed line
  then
    match index_of (Bus.id (h (TransmissionLine.from_bus line))) bus_ids,
          index_of (Bus.id (h (TransmissionLine.to_bus line))) bus_ids with
    | Some i, Some j =>
        pi_stamp i j (TransmissionLine.y_pu line)
                 (Cx.mk 0 (TransmissionLine.b_pu line / 2)) a b
    | _, _ => Cx.zero
    end
  else Cx.zero.

Definition y_bus_sum (h : Heap) (g : Grid.t) (a b : nat) : C :=
  fold_left
    (fun acc line =>
       Cx.add acc
         (line_contribution h (sorted (Dict.keys (Grid.buses g))) line a b))
    (Dict.values (Grid.lines g)) (Cx.mk 0 0).

(** ** Grids as the constructor methods build them

    The grids that [Grid(name)], [add_bus] with an id that is not yet in
    use, and the [add_line] calls that return produce, over a fixed store of
    bus objects. *)
Inductive built (h : Heap) : Grid.t -> Prop :=
| built_init (name : string) : built h (Grid.init name)
| built_add_bus (g : Grid.t) (bus : BusRef) :
    built h g ->
    Dict.get (Grid.buses g) (Bus.id (h bus)) = None ->
    built h (Grid.add_bus h g bus)
| built_add_line (g g' : Grid.t) (line : TransmissionLine.t) :
    built h g ->
    Grid.add_line h g line = Return g' tt ->
    built h g'.

(** What the adjacency lists of a grid record: the keys are the bus ids,
    every neighbour relation is entered at both ends and once, and the two
    ends of every line are neighbours. *)
Record adjacency_consistent (h : Heap) (g : Grid.t) : Prop := {
  adjacency_keys : Dict.keys (Grid.adjacency g) = Dict.keys (Grid.buses g);
  adjacency_symmetric :
    forall a b, In b (Grid.get_neighbors g a) -> In a (Grid.get_neighbors g b);
  adjacency_nodup : forall a, NoDup (Grid.get_neighbors g a);
  adjacency_registered :
    forall a b, In b (Grid.get_neighbors g a) -> In b (Dict.keys (Grid.buses g));
  adjacency_lines :
    forall line, In line (Dict.values (Grid.lines g)) ->
      In (Bus.id (h (TransmissionLine.to_bus line)))
         (Grid.get_neighbors g (Bus.id (h (TransmissionLine.from_bus line))))
}.

(** ** Paths along the adjacency lists

    [walk g a b p]: the list [p] of bus ids starts at [a], ends at [b], and
    each of its ids is a neighbour of the one before it. *)
Inductive walk (g : Grid.t) (a : Z) : Z -> list Z -> Prop :=
| walk_start : walk g a a [a]
| walk_step (b c : Z) (p : list Z) :
    walk g a b p -> In c (Grid.get_neighbors g b) -> walk g a c (p ++ [c]).

(** A walk with the fewest bus ids among the walks between its ends. *)
Definition shortest_walk (g : Grid.t) (a b : Z) (p : list Z) : Prop :=
  walk g a b p
  /\ forall q, walk g a b q -> (List.length p <= List.length q)%nat.

(** The number of entries of all adjacency lists together. *)
Definition adjacency_size (g : Grid.t) : nat :=
  List.length (List.concat (Dict.values (Grid.adjacency g))).

(** ** Sample networks

    Two bus objects at the addresses 0 and 1 and one 100 km line between
    them; the statements below are evaluated on grids made of these. *)

Module Sample.

Definition bus1 : Bus.t := Bus.init 1 "Gen-1" SLACK Config.NOMINAL_VOLTAGE 100 100.
Definition bus2 : Bus.t := Bus.init 2 "Bus-2" PQ Config.NOMINAL_VOLTAGE 300 100.

Definition heap : Heap :=
  fun r => match r with O => bus1 | _ => bus2 end.

(** [TransmissionLine(1, b1, b2, length_km=100)] *)
Definition line1 : TransmissionLine.t :=
  TransmissionLine.init 1 0%nat 1%nat 100 Config.LINE_RESISTANCE_PER_KM
    Config.LINE_REACTANCE_PER_KM Config.LINE_SUSCEPTANCE_PER_KM 400.0.

(** The grid after [add_bus(b1)]. *)
Definition grid_one_bus : Grid.t :=
  Grid.add_bus heap (Grid.init "sample") 0%nat.

(** The grid after [add_bus(b1); add_bus(b2)]. *)
Definition grid_no_line : Grid.t := Grid.add_bus heap grid_one_bus 1%nat.

(** The grid after [add_bus(b1); add_bus(b2); add_line(line1)]. *)
Definition grid_two_bus : Grid.t :=
  Grid.mk "sample" [(1%Z, 0%nat); (2%Z, 1%nat)] [(1%Z, line1)]
          [(1%Z, [2%Z]); (2%Z, [1%Z])] None false.

(** The two buses at 0.98 pu and 1.05 pu. *)
Definition heap_uneven : Heap :=
  fun r =>
    match r with
    | O => Bus.set_voltage bus1 0.98 0
    | _ => Bus.set_voltage bus2 1.05 0
    end.

(** [line1] after [apply_fault('slg', 0.3)]. *)
Definition grid_faulted : Grid.t :=
  mutate_line grid_two_bus 1
    (fun line => TransmissionLine.apply_fault line SLG 0.3).

Definition slg_fault : Fault.t := Fault.mk 0 SLG AtLine 1 0.3 0 true false None.

Definition detector : GraphBasedDetector.t := GraphBasedDetector.mk [] [].

(** [TransmissionLine(1, b1, b2, length_km=1, r_per_km=4.84e-9,
    x_per_km=0, b_per_km=0)]: a series impedance of 1e-11 pu. *)
Definition line_tiny : TransmissionLine.t :=
  TransmissionLine.init 1 0%nat 1%nat 1 4.84e-9 0 0 400.0.

Definition grid_tiny : Grid.t :=
  Grid.mk "sample" [(1%Z, 0%nat); (2%Z, 1%nat)] [(1%Z, line_tiny)]
          [(1%Z, [2%Z]); (2%Z, [1%Z])] None false.

(** The index rows [(bus_id_to_idx[bus_id], bus)] of the two buses. *)
Definition rows : list (nat * BusRef) := [(0%nat, 0%nat); (1%nat, 1%nat)].

(** [grid_no_line] once [build_y_bus] has cached the (zero) matrix. *)
Definition grid_no_line_cached : Grid.t :=
  Grid.mk "sample" [(1%Z, 0%nat); (2%Z, 1%nat)] [] [(1%Z, []); (2%Z, [])]
          (Some (Np.zeros 2)) true.

(** A third bus object, at the address 2, that no grid holds, and a line
    from it to bus 1. *)
Definition bus3 : Bus.t := Bus.init 3 "Bus-3" PQ Config.NOMINAL_VOLTAGE 500 100.

Definition heap3 : Heap :=
  fun r =>
    match r with
    | O => bus1
    | S O => bus2
    | _ => bus3
    end.

(** [TransmissionLine(3, b3, b1, length_km=100)] *)
Definition line3 : TransmissionLine.t :=
  TransmissionLine.init 3 2%nat 0%nat 100 Config.LINE_RESISTANCE_PER_KM
    Config.LINE_REACTANCE_PER_KM Config.LINE_SUSCEPTANCE_PER_KM 400.0.

(** The grid that [add_bus(b1); add_bus(b2)] and a refused
    [add_line(line3)] leave behind. *)
Definition grid_dangling : Grid.t :=
  Grid.mk "sample" [(1%Z, 0%nat); (2%Z, 1%nat)] [(3%Z, line3)]
          [(1%Z, []); (2%Z, [])] None false.

(** A small instance of the numpy interface: the inverse of a 2x2 matrix by
    its adjugate ([LinAlgError] on a zero determinant and on other shapes),
    and, for the linear systems, what numpy answers on an all-zero
    Jacobian: [solve] reports it singular and [lstsq] gives the zero
    vector. *)
Definition det2 (m : Np.cmatrix) : C :=
  Cx.sub (Cx.mul (Np.entry m 0 0) (Np.entry m 1 1))
         (Cx.mul (Np.entry m 0 1) (Np.entry m 1 0)).

Definition quot (a b : C) : C :=
  Cx.mk ((Cx.re a * Cx.re b + Cx.im a * Cx.im b) / Cx.norm2 b)
        ((Cx.im a * Cx.re b - Cx.re a * Cx.im b) / Cx.norm2 b).

Definition inv2 (m : Np.cmatrix) : option Np.cmatrix :=
  if Nat.eqb (Np.shape m) 2
  then
    if Cx.eq_dec (det2 m) Cx.zero then None
    else
      Some (Np.mkc 2
              (fun a b =>
                 match a, b with
                 | 0%nat, 0%nat => quot (Np.entry m 1 1) (det2 m)
                 | 0%nat, 1%nat => quot (Cx.neg (Np.entry m 0 1)) (det2 m)
                 | 1%nat, 0%nat => quot (Cx.neg (Np.entry m 1 0)) (det2 m)
                 | 1%nat, 1%nat => quot (Np.entry m 0 0) (det2 m)
                 | _, _ => Cx.zero
                 end))
  else None.

Definition numpy2 : Numpy.
Proof.
  refine (Build_Numpy inv2 (fun _ _ => None)
                      (fun _ b => Some (map (fun _ => 0) b)) _ _).
  - intros j b x E. discriminate E.
  - intros j b x E. inversion E. apply length_map.
Defined.

End Sample.

(* ====================================================================== *)
(** * Properties *)

(** Unfold the constants of [config.py] so that [lra] sees numbers. *)
Ltac unfold_config :=
  unfold Cx.norm2, Config.IMPEDANCE_BASE, Config.VOLTAGE_BASE,
    Config.POWER_BASE, Config.LINE_RESISTANCE_PER_KM,
    Config.LINE_REACTANCE_PER_KM, Config.LINE_SUSCEPTANCE_PER_KM,
    Config.ZERO_SEQ_RESISTANCE_RATIO, Config.ZERO_SEQ_REACTANCE_RATIO in *.

(** ** Complex arithmetic *)

Lemma norm2_nonneg (z : C) : 0 <= Cx.norm2 z.
Proof. unfold Cx.norm2. nra. Qed.

Lemma norm2_zero_iff (z : C) : Cx.norm2 z = 0 <-> z = Cx.zero.
Proof.
  destruct z as [x y]. unfold Cx.norm2, Cx.zero. simpl. split.
  - intros H. assert (x = 0) by nra. assert (y = 0) by nra. now subst.
  - intros H. inversion H. lra.
Qed.

Lemma abs_nonneg (z : C) : 0 <= Cx.abs z.
Proof. apply sqrt_pos. Qed.

Lemma abs_lt_iff (z : C) (e : R) :
  0 < e -> (Cx.abs z < e <-> Cx.norm2 z < e * e).
Proof.
  intros He. unfold Cx.abs. split; intros H.
  - pose proof (norm2_nonneg z) as Hn.
    pose proof (sqrt_pos (Cx.norm2 z)) as Hs.
    rewrite <- (sqrt_sqrt (Cx.norm2 z)) by exact Hn. nra.
  - rewrite <- (sqrt_square e) by lra.
    apply sqrt_lt_1_alt. split; [apply norm2_nonneg | exact H].
Qed.

Lemma abs_zero : Cx.abs Cx.zero = 0.
Proof.
  unfold Cx.abs, Cx.norm2, Cx.zero. simpl.
  replace (0 * 0 + 0 * 0) with 0 by lra. apply sqrt_0.
Qed.

Lemma abs_mul (a b : C) : Cx.abs (Cx.mul a b) = Cx.abs a * Cx.abs b.
Proof.
  unfold Cx.abs. rewrite <- sqrt_mult by apply norm2_nonneg.
  f_equal. unfold Cx.norm2, Cx.mul. simpl. ring.
Qed.

Lemma div_defined (a b : C) :
  b <> Cx.zero -> exists q, Cx.div a b = Some q.
Proof.
  intros Hb. unfold Cx.div. destruct (Cx.eq_dec b Cx.zero) as [E | _].
  - contradiction.
  - eexists. reflexivity.
Qed.

Lemma abs_ge_nonzero (z : C) (e : R) : 0 < e -> ~ Cx.abs z < e -> z <> Cx.zero.
Proof.
  intros He Hz E. subst z. rewrite abs_zero in Hz. lra.
Qed.

Lemma of_real_nonzero (x : R) : x <> 0 -> Cx.of_real x <> Cx.zero.
Proof. intros Hx E. inversion E. contradiction. Qed.

Lemma guard_total_nonzero (z : C) : FaultModel.guard_total z <> Cx.zero.
Proof.
  unfold FaultModel.guard_total. destruct (Rlt_dec (Cx.abs z) 1e-10) as [H | H].
  - apply of_real_nonzero. lra.
  - apply (abs_ge_nonzero z 1e-10); [lra | exact H].
Qed.

Lemma guard_total_small (z : C) :
  Cx.abs z < 1e-10 -> FaultModel.guard_total z = Cx.of_real 1e-10.
Proof.
  intros H. unfold FaultModel.guard_total.
  destruct (Rlt_dec (Cx.abs z) 1e-10); [reflexivity | contradiction].
Qed.

Lemma guard_total_large (z : C) :
  ~ Cx.abs z < 1e-10 -> FaultModel.guard_total z = z.
Proof.
  intros H. unfold FaultModel.guard_total.
  destruct (Rlt_dec (Cx.abs z) 1e-10); [contradiction | reflexivity].
Qed.

Lemma cx_ext (a b : C) : Cx.re a = Cx.re b -> Cx.im a = Cx.im b -> a = b.
Proof. destruct a, b. simpl. intros -> ->. reflexivity. Qed.

Lemma abs_ge (z : C) (e : R) : 0 < e -> e * e <= Cx.norm2 z -> e <= Cx.abs z.
Proof.
  intros He Hn. destruct (Rlt_dec (Cx.abs z) e) as [Hlt | Hge]; [| lra].
  apply (abs_lt_iff z e He) in Hlt. lra.
Qed.

Lemma abs_of_norm2 (a b : C) : Cx.norm2 a = Cx.norm2 b -> Cx.abs a = Cx.abs b.
Proof. unfold Cx.abs. intros ->. reflexivity. Qed.

Lemma abs_pure_imaginary (y : R) : 0 <= y -> Cx.abs (Cx.mk 0 y) = y.
Proof.
  intros Hy. unfold Cx.abs, Cx.norm2. simpl.
  replace (0 * 0 + y * y) with (y * y) by ring. apply sqrt_square, Hy.
Qed.

Lemma abs_of_real (x : R) : Cx.abs (Cx.of_real x) = Rabs x.
Proof.
  unfold Cx.abs, Cx.norm2, Cx.of_real. simpl.
  replace (x * x + 0 * 0) with (Rsqr x) by (unfold Rsqr; ring).
  apply sqrt_Rsqr_abs.
Qed.

(** [np.exp(1j * t)] lies on the unit circle. *)
Lemma norm2_exp_imaginary (t : R) : Cx.norm2 (Cx.exp (Cx.mk 0 t)) = 1.
Proof.
  unfold Cx.norm2, Cx.exp. simpl. rewrite exp_0.
  pose proof (sin2_cos2 t) as H. unfold Rsqr in H. lra.
Qed.

Lemma norm2_mul (a b : C) : Cx.norm2 (Cx.mul a b) = Cx.norm2 a * Cx.norm2 b.
Proof. unfold Cx.norm2, Cx.mul. simpl. ring. Qed.

(** ** The fault models *)

Lemma div_guard_total (v z : C) :
  exists q, Cx.div v (FaultModel.guard_total z) = Some q.
Proof. apply div_defined, guard_total_nonzero. Qed.

Lemma slg_defined (v_f z0 z1 z2 : C) (z_f : R) :
  exists i,
    Cx.div v_f (FaultModel.guard_total
                  (Cx.add (Cx.add (Cx.add z0 z1) z2) (Cx.of_real (3 * z_f))))
    = Some i
    /\ SLGFault.calculate_fault_current v_f z0 z1 z2 z_f = Some (i, i, i).
Proof.
  destruct (div_guard_total v_f
              (Cx.add (Cx.add (Cx.add z0 z1) z2) (Cx.of_real (3 * z_f))))
    as [q Hq].
  exists q. split; [exact Hq |].
  unfold SLGFault.calculate_fault_current. rewrite Hq. reflexivity.
Qed.

(** C6: with a total impedance of magnitude at least 1e-10 the SLG model
    returns I0 = I1 = I2 = v_f / (z0 + z1 + z2 + 3 z_f). *)
Theorem slg_sequence_currents (v_f z0 z1 z2 : C) (z_f : R) :
  1e-10 <= Cx.abs (Cx.add (Cx.add (Cx.add z0 z1) z2) (Cx.of_real (3 * z_f))) ->
  exists i,
    Cx.div v_f (Cx.add (Cx.add (Cx.add z0 z1) z2) (Cx.of_real (3 * z_f)))
    = Some i
    /\ SLGFault.calculate_fault_current v_f z0 z1 z2 z_f = Some (i, i, i).
Proof.
  intros Hbig.
  destruct (slg_defined v_f z0 z1 z2 z_f) as [i [Hdiv Hcalc]].
  rewrite guard_total_large in Hdiv by lra.
  exists i. split; assumption.
Qed.

Lemma slg_sequence_currents_witness :
  1e-10 <= Cx.abs (Cx.add (Cx.add (Cx.add (Cx.mk 0 0.3) (Cx.mk 0 0.1))
                                  (Cx.mk 0 0.1)) (Cx.of_real (3 * 0)))
  /\ exists i,
       Cx.div (Cx.mk 1 0)
         (Cx.add (Cx.add (Cx.add (Cx.mk 0 0.3) (Cx.mk 0 0.1)) (Cx.mk 0 0.1))
                 (Cx.of_real (3 * 0))) = Some i
       /\ SLGFault.calculate_fault_current (Cx.mk 1 0) (Cx.mk 0 0.3)
            (Cx.mk 0 0.1) (Cx.mk 0 0.1) 0 = Some (i, i, i).
Proof.
  assert (H : 1e-10 <= Cx.abs (Cx.add (Cx.add (Cx.add (Cx.mk 0 0.3) (Cx.mk 0 0.1))
                                  (Cx.mk 0 0.1)) (Cx.of_real (3 * 0)))).
  { apply abs_ge; [lra |]. unfold Cx.norm2. simpl. lra. }
  split; [exact H |].
  exact (slg_sequence_currents (Cx.mk 1 0) (Cx.mk 0 0.3) (Cx.mk 0 0.1)
           (Cx.mk 0 0.1) 0 H).
Defined.

Lemma three_phase_defined (v_f z0 z1 z2 : C) (z_f : R) :
  exists i1,
    Cx.div v_f (FaultModel.guard_total (Cx.add z1 (Cx.of_real z_f))) = Some i1
    /\ ThreePhaseFault.calculate_fault_current v_f z0 z1 z2 z_f
       = Some (Cx.mk 0 0, i1, Cx.mk 0 0).
Proof.
  destruct (div_guard_total v_f (Cx.add z1 (Cx.of_real z_f))) as [q Hq].
  exists q. split; [exact Hq |].
  unfold ThreePhaseFault.calculate_fault_current. rewrite Hq. reflexivity.
Qed.

(** A positive-sequence current alone gives three phase currents of one
    magnitude. *)
Lemma positive_sequence_balanced (i1 : C) :
  let '(ia, ib, ic) :=
    FaultModel.sequence_to_phase (Cx.mk 0 0) i1 (Cx.mk 0 0) in
  Cx.abs ia = Cx.abs i1 /\ Cx.abs ib = Cx.abs i1 /\ Cx.abs ic = Cx.abs i1.
Proof.
  unfold FaultModel.sequence_to_phase.
  set (a := Cx.exp (Cx.mk 0 (2 * PI / 3))).
  assert (Ha : Cx.norm2 a = 1) by apply norm2_exp_imaginary.
  assert (Ha2 : Cx.norm2 (Cx.mul a a) = 1) by (rewrite norm2_mul, Ha; lra).
  repeat split; apply abs_of_norm2.
  - unfold Cx.norm2, Cx.add. simpl. ring.
  - transitivity (Cx.norm2 (Cx.mul (Cx.mul a a) i1)).
    + unfold Cx.norm2, Cx.add, Cx.mul. simpl. ring.
    + rewrite norm2_mul, Ha2. ring.
  - transitivity (Cx.norm2 (Cx.mul a i1)).
    + unfold Cx.norm2, Cx.add, Cx.mul. simpl. ring.
    + rewrite norm2_mul, Ha. ring.
Qed.

(** C7: a three-phase fault, taken through the Fortescue transform, gives
    phase currents of equal magnitude (hence within 1e-6 of each other) and
    a zero-sequence current of magnitude below 1e-10, for all inputs. *)
Theorem three_phase_fault_balanced (v_f z0 z1 z2 : C) (z_f : R) :
  exists i0 i1 i2 ia ib ic,
    ThreePhaseFault.calculate_fault_current v_f z0 z1 z2 z_f = Some (i0, i1, i2)
    /\ FaultModel.sequence_to_phase i0 i1 i2 = (ia, ib, ic)
    /\ Cx.abs ia = Cx.abs ib /\ Cx.abs ib = Cx.abs ic
    /\ Rabs (Cx.abs ia - Cx.abs ib) <= 1e-6
    /\ Rabs (Cx.abs ib - Cx.abs ic) <= 1e-6
    /\ Rabs (Cx.abs ia - Cx.abs ic) <= 1e-6
    /\ Cx.abs i0 < 1e-10.
Proof.
  destruct (three_phase_defined v_f z0 z1 z2 z_f) as [i1 [_ Hcalc]].
  pose proof (positive_sequence_balanced i1) as Hbal.
  destruct (FaultModel.sequence_to_phase (Cx.mk 0 0) i1 (Cx.mk 0 0))
    as [[ia ib] ic] eqn:Hphase.
  destruct Hbal as [Ha [Hb Hc]].
  exists (Cx.mk 0 0), i1, (Cx.mk 0 0), ia, ib, ic.
  split; [exact Hcalc |]. split; [exact Hphase |].
  rewrite Ha, Hb, Hc.
  replace (Cx.abs i1 - Cx.abs i1) with 0 by ring. rewrite Rabs_R0.
  fold Cx.zero. rewrite abs_zero.
  repeat split; lra.
Qed.

Lemma dlg_parallel_defined (z0_with_fault z2 : C) :
  exists z_parallel,
    (if Rlt_dec (Cx.abs (Cx.add z0_with_fault z2)) 1e-10
     then Some (Cx.of_real 0)
     else Cx.div (Cx.mul z0_with_fault z2) (Cx.add z0_with_fault z2))
    = Some z_parallel.
Proof.
  destruct (Rlt_dec (Cx.abs (Cx.add z0_with_fault z2)) 1e-10) as [Hs | Hl].
  - eexists. reflexivity.
  - apply div_defined. apply (abs_ge_nonzero _ 1e-10); [lra | exact Hl].
Qed.

Lemma dlg_defined (v_f z0 z1 z2 : C) (z_f : R) :
  exists z_total i0 i1 i2,
    sequence_denominator DLG z0 z1 z2 z_f = Some z_total
    /\ DLGFault.calculate_fault_current v_f z0 z1 z2 z_f = Some (i0, i1, i2)
    /\ Cx.div v_f (FaultModel.guard_total z_total) = Some i1.
Proof.
  unfold sequence_denominator, DLGFault.calculate_fault_current.
  set (z0f := Cx.add z0 (Cx.of_real (3 * z_f))).
  destruct (dlg_parallel_defined z0f z2) as [zp Hzp].
  rewrite Hzp. simpl.
  destruct (div_guard_total v_f (Cx.add z1 zp)) as [i1 Hi1].
  rewrite Hi1. simpl.
  destruct (Rlt_dec (Cx.abs (Cx.add z0f z2)) 1e-10) as [Hs | Hl].
  - destruct (div_defined i1 (Cx.of_real 2)) as [h Hh].
    { apply of_real_nonzero. lra. }
    rewrite Hh. simpl.
    exists (Cx.add z1 zp), h, i1, h. repeat split. exact Hi1.
  - assert (Hnz : Cx.add z0f z2 <> Cx.zero)
      by (apply (abs_ge_nonzero _ 1e-10); [lra | exact Hl]).
    destruct (div_defined (Cx.mul (Cx.neg i1) z2) _ Hnz) as [a Ha].
    destruct (div_defined (Cx.mul (Cx.neg i1) z0f) _ Hnz) as [b Hb].
    rewrite Ha, Hb. simpl.
    exists (Cx.add z1 zp), a, i1, b. repeat split. exact Hi1.
Qed.

(** C5 (as the code has it): every fault model returns sequence currents
    for all inputs, no division meeting a zero divisor, and in each model a
    sequence-network denominator of magnitude below 1e-10 is replaced by
    the real number 1e-10 before the positive-sequence current is formed. *)
Theorem fault_currents_guarded (ft : FaultType) (v_f z0 z1 z2 : C) (z_f : R) :
  match sequence_denominator ft z0 z1 z2 z_f with
  | Some z_total =>
      exists i0 i1 i2,
        get_fault_model ft v_f z0 z1 z2 z_f = Some (i0, i1, i2)
        /\ Cx.div v_f (if Rlt_dec (Cx.abs z_total) 1e-10
                       then Cx.of_real 1e-10 else z_total) = Some i1
  | None =>
      ft = OPEN
      /\ get_fault_model ft v_f z0 z1 z2 z_f
         = Some (Cx.mk 0 0, Cx.mk 0 0, Cx.mk 0 0)
  end.
Proof.
  destruct ft.
  - simpl. destruct (slg_defined v_f z0 z1 z2 z_f) as [i [Hd Hc]].
    exists i, i, i. split; assumption.
  - simpl. unfold LLFault.calculate_fault_current.
    destruct (div_guard_total v_f (Cx.add (Cx.add z1 z2) (Cx.of_real z_f)))
      as [i Hi].
    rewrite Hi. simpl. exists (Cx.mk 0 0), i, (Cx.neg i). split; [reflexivity | exact Hi].
  - destruct (dlg_defined v_f z0 z1 z2 z_f) as [zt [i0 [i1 [i2 [Hz [Hc Hd]]]]]].
    rewrite Hz. exists i0, i1, i2. split; assumption.
  - simpl. destruct (three_phase_defined v_f z0 z1 z2 z_f) as [i [Hd Hc]].
    exists (Cx.mk 0 0), i, (Cx.mk 0 0). split; assumption.
  - simpl. split; reflexivity.
Qed.

(** C5 (as the specification words it) fails: a denominator 5e-11 j is
    replaced by the real 1e-10, not by 1e-10 j, and the SLG currents differ
    from the ones the same-direction replacement would give. *)
Lemma same_direction_refuted :
  let v_f := Cx.mk 1 0 in
  let z0 := Cx.mk 0 5e-11 in
  let z_total :=
    Cx.add (Cx.add (Cx.add z0 Cx.zero) Cx.zero) (Cx.of_real (3 * 0)) in
  Cx.abs z_total < 1e-10
  /\ SLGFault.calculate_fault_current v_f z0 Cx.zero Cx.zero 0
     = Some (Cx.mk 1e10 0, Cx.mk 1e10 0, Cx.mk 1e10 0)
  /\ Cx.div v_f (guard_same_direction z_total) = Some (Cx.mk 0 (-1e10))
  /\ Cx.mk 1e10 0 <> Cx.mk 0 (-1e10).
Proof.
  cbv zeta.
  assert (Hz : Cx.add (Cx.add (Cx.add (Cx.mk 0 5e-11) Cx.zero) Cx.zero)
                      (Cx.of_real (3 * 0)) = Cx.mk 0 5e-11).
  { apply cx_ext; simpl; lra. }
  assert (Habs : Cx.abs (Cx.mk 0 5e-11) = 5e-11)
    by (apply abs_pure_imaginary; lra).
  rewrite Hz, Habs. split; [lra |]. split; [| split].
  - unfold SLGFault.calculate_fault_current. rewrite Hz.
    rewrite guard_total_small by (rewrite Habs; lra).
    unfold Cx.div. destruct (Cx.eq_dec (Cx.of_real 1e-10) Cx.zero) as [E | _].
    + inversion E. lra.
    + simpl.
      assert (Hq : Cx.mk ((1 * 1e-10 + 0 * 0) / Cx.norm2 (Cx.of_real 1e-10))
                         ((0 * 1e-10 - 1 * 0) / Cx.norm2 (Cx.of_real 1e-10))
                   = Cx.mk 1e10 0)
        by (apply cx_ext; unfold Cx.norm2; simpl; field).
      rewrite Hq. reflexivity.
  - unfold guard_same_direction. rewrite Habs.
    destruct (Rlt_dec 5e-11 1e-10) as [_ | N]; [| lra].
    unfold Cx.div.
    destruct (Cx.eq_dec (Cx.scale (1e-10 / 5e-11) (Cx.mk 0 5e-11)) Cx.zero)
      as [E | _].
    + inversion E. lra.
    + f_equal. apply cx_ext; unfold Cx.norm2; simpl; field.
  - intros E. inversion E. lra.
Qed.

(** ** Lines and breakers *)

(** C10: [close_line] closes the breaker and drops the fault markings, and
    leaves every other field of the line as it was. *)
Theorem close_line_frame (l : TransmissionLine.t) :
  let l' := TransmissionLine.close_line l in
  TransmissionLine.is_closed l' = true
  /\ TransmissionLine.is_faulted l' = false
  /\ TransmissionLine.fault_type l' = None
  /\ TransmissionLine.id l' = TransmissionLine.id l
  /\ TransmissionLine.from_bus l' = TransmissionLine.from_bus l
  /\ TransmissionLine.to_bus l' = TransmissionLine.to_bus l
  /\ TransmissionLine.length_km l' = TransmissionLine.length_km l
  /\ TransmissionLine.r_ohm l' = TransmissionLine.r_ohm l
  /\ TransmissionLine.x_ohm l' = TransmissionLine.x_ohm l
  /\ TransmissionLine.b_siemens l' = TransmissionLine.b_siemens l
  /\ TransmissionLine.r_pu l' = TransmissionLine.r_pu l
  /\ TransmissionLine.x_pu l' = TransmissionLine.x_pu l
  /\ TransmissionLine.b_pu l' = TransmissionLine.b_pu l
  /\ TransmissionLine.r0_pu l' = TransmissionLine.r0_pu l
  /\ TransmissionLine.x0_pu l' = TransmissionLine.x0_pu l
  /\ TransmissionLine.rating_mva l' = TransmissionLine.rating_mva l
  /\ TransmissionLine.fault_location l' = TransmissionLine.fault_location l
  /\ TransmissionLine.current_pu l' = TransmissionLine.current_pu l
  /\ TransmissionLine.power_flow_mw l' = TransmissionLine.power_flow_mw l
  /\ TransmissionLine.loading_percent l' = TransmissionLine.loading_percent l.
Proof. destruct l. cbn. repeat split. Qed.

(** ** The graph-based detector *)

Lemma abs_voltage_complex (b : Bus.t) :
  Cx.abs (Bus.voltage_complex b) = Rabs (Bus.voltage_pu b).
Proof.
  unfold Bus.voltage_complex.
  set (t := Bus.radians (Bus.angle_deg b)).
  assert (He : Cx.mul (Cx.mk 0 1) (Cx.of_real t) = Cx.mk 0 t)
    by (apply cx_ext; simpl; ring).
  rewrite He, abs_mul, abs_of_real.
  unfold Cx.abs at 1. rewrite norm2_exp_imaginary, sqrt_1. ring.
Qed.

Lemma two_terminal_location_eq (h : Heap) (line : TransmissionLine.t) :
  GraphBasedDetector._two_terminal_location h line
  = two_terminal_estimate
      (Rabs (Bus.voltage_pu (h (TransmissionLine.from_bus line))))
      (Rabs (Bus.voltage_pu (h (TransmissionLine.to_bus line)))).
Proof.
  unfold GraphBasedDetector._two_terminal_location, two_terminal_estimate.
  rewrite !abs_voltage_complex.
  set (vf := Rabs (Bus.voltage_pu (h (TransmissionLine.from_bus line)))).
  set (vt := Rabs (Bus.voltage_pu (h (TransmissionLine.to_bus line)))).
  replace (1.0 - vf) with (1 - vf) by lra.
  replace (1.0 - vt) with (1 - vt) by lra.
  replace 0.0 with 0 by lra. replace 1.0 with 1 by lra.
  reflexivity.
Qed.

(** C9 (as the code has it): when a line carries the faulted flag, the
    detector reports the first such line with a section of confidence 0.95
    and the position [drop_from / (drop_from + drop_to)] clamped to [0, 1],
    where [drop_x = 1 - |V_x|]; the estimate is 0.5 instead when
    [|V_from| + |V_to| < 1e-10] or when the sum of the two drops is below
    1e-10. *)
Theorem localize_faulted_line (h : Heap) (g : Grid.t)
    (d : GraphBasedDetector.t) (fault : Fault.t) (affected : list Z)
    (line : TransmissionLine.t) :
  find TransmissionLine.is_faulted (Dict.values (Grid.lines g)) = Some line ->
  let r := fst (GraphBasedDetector._localize_fault h g d fault affected) in
  let v_from := Rabs (Bus.voltage_pu (h (TransmissionLine.from_bus line))) in
  let v_to := Rabs (Bus.voltage_pu (h (TransmissionLine.to_bus line))) in
  GraphBasedDetector.detected r = true
  /\ GraphBasedDetector.faulted_line_id r = Some (TransmissionLine.id line)
  /\ GraphBasedDetector.estimated_position r
     = Some (two_terminal_estimate v_from v_to)
  /\ 0 <= two_terminal_estimate v_from v_to <= 1
  /\ map GraphBasedDetector.probability (GraphBasedDetector.fault_sections r)
     = [0.95]
  /\ map GraphBasedDetector.line_ids (GraphBasedDetector.fault_sections r)
     = [[TransmissionLine.id line]].
Proof.
  intros Hfind. unfold GraphBasedDetector._localize_fault. rewrite Hfind.
  cbn. rewrite two_terminal_location_eq. repeat split.
  - unfold two_terminal_estimate.
    repeat destruct (Rlt_dec _ _); try lra. apply Rmax_l.
  - unfold two_terminal_estimate.
    repeat destruct (Rlt_dec _ _); try lra.
    apply Rmax_lub; [lra | apply Rmin_l].
Qed.

Lemma sample_grid_two_bus :
  Grid.add_line Sample.heap Sample.grid_no_line Sample.line1
  = Return Sample.grid_two_bus tt.
Proof. reflexivity. Qed.

Lemma sample_faulted_line :
  find TransmissionLine.is_faulted (Dict.values (Grid.lines Sample.grid_faulted))
  = Some (TransmissionLine.apply_fault Sample.line1 SLG 0.3).
Proof. reflexivity. Qed.

(** C9 (as the specification words it) fails: with the from-bus at 0.98 pu
    and the to-bus at 1.05 pu the drops are 0.02 and -0.05; not both are
    below 1e-10, so the worded estimate is the clamped quotient 0, but the
    detector reports 0.5 because the sum of the drops is below 1e-10. *)
Lemma two_terminal_fallback_refuted :
  GraphBasedDetector.estimated_position
    (fst (GraphBasedDetector._localize_fault Sample.heap_uneven
            Sample.grid_faulted Sample.detector Sample.slg_fault []))
  = Some 0.5
  /\ two_terminal_estimate_spec (Rabs 0.98) (Rabs 1.05) = 0
  /\ 0.5 <> 0.
Proof.
  assert (H98 : Rabs 0.98 = 0.98) by (apply Rabs_right; lra).
  assert (H105 : Rabs 1.05 = 1.05) by (apply Rabs_right; lra).
  split; [| split].
  - unfold GraphBasedDetector._localize_fault.
    rewrite sample_faulted_line. cbn [fst GraphBasedDetector.estimated_position].
    rewrite two_terminal_location_eq. cbn.
    rewrite H98, H105. unfold two_terminal_estimate.
    destruct (Rlt_dec (0.98 + 1.05) 1e-10) as [A | _]; [lra |].
    destruct (Rlt_dec (1 - 0.98 + (1 - 1.05)) 1e-10) as [_ | B]; [| lra].
    reflexivity.
  - rewrite H98, H105. unfold two_terminal_estimate_spec. cbv zeta.
    destruct (Rlt_dec (1 - 0.98) 1e-10) as [A | _]; [lra |].
    destruct (Rlt_dec (1 - 1.05) 1e-10) as [_ | B]; [| lra].
    rewrite Rmin_right, Rmax_left; [reflexivity | lra |].
    assert (E : (1 - 0.98) / (1 - 0.98 + (1 - 1.05)) = - (2 / 3)) by lra.
    rewrite E. lra.
  - lra.
Qed.

Lemma localize_faulted_line_witness :
  find TransmissionLine.is_faulted (Dict.values (Grid.lines Sample.grid_faulted))
  = Some (TransmissionLine.apply_fault Sample.line1 SLG 0.3)
  /\ GraphBasedDetector.faulted_line_id
       (fst (GraphBasedDetector._localize_fault Sample.heap_uneven
               Sample.grid_faulted Sample.detector Sample.slg_fault []))
     = Some 1%Z.
Proof.
  split; [reflexivity |].
  exact (proj1 (proj2 (localize_faulted_line Sample.heap_uneven
                         Sample.grid_faulted Sample.detector Sample.slg_fault []
                         (TransmissionLine.apply_fault Sample.line1 SLG 0.3)
                         eq_refl))).
Defined.

(** ** The network model *)

(** [add_line] stores the line before it looks the endpoints up, so a
    missing endpoint is met after the line map has changed. *)
Lemma add_line_missing_from (h : Heap) (g : Grid.t) (line : TransmissionLine.t) :
  Dict.get (Grid.adjacency g) (Bus.id (h (TransmissionLine.from_bus line))) = None ->
  Grid.add_line h g line
  = Raise (Grid.set_lines g
             (Dict.set (Grid.lines g) (TransmissionLine.id line) line))
          KeyError.
Proof.
  intros Hnone. unfold Grid.add_line. cbn [Grid.adjacency Grid.set_lines].
  rewrite Hnone. reflexivity.
Qed.

Lemma dict_get_set_other {V : Type} (d : Dict.t V) (k k' : Z) (v : V) :
  k' <> k -> Dict.get (Dict.set d k v) k' = Dict.get d k'.
Proof.
  intros Hne. induction d as [| [k0 v0] d IH]; cbn.
  - destruct (Z.eqb k' k) eqn:E; [apply Z.eqb_eq in E; contradiction | reflexivity].
  - destruct (Z.eqb k k0) eqn:E; cbn.
    + apply Z.eqb_eq in E. subst k0.
      destruct (Z.eqb k' k) eqn:E'; [apply Z.eqb_eq in E'; contradiction |].
      reflexivity.
    + destruct (Z.eqb k' k0); [reflexivity | exact IH].
Qed.

(** C4 (as the code has it): adding a line one of whose endpoints has no
    entry in the adjacency index raises [KeyError] and leaves the bus map
    and the cache as they were, but the line is by then stored in the line
    map; the adjacency index is untouched when the from-bus is the missing
    one, and has gained the to-bus among the neighbours of the from-bus
    when only the to-bus is missing. *)
Theorem add_line_missing_endpoint (h : Heap) (g : Grid.t)
    (line : TransmissionLine.t) :
  Dict.get (Grid.adjacency g) (Bus.id (h (TransmissionLine.from_bus line))) = None
  \/ Dict.get (Grid.adjacency g) (Bus.id (h (TransmissionLine.to_bus line))) = None ->
  exists g',
    Grid.add_line h g line = Raise g' KeyError
    /\ Grid.buses g' = Grid.buses g
    /\ Grid.y_bus g' = Grid.y_bus g
    /\ Grid.y_bus_valid g' = Grid.y_bus_valid g
    /\ Grid.lines g' = Dict.set (Grid.lines g) (TransmissionLine.id line) line
    /\ Grid.adjacency g'
       = match Dict.get (Grid.adjacency g)
                 (Bus.id (h (TransmissionLine.from_bus line))) with
         | None => Grid.adjacency g
         | Some adj_from =>
             if Grid.mem (Bus.id (h (TransmissionLine.to_bus line))) adj_from
             then Grid.adjacency g
             else Dict.set (Grid.adjacency g)
                    (Bus.id (h (TransmissionLine.from_bus line)))
                    (adj_from ++ [Bus.id (h (TransmissionLine.to_bus line))])
         end.
Proof.
  intros Hmiss. unfold Grid.add_line.
  cbn [Grid.adjacency Grid.set_lines].
  destruct (Dict.get (Grid.adjacency g)
              (Bus.id (h (TransmissionLine.from_bus line)))) as [adj_from |] eqn:Hf.
  - destruct Hmiss as [Hm | Hto]; [discriminate |].
    assert (Hne : Bus.id (h (TransmissionLine.to_bus line))
                  <> Bus.id (h (TransmissionLine.from_bus line)))
      by (intros E; rewrite E in Hto; congruence).
    destruct (Grid.mem _ adj_from);
      cbv zeta; cbn [Grid.adjacency Grid.set_adjacency Grid.set_lines
                     Grid.name Grid.buses Grid.lines Grid.y_bus
                     Grid.y_bus_valid].
    + rewrite Hto. eexists. repeat split.
    + rewrite dict_get_set_other by exact Hne. rewrite Hto.
      eexists. repeat split.
  - eexists. repeat split.
Qed.

(** C4 (as the specification words it) fails: on a grid that holds bus 1
    only, adding the line from bus 1 to bus 2 raises [KeyError], but the
    line is then in the line map and bus 2 among the neighbours of bus 1. *)
Lemma add_line_missing_endpoint_refuted :
  Dict.contains (Grid.buses Sample.grid_one_bus) 2 = false
  /\ exists g',
       Grid.add_line Sample.heap Sample.grid_one_bus Sample.line1
       = Raise g' KeyError
       /\ Grid.lines Sample.grid_one_bus = []
       /\ Grid.lines g' = [(1%Z, Sample.line1)]
       /\ Grid.lines g' <> Grid.lines Sample.grid_one_bus
       /\ Grid.adjacency Sample.grid_one_bus = [(1%Z, [])]
       /\ Grid.adjacency g' = [(1%Z, [2%Z])]
       /\ Grid.adjacency g' <> Grid.adjacency Sample.grid_one_bus.
Proof.
  split; [reflexivity |]. eexists. split; [reflexivity |].
  repeat split; cbn; discriminate.
Qed.

Lemma add_line_missing_endpoint_witness :
  (Dict.get (Grid.adjacency Sample.grid_one_bus)
     (Bus.id (Sample.heap (TransmissionLine.from_bus Sample.line1))) = None
   \/ Dict.get (Grid.adjacency Sample.grid_one_bus)
        (Bus.id (Sample.heap (TransmissionLine.to_bus Sample.line1))) = None)
  /\ exists g',
       Grid.add_line Sample.heap Sample.grid_one_bus Sample.line1
       = Raise g' KeyError
       /\ Grid.buses g' = Grid.buses Sample.grid_one_bus.
Proof.
  split; [right; reflexivity |].
  destruct (add_line_missing_endpoint Sample.heap Sample.grid_one_bus
              Sample.line1 (or_intror eq_refl)) as [g' [Hr [Hb _]]].
  exists g'. split; [exact Hr | exact Hb].
Defined.

Lemma mutate_line_cache (g : Grid.t) (k : Z)
    (method : TransmissionLine.t -> TransmissionLine.t) :
  Grid.y_bus_valid (mutate_line g k method) = Grid.y_bus_valid g
  /\ Grid.y_bus (mutate_line g k method) = Grid.y_bus g.
Proof.
  unfold mutate_line. destruct (Grid.get_line g k); split; reflexivity.
Qed.

Lemma grid_clear_all_faults_cache (h : Heap) (g : Grid.t) :
  Grid.y_bus_valid (snd (Grid.clear_all_faults h g)) = Grid.y_bus_valid g
  /\ Grid.y_bus (snd (Grid.clear_all_faults h g)) = Grid.y_bus g.
Proof. split; reflexivity. Qed.

Lemma simulator_clear_fault_cache (w : FaultSimulator.world) (f : Fault.t) :
  Grid.y_bus_valid (FaultSimulator.grid (FaultSimulator.clear_fault w f))
  = Grid.y_bus_valid (FaultSimulator.grid w)
  /\ Grid.y_bus (FaultSimulator.grid (FaultSimulator.clear_fault w f))
     = Grid.y_bus (FaultSimulator.grid w).
Proof.
  unfold FaultSimulator.clear_fault.
  destruct (Fault.is_bus_fault (Fault.set_is_active f false)).
  - destruct (Grid.get_bus _ _); cbn;
      destruct (existsb _ _); split; reflexivity.
  - cbn. destruct (existsb _ _); cbn; apply mutate_line_cache.
Qed.

Lemma build_y_bus_cached (h : Heap) (g : Grid.t) (m : Np.cmatrix) :
  Grid.y_bus_valid g = true -> Grid.y_bus g = Some m ->
  Grid.build_y_bus h g = Return g m.
Proof. intros Hv Hm. unfold Grid.build_y_bus. rewrite Hv, Hm. reflexivity. Qed.

Lemma add_bus_invalidates (h : Heap) (g : Grid.t) (bus : BusRef) :
  Grid.y_bus_valid (Grid.add_bus h g bus) = false.
Proof. reflexivity. Qed.

Lemma add_line_invalidates (h : Heap) (g g' : Grid.t)
    (line : TransmissionLine.t) :
  Grid.add_line h g line = Return g' tt -> Grid.y_bus_valid g' = false.
Proof.
  unfold Grid.add_line. intros H.
  destruct (Dict.get _ _); [| discriminate].
  destruct (Dict.get _ _); [| discriminate].
  inversion H. reflexivity.
Qed.

Lemma sample_line1_y_pu :
  0 < Cx.re (TransmissionLine.y_pu Sample.line1).
Proof.
  unfold TransmissionLine.y_pu.
  destruct (Rgt_dec (Cx.abs (TransmissionLine.z_pu Sample.line1)) 1e-10) as [_ | N].
  - cbn. unfold_config. cbn. unfold_config. apply Rdiv_lt_0_compat; lra.
  - exfalso. apply N.
    apply Rlt_le_trans with 0.01; [lra |].
    apply abs_ge; [lra |]. cbn. unfold_config. cbn. unfold_config. lra.
Qed.

(** C2 (as the specification words it) fails: on the two-bus grid, after
    [build_y_bus] has cached the matrix, opening the line leaves the cache
    marked valid; the next [build_y_bus] returns the cached matrix, whose
    entry (0, 1) still holds the admittance of the open line, where a
    rebuild gives zero. *)
Lemma open_line_leaves_stale_cache :
  exists g1 y1,
    Grid.build_y_bus Sample.heap Sample.grid_two_bus = Return g1 y1
    /\ let g2 := mutate_line g1 1 TransmissionLine.open_line in
       Grid.get_line g2 1 = Some (TransmissionLine.open_line Sample.line1)
       /\ Grid.y_bus_valid g2 = true
       /\ Grid.build_y_bus Sample.heap g2 = Return g2 y1
       /\ Np.entry y1 0 1 <> Cx.mk 0 0
       /\ exists g3 y3,
            Grid.build_y_bus Sample.heap (Grid.invalidate_matrices g2)
            = Return g3 y3
            /\ Np.entry y3 0 1 = Cx.mk 0 0.
Proof.
  eexists. eexists. split; [reflexivity |].
  cbv zeta. split; [reflexivity |]. split; [reflexivity |].
  split; [reflexivity |]. split.
  - cbn. intros E. apply (f_equal Cx.re) in E. cbn in E.
    pose proof sample_line1_y_pu as Hy. lra.
  - eexists. eexists. split; reflexivity.
Qed.

Lemma build_sequence_networks_cached `{Numpy} (h : Heap) (g : Grid.t)
    (m : Np.cmatrix) :
  Grid.y_bus_valid g = true -> Grid.y_bus g = Some m ->
  state_of (Impedance.build_sequence_networks h g) = g.
Proof.
  intros Hv Hm. unfold Impedance.build_sequence_networks, Grid.build_z_bus.
  rewrite (build_y_bus_cached h g m Hv Hm).
  destruct (Grid.inv_regularized m (Grid.n_buses g)); [| reflexivity].
  destruct (Impedance.stamp0_lines _ _ _ _); [| reflexivity].
  destruct (Grid.inv_regularized _ _); reflexivity.
Qed.

Lemma calculate_line_fault_current_cached `{Numpy}
    (w : FaultSimulator.world) (f : Fault.t) (m : Np.cmatrix) :
  Grid.y_bus_valid (FaultSimulator.grid w) = true ->
  Grid.y_bus (FaultSimulator.grid w) = Some m ->
  FaultSimulator.grid
    (state_of (FaultSimulator._calculate_line_fault_current w f))
  = FaultSimulator.grid w.
Proof.
  intros Hv Hm. unfold FaultSimulator._calculate_line_fault_current.
  destruct (Grid.get_line _ _); [| reflexivity].
  pose proof (build_sequence_networks_cached (FaultSimulator.heap w)
                (FaultSimulator.grid w) m Hv Hm) as Hs.
  destruct (Impedance.build_sequence_networks _ _) as [g [[z0b z1b] z2b] | g e];
    cbn in Hs; subst g; [| reflexivity].
  cbn. destruct (index_of _ _); [| reflexivity].
  destruct (get_fault_model _ _ _ _ _ _) as [[[i0 i1] i2] |]; [| reflexivity].
  destruct (FaultModel.sequence_to_phase i0 i1 i2) as [[ia ib] ic].
  reflexivity.
Qed.

(** An OPEN-conductor fault injected while the cache is valid opens the line
    and leaves the cache as it was, still marked valid. *)
Lemma inject_open_fault_keeps_cache `{Numpy} (w : FaultSimulator.world)
    (line_id : Z) (position resistance : R) (new_oid : Z) (m : Np.cmatrix) :
  Grid.y_bus_valid (FaultSimulator.grid w) = true ->
  Grid.y_bus (FaultSimulator.grid w) = Some m ->
  let w' :=
    state_of (FaultSimulator.inject_line_fault w line_id OPEN position
                resistance new_oid) in
  Grid.y_bus_valid (FaultSimulator.grid w') = true
  /\ Grid.y_bus (FaultSimulator.grid w') = Some m.
Proof.
  intros Hv Hm. unfold FaultSimulator.inject_line_fault.
  destruct (Grid.get_line (FaultSimulator.grid w) line_id);
    [| cbn; split; assumption].
  cbn [FaultType_eqb].
  set (g' := mutate_line (mutate_line (FaultSimulator.grid w) line_id
                            TransmissionLine.open_line) line_id _).
  assert (Hv' : Grid.y_bus_valid g' = true).
  { unfold g'. now rewrite !(proj1 (mutate_line_cache _ _ _)). }
  assert (Hm' : Grid.y_bus g' = Some m).
  { unfold g'. now rewrite !(proj2 (mutate_line_cache _ _ _)). }
  set (f := Fault.mk _ _ _ _ _ _ _ _ _).
  pose proof (calculate_line_fault_current_cached
                (FaultSimulator.with_grid w g') f m Hv' Hm') as Hc.
  destruct (FaultSimulator._calculate_line_fault_current _ f) as [w1 [] | w1 e];
    cbn in Hc; cbn; rewrite Hc; split; assumption.
Qed.

(** ** The canonical bus ordering *)

Lemma insert_sorted_perm (k : Z) (l : list Z) :
  Permutation (k :: l) (insert_sorted k l).
Proof.
  induction l as [| x r IH]; cbn.
  - apply Permutation_refl.
  - destruct (Z.leb k x).
    + apply Permutation_refl.
    + eapply perm_trans; [apply perm_swap |]. now apply perm_skip.
Qed.

Lemma sorted_perm (l : list Z) : Permutation l (sorted l).
Proof.
  induction l as [| k r IH]; cbn.
  - apply perm_nil.
  - eapply perm_trans; [| apply insert_sorted_perm]. now apply perm_skip.
Qed.

Lemma insert_sorted_ascending (k : Z) (l : list Z) :
  StronglySorted Z.le l -> StronglySorted Z.le (insert_sorted k l).
Proof.
  induction l as [| x r IH]; cbn; intros Hs.
  - repeat constructor.
  - inversion Hs as [| ? ? Hr Hall]; subst.
    destruct (Z.leb k x) eqn:E.
    + apply Z.leb_le in E. constructor; [exact Hs |].
      constructor; [exact E |].
      eapply Forall_impl; [| exact Hall]. intros z Hz. cbn in Hz. lia.
    + apply Z.leb_gt in E. constructor; [now apply IH |].
      apply (Permutation_Forall (insert_sorted_perm k r)).
      constructor; [lia | exact Hall].
Qed.

Lemma sorted_ascending (l : list Z) : StronglySorted Z.le (sorted l).
Proof.
  induction l as [| k r IH]; cbn.
  - constructor.
  - now apply insert_sorted_ascending.
Qed.

Lemma index_of_In (k : Z) (l : list Z) :
  In k l -> exists i, index_of k l = Some i /\ (i < List.length l)%nat.
Proof.
  induction l as [| x r IH]; cbn; [contradiction |].
  intros Hin. destruct (Z.eqb k x) eqn:E.
  - exists O. split; [reflexivity | lia].
  - apply Z.eqb_neq in E. destruct Hin as [-> | Hin]; [contradiction |].
    destruct (IH Hin) as [i [Hi Hlt]]. exists (S i). rewrite Hi.
    split; [reflexivity | lia].
Qed.

Lemma index_of_sorted_key (k : Z) (l : list Z) :
  In k l -> exists i, index_of k (sorted l) = Some i.
Proof.
  intros Hin.
  destruct (index_of_In k (sorted l)) as [i [Hi _]].
  - apply (Permutation_in _ (sorted_perm l)), Hin.
  - now exists i.
Qed.

(** ** Assembly of the admittance matrix *)

Lemma entry_isub (m : Np.cmatrix) (i j : nat) (v : C) (a b : nat) :
  Np.entry (Np.isub m i j v) a b
  = Cx.add (Np.entry m a b)
      (if Nat.eqb a i && Nat.eqb b j then Cx.neg v else Cx.zero).
Proof.
  unfold Np.isub, Np.upd. cbn.
  destruct (Nat.eqb a i && Nat.eqb b j) eqn:E.
  - apply andb_prop in E as [Ea Eb].
    apply Nat.eqb_eq in Ea, Eb. subst. apply cx_ext; cbn; ring.
  - apply cx_ext; cbn; ring.
Qed.

Lemma entry_iadd (m : Np.cmatrix) (i j : nat) (v : C) (a b : nat) :
  Np.entry (Np.iadd m i j v) a b
  = Cx.add (Np.entry m a b)
      (if Nat.eqb a i && Nat.eqb b j then v else Cx.zero).
Proof.
  unfold Np.iadd, Np.upd. cbn.
  destruct (Nat.eqb a i && Nat.eqb b j) eqn:E.
  - apply andb_prop in E as [Ea Eb].
    apply Nat.eqb_eq in Ea, Eb. subst. reflexivity.
  - apply cx_ext; cbn; ring.
Qed.

Lemma add_assoc (a b c : C) : Cx.add (Cx.add a b) c = Cx.add a (Cx.add b c).
Proof. apply cx_ext; cbn; ring. Qed.

Lemma add_zero_r (a : C) : Cx.add a Cx.zero = a.
Proof. apply cx_ext; cbn; ring. Qed.

Lemma stamp_line_entry (h : Heap) (bus_ids : list Z) (y y' : Np.cmatrix)
    (line : TransmissionLine.t) :
  Grid.stamp_line h (fun k => index_of k bus_ids) y line = Some y' ->
  Np.shape y' = Np.shape y
  /\ forall a b,
       Np.entry y' a b
       = Cx.add (Np.entry y a b) (line_contribution h bus_ids line a b).
Proof.
  unfold Grid.stamp_line, line_contribution.
  destruct (TransmissionLine.is_closed line); cbn.
  - destruct (index_of _ bus_ids) as [i |]; cbn; [| discriminate].
    destruct (index_of _ bus_ids) as [j |]; cbn; [| discriminate].
    intros E. inversion E. subst y'. clear E. split; [reflexivity |].
    intros a b. rewrite !entry_iadd, !entry_isub. unfold pi_stamp.
    rewrite !add_assoc. reflexivity.
  - intros E. inversion E. subst y'. split; [reflexivity |].
    intros a b. now rewrite add_zero_r.
Qed.

Lemma stamp_line_defined (h : Heap) (keys : list Z) (y : Np.cmatrix)
    (line : TransmissionLine.t) :
  (TransmissionLine.is_closed line = true ->
   In (Bus.id (h (TransmissionLine.from_bus line))) keys
   /\ In (Bus.id (h (TransmissionLine.to_bus line))) keys) ->
  exists y', Grid.stamp_line h (fun k => index_of k (sorted keys)) y line = Some y'.
Proof.
  intros Hreg. unfold Grid.stamp_line.
  destruct (TransmissionLine.is_closed line); cbn.
  - destruct (Hreg eq_refl) as [Hf Ht].
    destruct (index_of_sorted_key _ _ Hf) as [i ->].
    destruct (index_of_sorted_key _ _ Ht) as [j ->].
    cbn. eexists. reflexivity.
  - eexists. reflexivity.
Qed.

Lemma stamp_lines_sum (h : Heap) (keys : list Z)
    (ls : list TransmissionLine.t) :
  (forall line, In line ls ->
     TransmissionLine.is_closed line = true ->
     In (Bus.id (h (TransmissionLine.from_bus line))) keys
     /\ In (Bus.id (h (TransmissionLine.to_bus line))) keys) ->
  forall y,
  exists y',
    Grid.stamp_lines h (fun k => index_of k (sorted keys)) y ls = Some y'
    /\ Np.shape y' = Np.shape y
    /\ forall a b,
         Np.entry y' a b
         = fold_left
             (fun acc line =>
                Cx.add acc (line_contribution h (sorted keys) line a b))
             ls (Np.entry y a b).
Proof.
  induction ls as [| line rest IH]; intros Hreg y.
  - exists y. repeat split.
  - destruct (stamp_line_defined h keys y line) as [y1 Hy1].
    { intros Hc. apply Hreg; [now left | exact Hc]. }
    destruct (stamp_line_entry h (sorted keys) y y1 line Hy1) as [Hshape Hentry].
    destruct (IH (fun l Hin => Hreg l (or_intror Hin)) y1)
      as [y' [Hy' [Hshape' Hentry']]].
    exists y'. cbn. rewrite Hy1. cbn. split; [exact Hy' |].
    split; [congruence |].
    intros a b. rewrite Hentry', Hentry. reflexivity.
Qed.

(** The series admittance of a line: the reciprocal of [r + j x] when its
    magnitude exceeds 1e-10, and zero otherwise. *)
Lemma y_pu_cases (line : TransmissionLine.t) :
  (Cx.abs (TransmissionLine.z_pu line) > 1e-10 ->
   Cx.div (Cx.of_real 1.0) (TransmissionLine.z_pu line)
   = Some (TransmissionLine.y_pu line))
  /\ (~ Cx.abs (TransmissionLine.z_pu line) > 1e-10 ->
      TransmissionLine.y_pu line = Cx.mk 0 0).
Proof.
  unfold TransmissionLine.y_pu.
  destruct (Rgt_dec (Cx.abs (TransmissionLine.z_pu line)) 1e-10) as [Hb | Hs];
    split; intros H; try contradiction; try reflexivity.
  unfold Cx.div.
  destruct (Cx.eq_dec (TransmissionLine.z_pu line) Cx.zero) as [E | _].
  - rewrite E, abs_zero in Hb. lra.
  - f_equal. apply cx_ext; cbn; replace 1.0 with 1 by lra; unfold Rdiv; ring.
Qed.

(** C1 (as the code has it): when [build_y_bus] rebuilds the matrix, for a
    grid whose closed lines end on buses of the grid, the bus index is the
    ascending order of the bus keys and every entry of the result is the
    sum, over the lines, of the PI-model contribution of each closed line:
    [-y] at [Y[i,j]] and [Y[j,i]], [y + j b/2] at [Y[i,i]] and [Y[j,j]],
    with [y = 1/(r + j x)] when [|r + j x| > 1e-10] and [y = 0] otherwise;
    an open line contributes nothing. *)
Theorem build_y_bus_assembles (h : Heap) (g : Grid.t) :
  Grid.y_bus_valid g = false \/ Grid.y_bus g = None ->
  closed_lines_registered h g ->
  let bus_ids := sorted (Dict.keys (Grid.buses g)) in
  StronglySorted Z.le bus_ids
  /\ Permutation (Dict.keys (Grid.buses g)) bus_ids
  /\ (exists y g',
        Grid.build_y_bus h g = Return g' y
        /\ Grid.y_bus g' = Some y
        /\ Grid.y_bus_valid g' = true
        /\ Np.shape y = Grid.n_buses g
        /\ forall a b, Np.entry y a b = y_bus_sum h g a b)
  /\ (forall line a b,
        TransmissionLine.is_closed line = false ->
        line_contribution h bus_ids line a b = Cx.zero)
  /\ (forall line,
        (Cx.abs (TransmissionLine.z_pu line) > 1e-10 ->
         Cx.div (Cx.of_real 1.0) (TransmissionLine.z_pu line)
         = Some (TransmissionLine.y_pu line))
        /\ (~ Cx.abs (TransmissionLine.z_pu line) > 1e-10 ->
            TransmissionLine.y_pu line = Cx.mk 0 0)).
Proof.
  intros Hcache Hreg bus_ids.
  split; [apply sorted_ascending |].
  split; [apply sorted_perm |].
  split; [| split].
  - destruct (stamp_lines_sum h (Dict.keys (Grid.buses g))
                (Dict.values (Grid.lines g)) Hreg (Np.zeros (Grid.n_buses g)))
      as [y [Hy [Hshape Hentry]]].
    exists y. eexists. unfold Grid.build_y_bus.
    assert (Hmiss :
      match Grid.y_bus_valid g, Grid.y_bus g with
      | true, Some _ => False
      | _, _ => True
      end).
    { destruct Hcache as [-> | ->]; [exact I |].
      destruct (Grid.y_bus_valid g); exact I. }
    destruct (Grid.y_bus_valid g), (Grid.y_bus g); try contradiction;
      rewrite Hy; (split; [reflexivity |]); cbn; repeat split;
      try exact Hshape; exact Hentry.
  - intros line a b Hopen. unfold line_contribution. now rewrite Hopen.
  - apply y_pu_cases.
Qed.

Lemma sample_grid_registered :
  closed_lines_registered Sample.heap Sample.grid_two_bus.
Proof.
  intros line Hin _. cbn in Hin. destruct Hin as [<- | []].
  cbn. split; [left | right; left]; reflexivity.
Qed.

Lemma build_y_bus_assembles_witness :
  (Grid.y_bus_valid Sample.grid_two_bus = false
   \/ Grid.y_bus Sample.grid_two_bus = None)
  /\ closed_lines_registered Sample.heap Sample.grid_two_bus
  /\ exists y g',
       Grid.build_y_bus Sample.heap Sample.grid_two_bus = Return g' y
       /\ Grid.y_bus g' = Some y
       /\ Grid.y_bus_valid g' = true
       /\ Np.shape y = Grid.n_buses Sample.grid_two_bus
       /\ forall a b, Np.entry y a b = y_bus_sum Sample.heap Sample.grid_two_bus a b.
Proof.
  split; [left; reflexivity |].
  split; [exact sample_grid_registered |].
  exact (proj1 (proj2 (proj2
           (build_y_bus_assembles Sample.heap Sample.grid_two_bus
              (or_introl eq_refl) sample_grid_registered)))).
Defined.

Lemma sample_line_tiny_y_pu :
  TransmissionLine.y_pu Sample.line_tiny = Cx.mk 0 0.
Proof.
  apply y_pu_cases. intros Hgt.
  assert (Hlt : Cx.abs (TransmissionLine.z_pu Sample.line_tiny) < 1e-10).
  { apply abs_lt_iff; [lra |]. cbn. unfold_config. cbn. unfold_config. lra. }
  lra.
Qed.

(** C1 (as the specification words it) fails: a closed line of series
    impedance 1e-11 pu has [1/(r + j x) = 1e11], but its admittance is taken
    as zero and the off-diagonal entry of the matrix stays zero. *)
Lemma tiny_impedance_refuted :
  exists g y,
    Grid.build_y_bus Sample.heap Sample.grid_tiny = Return g y
    /\ TransmissionLine.is_closed Sample.line_tiny = true
    /\ Cx.div (Cx.of_real 1) (TransmissionLine.z_pu Sample.line_tiny)
       = Some (Cx.mk 1e11 0)
    /\ Np.entry y 0 1 = Cx.mk 0 0
    /\ Cx.mk 0 0 <> Cx.neg (Cx.mk 1e11 0).
Proof.
  eexists. eexists. split; [reflexivity |]. split; [reflexivity |].
  split; [| split].
  - unfold Cx.div.
    destruct (Cx.eq_dec (TransmissionLine.z_pu Sample.line_tiny) Cx.zero)
      as [E | _].
    + apply (f_equal Cx.re) in E. cbn in E. unfold_config. lra.
    + f_equal. apply cx_ext; cbn; unfold_config; cbn; unfold_config; lra.
  - cbn. rewrite sample_line_tiny_y_pu. apply cx_ext; cbn; lra.
  - intros E. apply (f_equal Cx.re) in E. cbn in E. lra.
Qed.

(** ** The cache of the admittance matrix *)

Lemma stamp_lines_entries (h : Heap) (bus_ids : list Z)
    (ls : list TransmissionLine.t) :
  forall y y',
    Grid.stamp_lines h (fun k => index_of k bus_ids) y ls = Some y' ->
    forall a b,
      Np.entry y' a b
      = fold_left
          (fun acc line => Cx.add acc (line_contribution h bus_ids line a b))
          ls (Np.entry y a b).
Proof.
  induction ls as [| line rest IH]; intros y y' Hs a b; cbn in Hs |- *.
  - now inversion Hs.
  - destruct (Grid.stamp_line h _ y line) as [y1 |] eqn:H1; [| discriminate].
    cbn in Hs. rewrite (IH y1 y' Hs a b).
    now rewrite (proj2 (stamp_line_entry h bus_ids y y1 line H1) a b).
Qed.

(** A grid marked invalid is rebuilt from its lines as they are. *)
Lemma build_y_bus_rebuilds (h : Heap) (g : Grid.t) :
  Grid.y_bus_valid g = false ->
  match Grid.build_y_bus h g with
  | Return g' y =>
      Grid.y_bus_valid g' = true /\ Grid.y_bus g' = Some y
      /\ forall a b, Np.entry y a b = y_bus_sum h g a b
  | Raise _ e => e = KeyError
  end.
Proof.
  intros Hv. unfold Grid.build_y_bus. rewrite Hv.
  destruct (Grid.stamp_lines _ _ _ _) as [y |] eqn:Hs; [| reflexivity].
  split; [reflexivity |]. split; [reflexivity |].
  intros a b. exact (stamp_lines_entries _ _ _ _ _ Hs a b).
Qed.

(** C2 (as the code has it): [add_bus], a successful [add_line] and
    [invalidate_matrices] leave the cached matrix marked invalid, and
    [build_y_bus] on a grid so marked rebuilds the matrix from the lines as
    they then are.  [open_line] and [close_line], which are methods of the
    line, change neither the flag nor the cached matrix: the rebuild after a
    breaker toggle takes a call of [invalidate_matrices]. *)
Theorem cache_flag_after_mutations (h : Heap) (g : Grid.t) (bus : BusRef)
    (line : TransmissionLine.t) (k : Z) :
  Grid.y_bus_valid (Grid.add_bus h g bus) = false
  /\ match Grid.add_line h g line with
     | Return g' _ => Grid.y_bus_valid g' = false
     | Raise g' _ => Grid.y_bus_valid g' = Grid.y_bus_valid g
     end
  /\ Grid.y_bus_valid (Grid.invalidate_matrices g) = false
  /\ match Grid.build_y_bus h (Grid.invalidate_matrices g) with
     | Return g' y =>
         Grid.y_bus_valid g' = true /\ Grid.y_bus g' = Some y
         /\ forall a b, Np.entry y a b = y_bus_sum h g a b
     | Raise _ e => e = KeyError
     end
  /\ Grid.y_bus_valid (mutate_line g k TransmissionLine.open_line)
     = Grid.y_bus_valid g
  /\ Grid.y_bus (mutate_line g k TransmissionLine.open_line) = Grid.y_bus g
  /\ Grid.y_bus_valid (mutate_line g k TransmissionLine.close_line)
     = Grid.y_bus_valid g
  /\ Grid.y_bus (mutate_line g k TransmissionLine.close_line) = Grid.y_bus g.
Proof.
  split; [reflexivity |]. split.
  { unfold Grid.add_line. cbn [Grid.adjacency Grid.set_lines].
    destruct (Dict.get _ _) as [adj_from |]; [| reflexivity].
    destruct (Grid.mem _ adj_from); cbv zeta;
      destruct (Dict.get _ _); reflexivity. }
  split; [reflexivity |]. split.
  { exact (build_y_bus_rebuilds h (Grid.invalidate_matrices g) eq_refl). }
  pose proof (mutate_line_cache g k TransmissionLine.open_line) as [Ho1 Ho2].
  pose proof (mutate_line_cache g k TransmissionLine.close_line) as [Hc1 Hc2].
  repeat split; assumption.
Qed.

(** ** Dictionaries *)

Lemma dict_get_set_same {V : Type} (d : Dict.t V) (k : Z) (v : V) :
  Dict.get (Dict.set d k v) k = Some v.
Proof.
  induction d as [| [k' v'] d IH]; cbn.
  - now rewrite Z.eqb_refl.
  - destruct (Z.eqb k k') eqn:E; cbn; rewrite ?Z.eqb_refl, ?E; auto.
Qed.

Lemma dict_get_In {V : Type} (d : Dict.t V) (k : Z) (v : V) :
  Dict.get d k = Some v -> In v (Dict.values d).
Proof.
  induction d as [| [k' v'] d IH]; cbn; [discriminate |].
  destruct (Z.eqb k k'); intros H.
  - inversion H. now left.
  - right. now apply IH.
Qed.

Lemma dict_values_set {V : Type} (d : Dict.t V) (k : Z) (v v' : V) :
  In v' (Dict.values (Dict.set d k v)) -> v' = v \/ In v' (Dict.values d).
Proof.
  induction d as [| [k0 v0] d IH]; cbn.
  - intros [<- | []]. now left.
  - destruct (Z.eqb k k0); cbn.
    + intros [<- | H]; [now left | right; now right].
    + intros [<- | H]; [right; now left |].
      destruct (IH H) as [-> | Hin]; [now left | right; now right].
Qed.

(** ** Fault injection *)

Lemma fault_model_defined (ft : FaultType) (v_f z0 z1 z2 : C) (z_f : R) :
  exists i0 i1 i2, get_fault_model ft v_f z0 z1 z2 z_f = Some (i0, i1, i2).
Proof.
  destruct ft; unfold get_fault_model.
  - destruct (slg_defined v_f z0 z1 z2 z_f) as [i [_ Hc]].
    exists i, i, i. exact Hc.
  - unfold LLFault.calculate_fault_current.
    destruct (div_guard_total v_f (Cx.add (Cx.add z1 z2) (Cx.of_real z_f)))
      as [i Hi].
    rewrite Hi. cbn. eexists _, _, _. reflexivity.
  - destruct (dlg_defined v_f z0 z1 z2 z_f) as [_ [i0 [i1 [i2 [_ [Hc _]]]]]].
    exists i0, i1, i2. exact Hc.
  - destruct (three_phase_defined v_f z0 z1 z2 z_f) as [i [_ Hc]].
    eexists _, _, _. exact Hc.
  - eexists _, _, _. reflexivity.
Qed.

Lemma clamp_bounds (p : R) : 0 <= Rmax 0.0 (Rmin 1.0 p) <= 1.
Proof.
  split.
  - eapply Rle_trans; [| apply Rmax_l]. lra.
  - apply Rmax_lub; [lra |]. eapply Rle_trans; [apply Rmin_l | lra].
Qed.

Lemma clamp_idempotent (p : R) :
  Rmax 0.0 (Rmin 1.0 (Rmax 0.0 (Rmin 1.0 p))) = Rmax 0.0 (Rmin 1.0 p).
Proof.
  destruct (clamp_bounds p) as [H0 H1].
  rewrite (Rmin_right 1.0 (Rmax 0.0 (Rmin 1.0 p))) by lra.
  apply Rmax_right. lra.
Qed.

Lemma build_y_bus_returns (h : Heap) (g : Grid.t) :
  closed_lines_registered h g ->
  exists y g',
    Grid.build_y_bus h g = Return g' y
    /\ Grid.buses g' = Grid.buses g /\ Grid.lines g' = Grid.lines g.
Proof.
  intros Hreg.
  destruct (stamp_lines_sum h (Dict.keys (Grid.buses g))
              (Dict.values (Grid.lines g)) Hreg (Np.zeros (Grid.n_buses g)))
    as [y [Hy _]].
  unfold Grid.build_y_bus.
  destruct (Grid.y_bus_valid g), (Grid.y_bus g) as [m |];
    try (rewrite Hy; exists y; eexists; repeat split).
  exists m, g. repeat split.
Qed.

Lemma stamp0_lines_defined (h : Heap) (keys : list Z)
    (ls : list TransmissionLine.t) :
  (forall line, In line ls ->
     TransmissionLine.is_closed line = true ->
     In (Bus.id (h (TransmissionLine.from_bus line))) keys
     /\ In (Bus.id (h (TransmissionLine.to_bus line))) keys) ->
  forall y0,
  exists y0',
    Impedance.stamp0_lines h (fun k => index_of k (sorted keys)) y0 ls = Some y0'.
Proof.
  induction ls as [| line rest IH]; intros Hreg y0.
  - now exists y0.
  - cbn. unfold Impedance.stamp0_line.
    destruct (TransmissionLine.is_closed line) eqn:Hc; cbn.
    + destruct (Hreg line (or_introl eq_refl) Hc) as [Hf Ht].
      destruct (index_of_sorted_key _ _ Hf) as [i ->].
      destruct (index_of_sorted_key _ _ Ht) as [j ->].
      cbn. apply IH. intros l Hin. apply Hreg. now right.
    + apply IH. intros l Hin. apply Hreg. now right.
Qed.

Lemma build_sequence_networks_returns `{Numpy} (h : Heap) (g : Grid.t) :
  closed_lines_registered h g ->
  (forall m, exists z, Grid.inv_regularized m (Grid.n_buses g) = inl z) ->
  exists zs g',
    Impedance.build_sequence_networks h g = Return g' zs
    /\ Grid.buses g' = Grid.buses g /\ Grid.lines g' = Grid.lines g.
Proof.
  intros Hreg Hinv.
  destruct (build_y_bus_returns h g Hreg) as [y [g' [Hy [Hb Hl]]]].
  assert (Hn : Grid.n_buses g' = Grid.n_buses g)
    by (unfold Grid.n_buses; now rewrite Hb).
  unfold Impedance.build_sequence_networks, Grid.build_z_bus.
  rewrite Hy, Hn. destruct (Hinv y) as [z1 ->].
  rewrite Hn, Hb, Hl.
  destruct (stamp0_lines_defined h (Dict.keys (Grid.buses g))
              (Dict.values (Grid.lines g)) Hreg (Np.zeros (Grid.n_buses g)))
    as [y0 ->].
  destruct (Hinv y0) as [z0 ->].
  eexists. exists g'. repeat split; assumption.
Qed.

Lemma mutate_line_get (g : Grid.t) (k : Z) (l : TransmissionLine.t)
    (method : TransmissionLine.t -> TransmissionLine.t) :
  Grid.get_line g k = Some l ->
  Grid.get_line (mutate_line g k method) k = Some (method l)
  /\ Grid.buses (mutate_line g k method) = Grid.buses g.
Proof.
  intros Hget. unfold mutate_line. rewrite Hget. split; [| reflexivity].
  unfold Grid.get_line. cbn. apply dict_get_set_same.
Qed.

Lemma mutate_line_registered (h : Heap) (g : Grid.t) (k : Z)
    (l : TransmissionLine.t)
    (method : TransmissionLine.t -> TransmissionLine.t) :
  closed_lines_registered h g ->
  Grid.get_line g k = Some l ->
  TransmissionLine.from_bus (method l) = TransmissionLine.from_bus l ->
  TransmissionLine.to_bus (method l) = TransmissionLine.to_bus l ->
  (TransmissionLine.is_closed (method l) = true ->
   TransmissionLine.is_closed l = true) ->
  closed_lines_registered h (mutate_line g k method).
Proof.
  intros Hreg Hget Hfrom Hto Hclosed line Hin Hc.
  unfold mutate_line in Hin |- *. rewrite Hget in Hin |- *. cbn in Hin |- *.
  destruct (dict_values_set _ _ _ _ Hin) as [-> | Hold].
  - rewrite Hfrom, Hto. apply Hreg; [| now apply Hclosed].
    now apply (dict_get_In _ k).
  - now apply Hreg.
Qed.

Lemma build_y_bus_frame (h : Heap) (g : Grid.t) :
  Grid.buses (state_of (Grid.build_y_bus h g)) = Grid.buses g
  /\ Grid.lines (state_of (Grid.build_y_bus h g)) = Grid.lines g.
Proof.
  unfold Grid.build_y_bus.
  destruct (Grid.y_bus_valid g), (Grid.y_bus g);
    try destruct (Grid.stamp_lines _ _ _ _); split; reflexivity.
Qed.

Lemma build_sequence_networks_frame `{Numpy} (h : Heap) (g : Grid.t) :
  Grid.buses (state_of (Impedance.build_sequence_networks h g)) = Grid.buses g
  /\ Grid.lines (state_of (Impedance.build_sequence_networks h g))
     = Grid.lines g.
Proof.
  pose proof (build_y_bus_frame h g) as Hy.
  unfold Impedance.build_sequence_networks, Grid.build_z_bus.
  destruct (Grid.build_y_bus h g) as [g1 y | g1 e]; cbn in Hy; [| exact Hy].
  destruct (Grid.inv_regularized y (Grid.n_buses g1)); [| exact Hy].
  destruct (Impedance.stamp0_lines _ _ _ _); [| exact Hy].
  destruct (Grid.inv_regularized _ _); exact Hy.
Qed.

Lemma calculate_line_fault_current_returns `{Numpy}
    (w : FaultSimulator.world) (fault : Fault.t) (line : TransmissionLine.t)
    (g' : Grid.t) (zs : Np.cmatrix * Np.cmatrix * Np.cmatrix) :
  Grid.get_line (FaultSimulator.grid w) (Fault.element_id fault) = Some line ->
  In (Bus.id (FaultSimulator.heap w (TransmissionLine.from_bus line)))
     (Dict.keys (Grid.buses (FaultSimulator.grid w))) ->
  Impedance.build_sequence_networks (FaultSimulator.heap w)
    (FaultSimulator.grid w) = Return g' zs ->
  exists currents,
    FaultSimulator._calculate_line_fault_current w fault
    = Return (FaultSimulator.mkw (FaultSimulator.heap w) g'
                (FaultSimulator.mk
                   (FaultSimulator.active_faults (FaultSimulator.self w))
                   (Dict.set (FaultSimulator.fault_currents (FaultSimulator.self w))
                      (Fault.oid fault) currents)))
             tt
    /\ Grid.lines g' = Grid.lines (FaultSimulator.grid w).
Proof.
  intros Hget Hfrom Hs.
  pose proof (build_sequence_networks_frame (FaultSimulator.heap w)
                (FaultSimulator.grid w)) as [Hb Hl].
  rewrite Hs in Hb, Hl. cbn in Hb, Hl.
  unfold FaultSimulator._calculate_line_fault_current. rewrite Hget, Hs.
  destruct zs as [[z0b z1b] z2b].
  cbn [FaultSimulator.with_grid FaultSimulator.grid
       FaultSimulator.heap FaultSimulator.self].
  rewrite Hb. destruct (index_of_sorted_key _ _ Hfrom) as [from_idx ->].
  match goal with
  | |- context [get_fault_model ?ft ?v ?a ?b ?c ?zf] =>
      destruct (fault_model_defined ft v a b c zf) as [i0 [i1 [i2 ->]]]
  end.
  destruct (FaultModel.sequence_to_phase i0 i1 i2) as [[ia ib] ic].
  eexists. split; [reflexivity | exact Hl].
Qed.

(** C8 (as the code has it): for an existing line whose from-bus is a bus
    of the grid, and when the sequence networks of the marked grid can be
    built (no inversion fails), [inject_line_fault] clamps the position to
    [0, 1], opens the line if the kind is OPEN, marks the line faulted at
    the clamped position whatever the kind, creates the [Fault] record,
    appends it to the active faults and stores phase currents for it. *)
Theorem inject_line_fault_records `{Numpy} (w : FaultSimulator.world)
    (line_id : Z) (ft : FaultType) (position resistance : R) (new_oid : Z)
    (line0 : TransmissionLine.t) (g' : Grid.t)
    (zs : Np.cmatrix * Np.cmatrix * Np.cmatrix) :
  Grid.get_line (FaultSimulator.grid w) line_id = Some line0 ->
  In (Bus.id (FaultSimulator.heap w (TransmissionLine.from_bus line0)))
     (Dict.keys (Grid.buses (FaultSimulator.grid w))) ->
  Impedance.build_sequence_networks (FaultSimulator.heap w)
    (marked_grid (FaultSimulator.grid w) line_id ft
       (Rmax 0.0 (Rmin 1.0 position)))
  = Return g' zs ->
  let alpha := Rmax 0.0 (Rmin 1.0 position) in
  let fault :=
    Fault.mk new_oid ft AtLine line_id alpha resistance true false None in
  0 <= alpha <= 1
  /\ exists w' currents line',
       FaultSimulator.inject_line_fault w line_id ft position resistance new_oid
       = Return w' (Some fault)
       /\ FaultSimulator.active_faults (FaultSimulator.self w')
          = FaultSimulator.active_faults (FaultSimulator.self w) ++ [fault]
       /\ FaultSimulator.get_fault_current (FaultSimulator.self w') fault
          = Some currents
       /\ Grid.get_line (FaultSimulator.grid w') line_id = Some line'
       /\ TransmissionLine.is_faulted line' = true
       /\ TransmissionLine.fault_type line' = Some ft
       /\ TransmissionLine.fault_location line' = alpha
       /\ TransmissionLine.is_closed line'
          = (if FaultType_eqb ft OPEN then false
             else TransmissionLine.is_closed line0).
Proof.
  intros Hget Hfrom Hseq alpha fault.
  split; [apply clamp_bounds |].
  unfold FaultSimulator.inject_line_fault. rewrite Hget.
  fold alpha. fold fault. fold alpha in Hseq.
  change (mutate_line
            (if FaultType_eqb ft OPEN
             then mutate_line (FaultSimulator.grid w) line_id
                    TransmissionLine.open_line
             else FaultSimulator.grid w)
            line_id (fun line => TransmissionLine.apply_fault line ft alpha))
    with (marked_grid (FaultSimulator.grid w) line_id ft alpha).
  set (l1 := if FaultType_eqb ft OPEN
             then TransmissionLine.open_line line0 else line0).
  set (method := fun line => TransmissionLine.apply_fault line ft alpha).
  assert (H2 : Grid.get_line (marked_grid (FaultSimulator.grid w) line_id ft alpha)
                 line_id = Some (method l1)
               /\ Grid.buses (marked_grid (FaultSimulator.grid w) line_id ft alpha)
                  = Grid.buses (FaultSimulator.grid w)).
  { unfold marked_grid, l1. destruct (FaultType_eqb ft OPEN).
    - destruct (mutate_line_get _ _ _ TransmissionLine.open_line Hget)
        as [Hg Hb].
      destruct (mutate_line_get _ _ _ method Hg) as [Hg2 Hb2].
      split; [exact Hg2 | exact (eq_trans Hb2 Hb)].
    - apply (mutate_line_get _ _ _ method Hget). }
  destruct H2 as [Hget2 Hb2].
  assert (Hfrom2 :
    In (Bus.id (FaultSimulator.heap w (TransmissionLine.from_bus (method l1))))
       (Dict.keys (Grid.buses
                     (marked_grid (FaultSimulator.grid w) line_id ft alpha)))).
  { rewrite Hb2. unfold l1. now destruct (FaultType_eqb ft OPEN). }
  destruct (calculate_line_fault_current_returns
              (FaultSimulator.with_grid w
                 (marked_grid (FaultSimulator.grid w) line_id ft alpha))
              fault (method l1) g' zs Hget2 Hfrom2 Hseq)
    as [currents [Hcalc Hl]].
  rewrite Hcalc. eexists. exists currents, (method l1).
  split; [reflexivity |]. cbn.
  split; [reflexivity |].
  split; [apply dict_get_set_same |].
  split; [unfold Grid.get_line in *; cbn in Hl; now rewrite Hl |].
  split; [reflexivity |]. split; [reflexivity |].
  split; [apply clamp_idempotent |].
  unfold l1. now destruct (FaultType_eqb ft OPEN).
Qed.

(** ** The power-flow solver *)

Lemma sum_range_zero (n : nat) (f : nat -> R) :
  (forall k, f k = 0) -> PowerFlow.sum_range n f = 0.
Proof.
  intros Hf. unfold PowerFlow.sum_range.
  assert (G : forall l acc,
             fold_left (fun acc k => acc + f k) l acc = acc).
  { induction l as [| k l IH]; intros acc; cbn; [reflexivity |].
    rewrite IH, Hf. ring. }
  apply G.
Qed.

(** Without admittance no power is injected anywhere, whatever the
    voltages. *)
Lemma calculate_power_zero (n : nat) (y_bus : Np.cmatrix)
    (v_mag v_ang : nat -> R) :
  (forall i j, Np.entry y_bus i j = Cx.mk 0 0) ->
  forall i,
    fst (PowerFlow._calculate_power n y_bus v_mag v_ang) i = 0
    /\ snd (PowerFlow._calculate_power n y_bus v_mag v_ang) i = 0.
Proof.
  intros Hy i. cbn. split; apply sum_range_zero; intros j; rewrite Hy; cbn;
    ring.
Qed.

(** One turn of the loop. *)
Lemma newton_raphson_step `{Numpy} (fuel iteration : nat) (mm : option R)
    (n : nat) (y_bus : Np.cmatrix) (p_spec q_spec : nat -> R)
    (non_slack pq_indices : list nat) (tol : R) (v_mag v_ang : nat -> R) :
  PowerFlow.newton_raphson (S fuel) iteration mm n y_bus p_spec q_spec
    non_slack pq_indices tol v_mag v_ang
  = let p_calc := fst (PowerFlow._calculate_power n y_bus v_mag v_ang) in
    let q_calc := snd (PowerFlow._calculate_power n y_bus v_mag v_ang) in
    let mismatch :=
      map (fun i => p_spec i - p_calc i) non_slack
      ++ map (fun i => q_spec i - q_calc i) pq_indices in
    match PowerFlow.max_abs mismatch with
    | None => PowerFlow.Aborted ValueError mm
    | Some m =>
        if Rlt_dec m tol then PowerFlow.Converged iteration m v_mag v_ang
        else
          match PowerFlow.solve_corrections
                  (PowerFlow._build_jacobian n y_bus v_mag v_ang non_slack
                     pq_indices) mismatch with
          | None => PowerFlow.Aborted LinAlgError (Some m)
          | Some corrections =>
              PowerFlow.newton_raphson fuel (S iteration) (Some m) n y_bus
                p_spec q_spec non_slack pq_indices tol
                (PowerFlow.apply_corrections (fun d v => d * v) pq_indices
                   (skipn (List.length non_slack) corrections) v_mag)
                (PowerFlow.apply_corrections (fun d _ => d) non_slack
                   (firstn (List.length non_slack) corrections) v_ang)
          end
    end.
Proof. reflexivity. Qed.

Lemma mismatch_zero_y_bus (n : nat) (y_bus : Np.cmatrix)
    (p_spec q_spec : nat -> R) (non_slack pq_indices : list nat)
    (v_mag v_ang : nat -> R) :
  (forall i j, Np.entry y_bus i j = Cx.mk 0 0) ->
  map (fun i => p_spec i
                - fst (PowerFlow._calculate_power n y_bus v_mag v_ang) i)
      non_slack
  ++ map (fun i => q_spec i
                   - snd (PowerFlow._calculate_power n y_bus v_mag v_ang) i)
         pq_indices
  = map p_spec non_slack ++ map q_spec pq_indices.
Proof.
  intros Hy. f_equal; apply map_ext; intros i;
    destruct (calculate_power_zero n y_bus v_mag v_ang Hy i) as [Hp Hq];
    rewrite ?Hp, ?Hq; ring.
Qed.

(** On a network without admittance the mismatch never moves: if it is not
    below the tolerance, every allowed iteration is used up. *)
Lemma newton_raphson_zero_y_bus `{Numpy} (n : nat) (y_bus : Np.cmatrix)
    (p_spec q_spec : nat -> R) (non_slack pq_indices : list nat)
    (tol m : R) :
  (forall i j, Np.entry y_bus i j = Cx.mk 0 0) ->
  PowerFlow.max_abs (map p_spec non_slack ++ map q_spec pq_indices) = Some m ->
  ~ m < tol ->
  (forall j b, exists x, linalg_lstsq j b = Some x) ->
  forall fuel iteration mm v_mag v_ang,
  exists v_mag' v_ang',
    PowerFlow.newton_raphson fuel iteration mm n y_bus p_spec q_spec
      non_slack pq_indices tol v_mag v_ang
    = PowerFlow.Exhausted (match fuel with O => mm | S _ => Some m end)
        v_mag' v_ang'.
Proof.
  intros Hy Hmax Htol Hlstsq.
  induction fuel as [| fuel IH]; intros iteration mm v_mag v_ang.
  - exists v_mag, v_ang. reflexivity.
  - rewrite newton_raphson_step. cbv zeta.
    rewrite (mismatch_zero_y_bus n y_bus p_spec q_spec non_slack
               pq_indices v_mag v_ang Hy), Hmax.
    destruct (Rlt_dec m tol) as [Hlt | _]; [contradiction |].
    assert (Hc : exists c,
      PowerFlow.solve_corrections
        (PowerFlow._build_jacobian n y_bus v_mag v_ang non_slack pq_indices)
        (map p_spec non_slack ++ map q_spec pq_indices) = Some c).
    { unfold PowerFlow.solve_corrections.
      destruct (linalg_solve _ _) as [c |]; [now exists c | apply Hlstsq]. }
    destruct Hc as [c ->].
    destruct (IH (S iteration) (Some m)
                (PowerFlow.apply_corrections (fun d v => d * v) pq_indices
                   (skipn (List.length non_slack) c) v_mag)
                (PowerFlow.apply_corrections (fun d _ => d) non_slack
                   (firstn (List.length non_slack) c) v_ang))
      as [vm [va Hrun]].
    exists vm, va. rewrite Hrun. now destruct fuel.
Qed.

Lemma newton_raphson_balanced `{Numpy} (n : nat) (y_bus : Np.cmatrix)
    (p_spec q_spec : nat -> R) (non_slack pq_indices : list nat)
    (tol m : R) (fuel iteration : nat) (mm : option R)
    (v_mag v_ang : nat -> R) :
  (forall i j, Np.entry y_bus i j = Cx.mk 0 0) ->
  PowerFlow.max_abs (map p_spec non_slack ++ map q_spec pq_indices) = Some m ->
  m < tol ->
  PowerFlow.newton_raphson (S fuel) iteration mm n y_bus p_spec q_spec
    non_slack pq_indices tol v_mag v_ang
  = PowerFlow.Converged iteration m v_mag v_ang.
Proof.
  intros Hy Hmax Htol. rewrite newton_raphson_step. cbv zeta.
  rewrite (mismatch_zero_y_bus n y_bus p_spec q_spec non_slack
             pq_indices v_mag v_ang Hy), Hmax.
  destruct (Rlt_dec m tol); [reflexivity | contradiction].
Qed.

Lemma solve_converged `{Numpy} (w : PowerFlow.world) (g : Grid.t)
    (y_bus : Np.cmatrix) (rows : list (nat * BusRef))
    (iteration : nat) (mm : R) (v_mag v_ang : nat -> R) :
  Grid.build_y_bus (PowerFlow.heap w) (PowerFlow.grid w) = Return g y_bus ->
  PowerFlow.indexed_buses (sorted (Dict.keys (Grid.buses g))) (Grid.buses g)
  = Some rows ->
  PowerFlow.run_newton_raphson (PowerFlow.heap w) (Grid.n_buses g) y_bus rows
    (PowerFlow.self w)
  = PowerFlow.Converged iteration mm v_mag v_ang ->
  PowerFlow.solve w
  = PowerFlow.store_results (PowerFlow.heap w) g rows
      (sorted (Dict.keys (Grid.buses g))) v_mag v_ang
      (PowerFlow.mk (PowerFlow.max_iterations (PowerFlow.self w))
         (PowerFlow.tolerance (PowerFlow.self w)) true (iteration + 1)
         (Some mm)).
Proof.
  intros Hy Hrows Hrun. unfold PowerFlow.solve.
  rewrite Hy. cbv zeta. rewrite Hrows, Hrun. reflexivity.
Qed.

(** When the loop uses up its iterations, [solve] stores the last iterate
    and hands back whatever [self.converged] held before the call. *)
Lemma solve_exhausted `{Numpy} (w : PowerFlow.world) (g : Grid.t)
    (y_bus : Np.cmatrix) (rows : list (nat * BusRef))
    (mm : option R) (v_mag v_ang : nat -> R) :
  Grid.build_y_bus (PowerFlow.heap w) (PowerFlow.grid w) = Return g y_bus ->
  PowerFlow.indexed_buses (sorted (Dict.keys (Grid.buses g))) (Grid.buses g)
  = Some rows ->
  PowerFlow.run_newton_raphson (PowerFlow.heap w) (Grid.n_buses g) y_bus rows
    (PowerFlow.self w)
  = PowerFlow.Exhausted mm v_mag v_ang ->
  PowerFlow.solve w
  = PowerFlow.store_results (PowerFlow.heap w) g rows
      (sorted (Dict.keys (Grid.buses g))) v_mag v_ang
      (PowerFlow.mk (PowerFlow.max_iterations (PowerFlow.self w))
         (PowerFlow.tolerance (PowerFlow.self w))
         (PowerFlow.converged (PowerFlow.self w))
         (PowerFlow.iterations (PowerFlow.self w)) mm).
Proof.
  intros Hy Hrows Hrun. unfold PowerFlow.solve.
  rewrite Hy. cbv zeta. rewrite Hrows, Hrun. reflexivity.
Qed.

Lemma zeros_entry (n i j : nat) : Np.entry (Np.zeros n) i j = Cx.mk 0 0.
Proof. reflexivity. Qed.

(** What [solve] stores after the loop, in general: the voltages go back
    into the bus objects, every line gets its flow from the last iterate
    (zero on an open line), and the value returned is [self.converged]. *)
Lemma store_results_returns (h : Heap) (g : Grid.t)
    (rows : list (nat * BusRef)) (bus_ids : list Z)
    (v_mag v_ang : nat -> R) (pf : PowerFlow.t) :
  let h' :=
    fold_left
      (fun h '(idx, bus) =>
         heap_set h bus
           (Bus.set_voltage (h bus) (v_mag idx) (Bus.degrees (v_ang idx))))
      rows h in
  let flows :=
    PowerFlow._calculate_line_flows h' (fun k => index_of k bus_ids)
      v_mag v_ang (Grid.lines g) in
  snd flows = None ->
  PowerFlow.store_results h g rows bus_ids v_mag v_ang pf
  = Return (PowerFlow.mkw h' (Grid.set_lines g (fst flows)) pf)
           (PowerFlow.converged pf).
Proof.
  intros h' flows Hnone. unfold PowerFlow.store_results.
  fold h'. fold flows. destruct flows as [ls e]. cbn in Hnone. subst e.
  reflexivity.
Qed.

Lemma calculate_line_flows_each (h : Heap) (idx : Z -> option nat)
    (v_mag v_ang : nat -> R) (ls : Dict.t TransmissionLine.t) :
  snd (PowerFlow._calculate_line_flows h idx v_mag v_ang ls) = None ->
  Forall2
    (fun old new =>
       fst new = fst old
       /\ PowerFlow.line_flow h idx v_mag v_ang (snd old) = Some (snd new))
    ls (fst (PowerFlow._calculate_line_flows h idx v_mag v_ang ls)).
Proof.
  induction ls as [| [k line] rest IH]; cbn; intros Hnone.
  - constructor.
  - destruct (PowerFlow.line_flow h idx v_mag v_ang line) as [line' |] eqn:Hl;
      [| discriminate].
    destruct (PowerFlow._calculate_line_flows h idx v_mag v_ang rest)
      as [rest' e] eqn:Hr.
    cbn in Hnone |- *. constructor; [split; [reflexivity | exact Hl] |].
    now apply IH.
Qed.

Lemma write_back_at (v_mag v_ang : nat -> R) (rows : list (nat * BusRef)) :
  forall (h : Heap) (idx : nat) (bus : BusRef),
    NoDup (map snd rows) -> In (idx, bus) rows ->
    let h' :=
      fold_left
        (fun h '(idx, bus) =>
           heap_set h bus
             (Bus.set_voltage (h bus) (v_mag idx) (Bus.degrees (v_ang idx))))
        rows h in
    Bus.voltage_pu (h' bus) = v_mag idx
    /\ Bus.angle_deg (h' bus) = Bus.degrees (v_ang idx).
Proof.
  induction rows as [| [i0 b0] rest IH]; intros h idx bus Hnd Hin;
    [contradiction |].
  cbn in Hnd. inversion Hnd as [| ? ? Hnotin Hnd']; subst.
  destruct Hin as [E | Hin].
  - inversion E; subst. cbn.
    assert (Hkeep : forall (l : list (nat * BusRef)) (h0 : Heap),
      ~ In bus (map snd l) ->
      fold_left
        (fun h '(idx, bus) =>
           heap_set h bus
             (Bus.set_voltage (h bus) (v_mag idx) (Bus.degrees (v_ang idx))))
        l h0 bus = h0 bus).
    { induction l as [| [i1 b1] l IHl]; intros h0 Hn; [reflexivity |].
      cbn in Hn |- *. rewrite IHl by tauto.
      unfold heap_set. destruct (Nat.eqb bus b1) eqn:Eb; [| reflexivity].
      apply Nat.eqb_eq in Eb. subst. tauto. }
    rewrite Hkeep by exact Hnotin.
    unfold heap_set. rewrite Nat.eqb_refl. split; reflexivity.
  - cbn. now apply IH.
Qed.

(** The statement of C3 on a solver whose flag is not set: when the loop
    uses up its iterations and every closed line ends on indexed buses,
    [solve] returns [False] without raising, the last iterate is in the bus
    objects and in the line flows. *)
Lemma solve_exhausted_unset_flag `{Numpy} (w : PowerFlow.world) (g : Grid.t)
    (y_bus : Np.cmatrix) (rows : list (nat * BusRef))
    (mm : option R) (v_mag v_ang : nat -> R) :
  PowerFlow.converged (PowerFlow.self w) = false ->
  Grid.build_y_bus (PowerFlow.heap w) (PowerFlow.grid w) = Return g y_bus ->
  PowerFlow.indexed_buses (sorted (Dict.keys (Grid.buses g))) (Grid.buses g)
  = Some rows ->
  PowerFlow.run_newton_raphson (PowerFlow.heap w) (Grid.n_buses g) y_bus rows
    (PowerFlow.self w)
  = PowerFlow.Exhausted mm v_mag v_ang ->
  let h' :=
    fold_left
      (fun h '(idx, bus) =>
         heap_set h bus
           (Bus.set_voltage (h bus) (v_mag idx) (Bus.degrees (v_ang idx))))
      rows (PowerFlow.heap w) in
  let flows :=
    PowerFlow._calculate_line_flows h'
      (fun k => index_of k (sorted (Dict.keys (Grid.buses g))))
      v_mag v_ang (Grid.lines g) in
  snd flows = None ->
  exists w',
    PowerFlow.solve w = Return w' false
    /\ PowerFlow.converged (PowerFlow.self w') = false
    /\ PowerFlow.heap w' = h'
    /\ Grid.lines (PowerFlow.grid w') = fst flows
    /\ Forall2
         (fun old new =>
            fst new = fst old
            /\ PowerFlow.line_flow h'
                 (fun k => index_of k (sorted (Dict.keys (Grid.buses g))))
                 v_mag v_ang (snd old) = Some (snd new))
         (Grid.lines g) (fst flows).
Proof.
  intros Hflag Hy Hrows Hrun h' flows Hnone.
  rewrite (solve_exhausted w g y_bus rows mm v_mag v_ang Hy Hrows Hrun).
  rewrite store_results_returns by exact Hnone.
  cbn [PowerFlow.converged]. rewrite Hflag.
  eexists. split; [reflexivity |]. cbn.
  repeat split. now apply calculate_line_flows_each.
Qed.

Lemma sample_max_abs_balanced :
  Rmax (Rabs (Bus.p_net Sample.bus2 / Config.POWER_BASE))
       (Rabs (Bus.q_net Sample.bus2 / Config.POWER_BASE)) < 1e-6.
Proof.
  unfold Bus.p_net, Bus.q_net, Config.POWER_BASE. cbn.
  replace ((0.0 - 0.0) / 100) with 0 by lra.
  rewrite Rabs_R0. unfold Rmax. destruct (Rle_dec 0 0); lra.
Qed.

(** C3 at a failing input: two buses and no line.  A first [solve], with no
    load, converges at once and sets [self.converged].  After bus 2 has
    been given a load of 50 MW and 10 Mvar, a second [solve] on the same
    solver uses up its 50 iterations with the mismatch at 0.5, writes the
    last iterate back, and returns [True]: the flag of the first call. *)
Theorem solve_returns_stale_flag `{Numpy} :
  (forall j b, exists x, linalg_lstsq j b = Some x) ->
  exists w1 m1,
    PowerFlow.solve
      (PowerFlow.mkw Sample.heap Sample.grid_no_line (PowerFlow.init 50 1e-6))
    = Return w1 true
    /\ PowerFlow.self w1 = PowerFlow.mk 50 1e-6 true 1 (Some m1)
    /\ let w2 :=
         PowerFlow.mkw
           (heap_set (PowerFlow.heap w1) 1%nat
              (Bus.set_as_load (PowerFlow.heap w1 1%nat) 50 10))
           (PowerFlow.grid w1) (PowerFlow.self w1) in
       exists w3 v_mag v_ang,
         PowerFlow.run_newton_raphson (PowerFlow.heap w2) 2 (Np.zeros 2)
           Sample.rows (PowerFlow.self w2)
         = PowerFlow.Exhausted (Some 0.5) v_mag v_ang
         /\ ~ 0.5 < PowerFlow.tolerance (PowerFlow.self w2)
         /\ PowerFlow.solve w2 = Return w3 true
         /\ PowerFlow.self w3 = PowerFlow.mk 50 1e-6 true 1 (Some 0.5)
         /\ Bus.voltage_pu (PowerFlow.heap w3 1%nat) = v_mag 1%nat.
Proof.
  intros Hlstsq.
  assert (Hy0 : Grid.build_y_bus Sample.heap Sample.grid_no_line
                = Return Sample.grid_no_line_cached (Np.zeros 2))
    by reflexivity.
  assert (Hrows0 :
    PowerFlow.indexed_buses
      (sorted (Dict.keys (Grid.buses Sample.grid_no_line_cached)))
      (Grid.buses Sample.grid_no_line_cached) = Some Sample.rows)
    by reflexivity.
  set (m0 := Rmax (Rabs (Bus.p_net Sample.bus2 / Config.POWER_BASE))
                  (Rabs (Bus.q_net Sample.bus2 / Config.POWER_BASE))).
  assert (Hrun0 :
    PowerFlow.run_newton_raphson Sample.heap
      (Grid.n_buses Sample.grid_no_line_cached) (Np.zeros 2) Sample.rows
      (PowerFlow.init 50 1e-6)
    = PowerFlow.Converged 0 m0
        (PowerFlow.initial_v_mag Sample.heap Sample.rows)
        (PowerFlow.initial_v_ang Sample.heap Sample.rows)).
  { unfold PowerFlow.run_newton_raphson.
    change (PowerFlow.max_iterations (PowerFlow.init 50 1e-6)) with (S 49).
    apply newton_raphson_balanced.
    - apply zeros_entry.
    - reflexivity.
    - apply sample_max_abs_balanced. }
  eexists. exists m0. split.
  { rewrite (solve_converged
               (PowerFlow.mkw Sample.heap Sample.grid_no_line
                  (PowerFlow.init 50 1e-6))
               _ _ _ _ _ _ _ Hy0 Hrows0 Hrun0).
    reflexivity. }
  split; [reflexivity |]. cbv zeta.
  set (w2 := PowerFlow.mkw _ _ _).
  assert (Hy2 : Grid.build_y_bus (PowerFlow.heap w2) (PowerFlow.grid w2)
                = Return Sample.grid_no_line_cached (Np.zeros 2))
    by reflexivity.
  assert (Hmax :
    PowerFlow.max_abs
      (map (PowerFlow.p_spec_of (PowerFlow.heap w2) Sample.rows)
           (PowerFlow.non_slack_list 2
              (PowerFlow.slack_index (PowerFlow.heap w2) Sample.rows))
       ++ map (PowerFlow.q_spec_of (PowerFlow.heap w2) Sample.rows)
              (PowerFlow.pq_index_list (PowerFlow.heap w2) Sample.rows))
    = Some 0.5).
  { cbn. f_equal. unfold Bus.p_net, Bus.q_net, Config.POWER_BASE. cbn.
    replace ((0.0 - 50) / 100) with (Ropp 0.5) by lra.
    replace ((0.0 - 10) / 100) with (Ropp 0.1) by lra.
    rewrite !Rabs_Ropp, !Rabs_right by lra. apply Rmax_left. lra. }
  assert (Htol : ~ 0.5 < PowerFlow.tolerance (PowerFlow.self w2))
    by (cbn; lra).
  destruct (newton_raphson_zero_y_bus 2 (Np.zeros 2) _ _ _ _ _ 0.5
              (zeros_entry 2) Hmax Htol Hlstsq 50 0
              (PowerFlow.mismatch (PowerFlow.self w2))
              (PowerFlow.initial_v_mag (PowerFlow.heap w2) Sample.rows)
              (PowerFlow.initial_v_ang (PowerFlow.heap w2) Sample.rows))
    as [v_mag [v_ang Hrun]].
  eexists. exists v_mag, v_ang.
  split; [exact Hrun |]. split; [exact Htol |].
  split; [| split].
  - rewrite (solve_exhausted w2 _ _ _ _ _ _ Hy2 Hrows0 Hrun). reflexivity.
  - reflexivity.
  - reflexivity.
Qed.

Lemma solve_returns_stale_flag_witness :
  (forall j b, exists x, @linalg_lstsq Sample.numpy2 j b = Some x)
  /\ exists w1 w3,
       @PowerFlow.solve Sample.numpy2
         (PowerFlow.mkw Sample.heap Sample.grid_no_line (PowerFlow.init 50 1e-6))
       = Return w1 true
       /\ @PowerFlow.solve Sample.numpy2
            (PowerFlow.mkw
               (heap_set (PowerFlow.heap w1) 1%nat
                  (Bus.set_as_load (PowerFlow.heap w1 1%nat) 50 10))
               (PowerFlow.grid w1) (PowerFlow.self w1))
          = Return w3 true.
Proof.
  assert (Hl : forall j b, exists x, @linalg_lstsq Sample.numpy2 j b = Some x)
    by (intros j b; eexists; reflexivity).
  split; [exact Hl |].
  destruct (@solve_returns_stale_flag Sample.numpy2 Hl)
    as [w1 [m1 [H1 [_ [w3 [_ [_ [_ [_ [H3 _]]]]]]]]]].
  exists w1, w3. split; [exact H1 | exact H3].
Defined.

Lemma sample_inv_zeros :
  exists z, @Grid.inv_regularized Sample.numpy2 (Np.zeros 2) 2 = inl z.
Proof.
  unfold Grid.inv_regularized. cbn [linalg_inv Sample.numpy2].
  unfold Sample.inv2 at 1. cbn [Np.shape Np.zeros Nat.eqb].
  destruct (Cx.eq_dec (Sample.det2 (Np.zeros 2)) Cx.zero) as [_ | N].
  - cbn [Np.add_eye Np.shape Np.zeros Nat.eqb]. unfold Sample.inv2.
    cbn [Np.shape Nat.eqb].
    match goal with
    | |- context [Cx.eq_dec ?d Cx.zero] =>
        destruct (Cx.eq_dec d Cx.zero) as [E | _]
    end.
    + exfalso. apply (f_equal Cx.re) in E. cbn in E. lra.
    + eexists. reflexivity.
  - exfalso. apply N. apply cx_ext; cbn; ring.
Qed.

Lemma sample_open_sequence_networks :
  exists g' zs,
    @Impedance.build_sequence_networks Sample.numpy2 Sample.heap
      (marked_grid Sample.grid_two_bus 1 OPEN (Rmax 0.0 (Rmin 1.0 0.3)))
    = Return g' zs.
Proof.
  destruct sample_inv_zeros as [z Hz].
  assert (Hy : exists g1,
    Grid.build_y_bus Sample.heap
      (marked_grid Sample.grid_two_bus 1 OPEN (Rmax 0.0 (Rmin 1.0 0.3)))
    = Return g1 (Np.zeros 2)
    /\ Grid.n_buses g1 = 2%nat
    /\ Impedance.stamp0_lines Sample.heap
         (fun k => index_of k (sorted (Dict.keys (Grid.buses g1))))
         (Np.zeros 2) (Dict.values (Grid.lines g1)) = Some (Np.zeros 2)).
  { eexists. split; [reflexivity |]. split; reflexivity. }
  destruct Hy as [g1 [Hy [Hn H0]]].
  unfold Impedance.build_sequence_networks, Grid.build_z_bus.
  rewrite Hy. cbv beta iota. rewrite Hn, Hz. cbv beta iota zeta.
  rewrite Hn, H0, Hz. eexists. eexists. reflexivity.
Qed.

Lemma inject_line_fault_records_witness :
  Grid.get_line Sample.grid_two_bus 1 = Some Sample.line1
  /\ In (Bus.id (Sample.heap (TransmissionLine.from_bus Sample.line1)))
        (Dict.keys (Grid.buses Sample.grid_two_bus))
  /\ exists w' currents,
       @FaultSimulator.inject_line_fault Sample.numpy2
         (FaultSimulator.mkw Sample.heap Sample.grid_two_bus FaultSimulator.init)
         1 OPEN 0.3 0 7
       = Return w'
           (Some (Fault.mk 7 OPEN AtLine 1 (Rmax 0.0 (Rmin 1.0 0.3)) 0
                           true false None))
       /\ FaultSimulator.get_fault_current (FaultSimulator.self w')
            (Fault.mk 7 OPEN AtLine 1 (Rmax 0.0 (Rmin 1.0 0.3)) 0
                      true false None)
          = Some currents.
Proof.
  assert (Hget : Grid.get_line Sample.grid_two_bus 1 = Some Sample.line1)
    by reflexivity.
  assert (Hfrom :
    In (Bus.id (Sample.heap (TransmissionLine.from_bus Sample.line1)))
       (Dict.keys (Grid.buses Sample.grid_two_bus)))
    by (left; reflexivity).
  split; [exact Hget |]. split; [exact Hfrom |].
  destruct sample_open_sequence_networks as [g' [zs Hseq]].
  destruct (@inject_line_fault_records Sample.numpy2
              (FaultSimulator.mkw Sample.heap Sample.grid_two_bus
                 FaultSimulator.init)
              1 OPEN 0.3 0 7 Sample.line1 g' zs Hget Hfrom Hseq)
    as [_ [w' [currents [line' [Hinj [_ [Hcur _]]]]]]].
  exists w', currents. split; [exact Hinj | exact Hcur].
Defined.

(** C8 (as the specification words it) fails for a line whose from-bus the
    grid does not hold, the state a refused [add_line] leaves behind: an
    OPEN fault on that line is created and appended, but
    [_calculate_line_fault_current] finds no index for the from-bus and
    returns before any current is stored. *)
Lemma unregistered_from_bus_refuted :
  exists g,
    Grid.add_line Sample.heap3 Sample.grid_no_line Sample.line3
    = Raise g KeyError
    /\ Grid.get_line g 3 = Some Sample.line3
    /\ exists w' fault,
         @FaultSimulator.inject_line_fault Sample.numpy2
           (FaultSimulator.mkw Sample.heap3 g FaultSimulator.init)
           3 OPEN 0.5 0 7
         = Return w' (Some fault)
         /\ FaultSimulator.active_faults (FaultSimulator.self w') = [fault]
         /\ FaultSimulator.get_fault_current (FaultSimulator.self w') fault
            = None.
Proof.
  exists Sample.grid_dangling. split; [reflexivity |]. split; [reflexivity |].
  set (alpha := Rmax 0.0 (Rmin 1.0 0.5)).
  set (fault := Fault.mk 7 OPEN AtLine 3 alpha 0 true false None).
  set (g2 := marked_grid Sample.grid_dangling 3 OPEN alpha).
  destruct sample_inv_zeros as [z Hz].
  assert (Hy : exists g1,
    Grid.build_y_bus Sample.heap3 g2 = Return g1 (Np.zeros 2)
    /\ Grid.n_buses g1 = 2%nat
    /\ Grid.buses g1 = [(1%Z, 0%nat); (2%Z, 1%nat)]
    /\ Impedance.stamp0_lines Sample.heap3
         (fun k => index_of k (sorted (Dict.keys (Grid.buses g1))))
         (Np.zeros 2) (Dict.values (Grid.lines g1)) = Some (Np.zeros 2)).
  { eexists. split; [reflexivity |]. repeat split. }
  destruct Hy as [g1 [Hy [Hn [Hb H0]]]].
  assert (Hseq :
    @Impedance.build_sequence_networks Sample.numpy2 Sample.heap3 g2
    = Return g1 (z, z, z)).
  { unfold Impedance.build_sequence_networks, Grid.build_z_bus.
    rewrite Hy. cbv beta iota. rewrite Hn, Hz. cbv beta iota zeta.
    rewrite Hn, H0, Hz. reflexivity. }
  assert (Hcalc :
    @FaultSimulator._calculate_line_fault_current Sample.numpy2
      (FaultSimulator.mkw Sample.heap3 g2 FaultSimulator.init) fault
    = Return (FaultSimulator.mkw Sample.heap3 g1 FaultSimulator.init) tt).
  { unfold FaultSimulator._calculate_line_fault_current.
    cbn [FaultSimulator.grid FaultSimulator.heap Fault.element_id fault].
    change (Grid.get_line g2 3) with
      (Some (TransmissionLine.apply_fault
               (TransmissionLine.open_line Sample.line3) OPEN alpha)).
    cbv beta iota. rewrite Hseq. cbv beta iota zeta.
    cbn [FaultSimulator.with_grid FaultSimulator.grid FaultSimulator.heap].
    rewrite Hb. reflexivity. }
  exists (FaultSimulator.mkw Sample.heap3 g1
            (FaultSimulator.mk [fault] [])), fault.
  split; [| split; reflexivity].
  unfold FaultSimulator.inject_line_fault.
  change (Grid.get_line
            (FaultSimulator.grid
               (FaultSimulator.mkw Sample.heap3 Sample.grid_dangling
                  FaultSimulator.init)) 3)
    with (Some Sample.line3).
  cbv beta iota zeta.
  change (FaultSimulator.with_grid _ _)
    with (FaultSimulator.mkw Sample.heap3 g2 FaultSimulator.init).
  fold alpha. fold fault. rewrite Hcalc. reflexivity.
Qed.

(* ====================================================================== *)
(** * Further properties of the sources *)

(** ** Phase currents of the fault models *)

(** The Fortescue operator [a = exp(j 2 pi / 3)]. *)
Lemma fortescue_operator :
  Cx.exp (Cx.mk 0 (2 * PI / 3)) = Cx.mk (- (1 / 2)) (sqrt 3 / 2).
Proof.
  unfold Cx.exp. cbn. rewrite exp_0.
  replace (2 * PI / 3) with (2 * (PI / 3)) by lra.
  rewrite cos_2PI3, sin_2PI3. apply cx_ext; cbn; lra.
Qed.

Lemma sqrt3_square : sqrt 3 * sqrt 3 = 3.
Proof. apply sqrt_sqrt. lra. Qed.

Lemma fortescue_operator_square :
  Cx.mul (Cx.mk (- (1 / 2)) (sqrt 3 / 2)) (Cx.mk (- (1 / 2)) (sqrt 3 / 2))
  = Cx.mk (- (1 / 2)) (- (sqrt 3 / 2)).
Proof. pose proof sqrt3_square. apply cx_ext; cbn; nra. Qed.

Lemma sequence_to_phase_eq (i0 i1 i2 : C) :
  FaultModel.sequence_to_phase i0 i1 i2
  = (let a := Cx.mk (- (1 / 2)) (sqrt 3 / 2) in
     let a2 := Cx.mk (- (1 / 2)) (- (sqrt 3 / 2)) in
     (Cx.add (Cx.add i0 i1) i2,
      Cx.add (Cx.add i0 (Cx.mul a2 i1)) (Cx.mul a i2),
      Cx.add (Cx.add i0 (Cx.mul a i1)) (Cx.mul a2 i2))).
Proof.
  unfold FaultModel.sequence_to_phase.
  rewrite fortescue_operator, fortescue_operator_square. reflexivity.
Qed.

(** X1: for every input, the phase currents of a single-line-to-ground
    fault are [Ia = 3 I0] and [Ib = Ic = 0]: only the faulted phase carries
    current. *)
Theorem slg_phase_currents (v_f z0 z1 z2 : C) (z_f : R) :
  exists i,
    SLGFault.calculate_fault_current v_f z0 z1 z2 z_f = Some (i, i, i)
    /\ FaultModel.sequence_to_phase i i i = (Cx.scale 3 i, Cx.zero, Cx.zero).
Proof.
  destruct (slg_defined v_f z0 z1 z2 z_f) as [i [_ Hc]].
  exists i. split; [exact Hc |].
  rewrite sequence_to_phase_eq. cbv zeta.
  f_equal; [f_equal |]; apply cx_ext; cbn; field.
Qed.

(** X2: a line-to-line fault has no zero-sequence current and [I2 = -I1];
    its phase currents are [Ia = 0], [Ib = -j sqrt(3) I1] and [Ic = -Ib], for
    every input. *)
Theorem ll_phase_currents (v_f z0 z1 z2 : C) (z_f : R) :
  exists i1,
    LLFault.calculate_fault_current v_f z0 z1 z2 z_f
    = Some (Cx.zero, i1, Cx.neg i1)
    /\ Cx.div v_f (FaultModel.guard_total
                     (Cx.add (Cx.add z1 z2) (Cx.of_real z_f))) = Some i1
    /\ FaultModel.sequence_to_phase Cx.zero i1 (Cx.neg i1)
       = (Cx.zero, Cx.mul (Cx.mk 0 (- sqrt 3)) i1,
          Cx.neg (Cx.mul (Cx.mk 0 (- sqrt 3)) i1)).
Proof.
  destruct (div_guard_total v_f (Cx.add (Cx.add z1 z2) (Cx.of_real z_f)))
    as [i1 Hi].
  exists i1. split; [| split; [exact Hi |]].
  - unfold LLFault.calculate_fault_current. rewrite Hi. reflexivity.
  - rewrite sequence_to_phase_eq. cbv zeta.
    f_equal; [f_equal |]; apply cx_ext; cbn; field.
Qed.

Lemma div_mul (a b q : C) : Cx.div a b = Some q -> Cx.mul q b = a.
Proof.
  unfold Cx.div. destruct (Cx.eq_dec b Cx.zero) as [E | N]; [discriminate |].
  intros H. inversion H. subst q. clear H.
  assert (Hn : Cx.norm2 b <> 0) by (intros E; apply N, norm2_zero_iff, E).
  apply cx_ext; cbn; unfold Cx.norm2 in *; field; exact Hn.
Qed.

Lemma mul_eq_zero (x d : C) : Cx.mul x d = Cx.zero -> d <> Cx.zero -> x = Cx.zero.
Proof.
  intros Hm Hd. apply norm2_zero_iff.
  assert (H : Cx.norm2 x * Cx.norm2 d = 0)
    by (rewrite <- norm2_mul, Hm; unfold Cx.norm2; cbn; ring).
  assert (Hn : Cx.norm2 d <> 0) by (intros E; apply Hd, norm2_zero_iff, E).
  destruct (Rmult_integral _ _ H); [assumption | contradiction].
Qed.

(** X3: when the magnitude of [z0 + 3 z_f + z2] is not below 1e-10, the
    sequence currents of a double-line-to-ground fault sum to zero, so the
    phase current [Ia] of the sound phase is zero. *)
Theorem dlg_sound_phase (v_f z0 z1 z2 : C) (z_f : R) :
  ~ Cx.abs (Cx.add (Cx.add z0 (Cx.of_real (3 * z_f))) z2) < 1e-10 ->
  exists i0 i1 i2,
    DLGFault.calculate_fault_current v_f z0 z1 z2 z_f = Some (i0, i1, i2)
    /\ Cx.add (Cx.add i0 i1) i2 = Cx.zero
    /\ fst (fst (FaultModel.sequence_to_phase i0 i1 i2)) = Cx.zero.
Proof.
  intros Hbig. unfold DLGFault.calculate_fault_current.
  set (z0f := Cx.add z0 (Cx.of_real (3 * z_f))) in *.
  destruct (Rlt_dec (Cx.abs (Cx.add z0f z2)) 1e-10) as [Hs | _];
    [contradiction |].
  assert (Hnz : Cx.add z0f z2 <> Cx.zero)
    by (apply (abs_ge_nonzero _ 1e-10); [lra | exact Hbig]).
  destruct (div_defined (Cx.mul z0f z2) _ Hnz) as [zp ->]. cbn [obind].
  destruct (div_guard_total v_f (Cx.add z1 zp)) as [i1 ->]. cbn [obind].
  destruct (div_defined (Cx.mul (Cx.neg i1) z2) _ Hnz) as [i0 H0].
  destruct (div_defined (Cx.mul (Cx.neg i1) z0f) _ Hnz) as [i2 H2].
  rewrite H0, H2. cbn [obind].
  exists i0, i1, i2. split; [reflexivity |].
  assert (Hsum : Cx.add (Cx.add i0 i1) i2 = Cx.zero).
  { apply (mul_eq_zero _ (Cx.add z0f z2)); [| exact Hnz].
    apply div_mul in H0, H2.
    apply (f_equal Cx.re) in H0 as H0r. apply (f_equal Cx.im) in H0 as H0i.
    apply (f_equal Cx.re) in H2 as H2r. apply (f_equal Cx.im) in H2 as H2i.
    cbn in H0r, H0i, H2r, H2i.
    apply cx_ext; cbn; nra. }
  split; [exact Hsum | exact Hsum].
Qed.

Lemma dlg_sound_phase_witness :
  ~ Cx.abs (Cx.add (Cx.add (Cx.mk 0 0.3) (Cx.of_real (3 * 0))) (Cx.mk 0 0.1))
    < 1e-10
  /\ exists i0 i1 i2,
       DLGFault.calculate_fault_current (Cx.mk 1 0) (Cx.mk 0 0.3)
         (Cx.mk 0 0.1) (Cx.mk 0 0.1) 0 = Some (i0, i1, i2)
       /\ Cx.add (Cx.add i0 i1) i2 = Cx.zero.
Proof.
  assert (H : ~ Cx.abs (Cx.add (Cx.add (Cx.mk 0 0.3) (Cx.of_real (3 * 0)))
                               (Cx.mk 0 0.1)) < 1e-10).
  { apply Rle_not_lt. apply abs_ge; [lra |]. unfold Cx.norm2. cbn. lra. }
  split; [exact H |].
  destruct (dlg_sound_phase (Cx.mk 1 0) (Cx.mk 0 0.3) (Cx.mk 0 0.1)
              (Cx.mk 0 0.1) 0 H) as [i0 [i1 [i2 [Hc [Hs _]]]]].
  exists i0, i1, i2. split; [exact Hc | exact Hs].
Defined.

(** X4: when the magnitude of [z0 + 3 z_f + z2] is below 1e-10, the
    double-line-to-ground model splits the positive-sequence current in two
    equal halves of the same sign, [I0 = I2 = I1 / 2]; the sequence currents
    then sum to [2 I1], which is the current it reports for phase a. *)
Theorem dlg_degenerate_split (v_f z0 z1 z2 : C) (z_f : R) :
  Cx.abs (Cx.add (Cx.add z0 (Cx.of_real (3 * z_f))) z2) < 1e-10 ->
  exists i1,
    Cx.div v_f (FaultModel.guard_total (Cx.add z1 (Cx.of_real 0))) = Some i1
    /\ DLGFault.calculate_fault_current v_f z0 z1 z2 z_f
       = Some (Cx.scale (1 / 2) i1, i1, Cx.scale (1 / 2) i1)
    /\ fst (fst (FaultModel.sequence_to_phase
                   (Cx.scale (1 / 2) i1) i1 (Cx.scale (1 / 2) i1)))
       = Cx.scale 2 i1.
Proof.
  intros Hsmall. unfold DLGFault.calculate_fault_current.
  destruct (Rlt_dec (Cx.abs (Cx.add (Cx.add z0 (Cx.of_real (3 * z_f))) z2))
              1e-10) as [_ | N]; [| contradiction].
  cbn [obind].
  destruct (div_guard_total v_f (Cx.add z1 (Cx.of_real 0))) as [i1 Hi].
  exists i1. rewrite Hi. cbn [obind].
  assert (Hhalf : Cx.div i1 (Cx.of_real 2) = Some (Cx.scale (1 / 2) i1)).
  { unfold Cx.div.
    destruct (Cx.eq_dec (Cx.of_real 2) Cx.zero) as [E | _].
    - exfalso. apply (f_equal Cx.re) in E. cbn in E. lra.
    - f_equal. apply cx_ext; cbn; unfold Cx.norm2; cbn; field. }
  rewrite Hhalf. cbn [obind].
  split; [reflexivity | split; [reflexivity |]].
  rewrite sequence_to_phase_eq. cbv zeta. cbn [fst].
  apply cx_ext; cbn; field.
Qed.

Lemma dlg_degenerate_split_witness :
  Cx.abs (Cx.add (Cx.add Cx.zero (Cx.of_real (3 * 0))) Cx.zero) < 1e-10
  /\ exists i1,
       DLGFault.calculate_fault_current (Cx.mk 1 0) Cx.zero (Cx.mk 0 0.1)
         Cx.zero 0
       = Some (Cx.scale (1 / 2) i1, i1, Cx.scale (1 / 2) i1).
Proof.
  assert (H : Cx.abs (Cx.add (Cx.add Cx.zero (Cx.of_real (3 * 0))) Cx.zero)
              < 1e-10).
  { replace (Cx.add (Cx.add Cx.zero (Cx.of_real (3 * 0))) Cx.zero)
      with Cx.zero by (apply cx_ext; cbn; ring).
    rewrite abs_zero. lra. }
  split; [exact H |].
  destruct (dlg_degenerate_split (Cx.mk 1 0) Cx.zero (Cx.mk 0 0.1) Cx.zero 0 H)
    as [i1 [_ [Hc _]]].
  exists i1. exact Hc.
Defined.

(** ** Line impedances and the conversions of [power/impedance.py] *)

Lemma abs_scale_nonneg (c : R) (z : C) :
  0 <= c -> Cx.abs (Cx.mul z (Cx.of_real c)) = c * Cx.abs z.
Proof.
  intros Hc. rewrite abs_mul, abs_of_real, Rabs_right by lra. ring.
Qed.

Lemma abs_impedance_to_point (l : TransmissionLine.t) (p : R) :
  Cx.abs (TransmissionLine.get_impedance_to_point l p)
  = Rmax 0 (Rmin 1 p) * Cx.abs (TransmissionLine.z_pu l).
Proof.
  pose proof (clamp_bounds p) as [H0 _].
  unfold TransmissionLine.get_impedance_to_point.
  replace 0.0 with 0 in * by lra. replace 1.0 with 1 in * by lra.
  now apply abs_scale_nonneg.
Qed.

(** X5: the impedance from the sending end to a point of the line has the
    magnitude of the line impedance times the fraction clamped to [0, 1];
    it never exceeds the impedance of the whole line, whatever fraction is
    asked for. *)
Theorem impedance_to_point_magnitude (l : TransmissionLine.t) (p : R) :
  Cx.abs (TransmissionLine.get_impedance_to_point l p)
  = Rmax 0 (Rmin 1 p) * Cx.abs (TransmissionLine.z_pu l)
  /\ Cx.abs (TransmissionLine.get_impedance_to_point l p)
     <= Cx.abs (TransmissionLine.z_pu l).
Proof.
  pose proof (clamp_bounds p) as [H0 H1].
  pose proof (abs_nonneg (TransmissionLine.z_pu l)) as Hz.
  replace 0.0 with 0 in * by lra. replace 1.0 with 1 in * by lra.
  split; [apply abs_impedance_to_point |].
  rewrite abs_impedance_to_point. nra.
Qed.

Lemma impedance_to_pu_of_ohm (z : C) (z_base : R) :
  z_base <> 0 ->
  Impedance.impedance_to_pu (Impedance.impedance_to_ohm z z_base) z_base
  = Some z.
Proof.
  intros Hb.
  assert (Hnz : Cx.of_real z_base <> Cx.zero) by now apply of_real_nonzero.
  unfold Impedance.impedance_to_pu, Impedance.impedance_to_ohm, Cx.div.
  destruct (Cx.eq_dec (Cx.of_real z_base) Cx.zero) as [E | _];
    [contradiction |].
  f_equal. apply cx_ext; cbn; unfold Cx.norm2; cbn; field; nra.
Qed.

(** X6: converting an impedance to Ohms and back to per-unit gives the
    impedance again for every non-zero base, and the other way round; with
    a zero base the conversion to per-unit fails with a division by zero. *)
Theorem impedance_pu_ohm_round_trip (z : C) (z_base : R) :
  z_base <> 0 ->
  Impedance.impedance_to_pu (Impedance.impedance_to_ohm z z_base) z_base
  = Some z
  /\ (exists z_pu,
        Impedance.impedance_to_pu z z_base = Some z_pu
        /\ Impedance.impedance_to_ohm z_pu z_base = z)
  /\ Impedance.impedance_to_pu z 0 = None.
Proof.
  intros Hb.
  assert (Hnz : Cx.of_real z_base <> Cx.zero) by now apply of_real_nonzero.
  split; [| split].
  - now apply impedance_to_pu_of_ohm.
  - unfold Impedance.impedance_to_pu.
    destruct (div_defined z _ Hnz) as [q Hq].
    exists q. split; [exact Hq |].
    unfold Impedance.impedance_to_ohm. now apply div_mul.
  - unfold Impedance.impedance_to_pu, Cx.div.
    destruct (Cx.eq_dec (Cx.of_real 0) Cx.zero) as [_ | N];
      [reflexivity |].
    exfalso. apply N. reflexivity.
Qed.

Lemma impedance_pu_ohm_round_trip_witness :
  Config.IMPEDANCE_BASE <> 0
  /\ Impedance.impedance_to_pu
       (Impedance.impedance_to_ohm (Cx.mk 0.01 0.08) Config.IMPEDANCE_BASE)
       Config.IMPEDANCE_BASE
     = Some (Cx.mk 0.01 0.08).
Proof.
  assert (H : Config.IMPEDANCE_BASE <> 0) by (unfold_config; lra).
  split; [exact H |].
  exact (proj1 (impedance_pu_ohm_round_trip (Cx.mk 0.01 0.08)
                  Config.IMPEDANCE_BASE H)).
Defined.

(** X7: the parameters a line computes when it is created agree with the
    helpers of [power/impedance.py]: its impedance in Ohms is
    [calculate_line_impedance], its per-unit impedance is that impedance
    converted with [impedance_to_pu], and its sequence impedances are those
    of [calculate_sequence_impedances], with [Z0 = 3 Z1]. *)
Theorem line_init_agrees_with_helpers (line_id : Z) (from_bus to_bus : BusRef)
    (length_km r_per_km x_per_km b_per_km rating_mva : R) :
  let line :=
    TransmissionLine.init line_id from_bus to_bus length_km r_per_km x_per_km
      b_per_km rating_mva in
  TransmissionLine.z_ohm line
  = Impedance.calculate_line_impedance length_km r_per_km x_per_km
  /\ Impedance.impedance_to_pu (TransmissionLine.z_ohm line)
       Config.IMPEDANCE_BASE
     = Some (TransmissionLine.z_pu line)
  /\ Impedance.impedance_to_ohm (TransmissionLine.z_pu line)
       Config.IMPEDANCE_BASE
     = TransmissionLine.z_ohm line
  /\ Impedance.calculate_sequence_impedances (TransmissionLine.z_pu line)
     = (TransmissionLine.z0_pu line, TransmissionLine.z_pu line,
        TransmissionLine.z_pu line)
  /\ TransmissionLine.z0_pu line = Cx.scale 3 (TransmissionLine.z_pu line).
Proof.
  intros line.
  assert (Hb : Config.IMPEDANCE_BASE <> 0) by (unfold_config; lra).
  assert (Hohm : Impedance.impedance_to_ohm (TransmissionLine.z_pu line)
                   Config.IMPEDANCE_BASE = TransmissionLine.z_ohm line).
  { apply cx_ext; cbn; field; exact Hb. }
  split; [reflexivity | split; [| split; [exact Hohm | split]]].
  - rewrite <- Hohm. now apply impedance_to_pu_of_ohm.
  - reflexivity.
  - apply cx_ext; cbn; unfold_config; lra.
Qed.

Lemma z_per_km_pu_defined (l : TransmissionLine.t) :
  exists zk,
    TransmissionLine.z_per_km_pu l = Some zk
    /\ (TransmissionLine.length_km l > 0 ->
        Cx.mul zk (Cx.of_real (TransmissionLine.length_km l))
        = TransmissionLine.z_pu l).
Proof.
  unfold TransmissionLine.z_per_km_pu.
  destruct (Rgt_dec (TransmissionLine.length_km l) 0) as [Hpos | Hn].
  - assert (Hnz : Cx.of_real (TransmissionLine.length_km l) <> Cx.zero)
      by (apply of_real_nonzero; lra).
    destruct (div_defined (TransmissionLine.z_pu l) _ Hnz) as [zk Hzk].
    exists zk. split; [exact Hzk |]. intros _. now apply div_mul.
  - eexists. split; [reflexivity |]. intros Hpos. contradiction.
Qed.

(** X8: on a line of positive length, the impedance per kilometre times the
    length is the line impedance, and [distance_to_fault] inverts
    [get_impedance_to_point]: from the impedance up to a fraction of the
    line it returns that fraction (clamped to [0, 1]) of the length in
    kilometres. *)
Theorem distance_to_fault_inverts (l : TransmissionLine.t) (p : R) (zk : C) :
  TransmissionLine.length_km l > 0 ->
  TransmissionLine.z_per_km_pu l = Some zk ->
  Cx.abs zk > 1e-10 ->
  Cx.mul zk (Cx.of_real (TransmissionLine.length_km l))
  = TransmissionLine.z_pu l
  /\ Impedance.distance_to_fault
       (TransmissionLine.get_impedance_to_point l p) zk
     = Rmax 0 (Rmin 1 p) * TransmissionLine.length_km l.
Proof.
  intros Hlen Hzk Habs.
  destruct (z_per_km_pu_defined l) as [zk' [Hzk' Hmul]].
  rewrite Hzk in Hzk'. inversion Hzk'. subst zk'. clear Hzk'.
  specialize (Hmul Hlen). split; [exact Hmul |].
  unfold Impedance.distance_to_fault.
  destruct (Rgt_dec (Cx.abs zk) 1e-10) as [_ | N]; [| contradiction].
  rewrite abs_impedance_to_point.
  rewrite <- Hmul, abs_scale_nonneg by lra.
  field. lra.
Qed.

Lemma distance_to_fault_inverts_witness :
  TransmissionLine.length_km Sample.line1 > 0
  /\ exists zk,
       TransmissionLine.z_per_km_pu Sample.line1 = Some zk
       /\ Cx.abs zk > 1e-10
       /\ Impedance.distance_to_fault
            (TransmissionLine.get_impedance_to_point Sample.line1 0.3) zk
          = Rmax 0 (Rmin 1 0.3) * TransmissionLine.length_km Sample.line1.
Proof.
  assert (Hlen : TransmissionLine.length_km Sample.line1 > 0) by (cbn; lra).
  split; [exact Hlen |].
  destruct (z_per_km_pu_defined Sample.line1) as [zk [Hzk Hmul]].
  specialize (Hmul Hlen).
  assert (Habs : Cx.abs zk > 1e-10).
  { assert (Hz : 0.01 <= Cx.abs (TransmissionLine.z_pu Sample.line1)).
    { apply abs_ge; [lra |]. cbn. unfold_config. cbn. unfold_config. lra. }
    rewrite <- Hmul, abs_scale_nonneg in Hz by (cbn; lra).
    cbn in Hz. lra. }
  exists zk. split; [exact Hzk | split; [exact Habs |]].
  exact (proj2 (distance_to_fault_inverts Sample.line1 0.3 zk Hlen Hzk Habs)).
Defined.

(** ** Queries and invariants of the grid *)

Lemma dict_get_set {V : Type} (d : Dict.t V) (k k' : Z) (v : V) :
  Dict.get (Dict.set d k v) k' = if Z.eqb k' k then Some v else Dict.get d k'.
Proof.
  destruct (Z.eqb_spec k' k) as [-> | N].
  - apply dict_get_set_same.
  - now apply dict_get_set_other.
Qed.

Lemma dict_get_none {V : Type} (d : Dict.t V) (k : Z) :
  Dict.get d k = None <-> ~ In k (Dict.keys d).
Proof.
  induction d as [| [k' v] d IH]; cbn.
  - tauto.
  - destruct (Z.eqb_spec k k') as [-> | N].
    + split; [discriminate | intros H; exfalso; apply H; now left].
    + rewrite IH. split.
      * intros H [E | E]; [congruence | contradiction].
      * intros H E. apply H. now right.
Qed.

Lemma dict_keys_set_present {V : Type} (d : Dict.t V) (k : Z) (v v0 : V) :
  Dict.get d k = Some v0 -> Dict.keys (Dict.set d k v) = Dict.keys d.
Proof.
  induction d as [| [k' v'] d IH]; cbn; [discriminate |].
  destruct (Z.eqb_spec k k') as [-> | N]; cbn.
  - reflexivity.
  - intros H. unfold Dict.keys in IH. now rewrite IH.
Qed.

Lemma dict_keys_set_absent {V : Type} (d : Dict.t V) (k : Z) (v : V) :
  Dict.get d k = None -> Dict.keys (Dict.set d k v) = Dict.keys d ++ [k].
Proof.
  induction d as [| [k' v'] d IH]; cbn; [reflexivity |].
  destruct (Z.eqb_spec k k') as [-> | N]; cbn.
  - discriminate.
  - intros H. unfold Dict.keys in IH. now rewrite IH.
Qed.

Lemma mem_In (k : Z) (l : list Z) : Grid.mem k l = true <-> In k l.
Proof.
  unfold Grid.mem. rewrite existsb_exists. split.
  - intros [x [Hx E]]. apply Z.eqb_eq in E. now subst.
  - intros H. exists k. split; [exact H | apply Z.eqb_refl].
Qed.

(** X9: [add_bus] followed by a lookup: the bus is found under its id and
    every other id answers as before; the neighbours of the id are reset to
    the empty list, also when the id was in use, and the number of buses
    grows by one exactly when the id is new. *)
Theorem add_bus_lookup (h : Heap) (g : Grid.t) (bus : BusRef) (k : Z) :
  let g' := Grid.add_bus h g bus in
  Grid.get_bus g' k
  = (if Z.eqb k (Bus.id (h bus)) then Some bus else Grid.get_bus g k)
  /\ Grid.get_neighbors g' k
     = (if Z.eqb k (Bus.id (h bus)) then [] else Grid.get_neighbors g k)
  /\ Grid.n_buses g'
     = (if Dict.contains (Grid.buses g) (Bus.id (h bus))
        then Grid.n_buses g else S (Grid.n_buses g))
  /\ Grid.lines g' = Grid.lines g.
Proof.
  cbv zeta. split; [| split; [| split; [| reflexivity]]].
  - unfold Grid.get_bus, Grid.add_bus. cbn. apply dict_get_set.
  - unfold Grid.get_neighbors, Grid.add_bus. cbn. rewrite dict_get_set.
    now destruct (Z.eqb k (Bus.id (h bus))).
  - unfold Grid.n_buses, Grid.add_bus, Dict.contains. cbn.
    rewrite <- !(length_map fst). fold (Dict.keys (Grid.buses g)).
    fold (Dict.keys (Dict.set (Grid.buses g) (Bus.id (h bus)) bus)).
    destruct (Dict.get (Grid.buses g) (Bus.id (h bus))) as [v0 |] eqn:E.
    + now rewrite (dict_keys_set_present _ _ _ _ E).
    + rewrite (dict_keys_set_absent _ _ _ E), length_app. cbn. lia.
Qed.

(** X10: [get_line_between] does not depend on the order of its two
    arguments; a line it returns is a line of the grid that joins the two
    buses, and it returns none only when no line of the grid joins them. *)
Theorem get_line_between_symmetric (h : Heap) (g : Grid.t) (a b : Z) :
  Grid.get_line_between h g a b = Grid.get_line_between h g b a
  /\ match Grid.get_line_between h g a b with
     | Some line =>
         In line (Dict.values (Grid.lines g))
         /\ ((Bus.id (h (TransmissionLine.from_bus line)) = a
              /\ Bus.id (h (TransmissionLine.to_bus line)) = b)
             \/ (Bus.id (h (TransmissionLine.from_bus line)) = b
                 /\ Bus.id (h (TransmissionLine.to_bus line)) = a))
     | None =>
         forall line,
           In line (Dict.values (Grid.lines g)) ->
           ~ (Bus.id (h (TransmissionLine.from_bus line)) = a
              /\ Bus.id (h (TransmissionLine.to_bus line)) = b)
           /\ ~ (Bus.id (h (TransmissionLine.from_bus line)) = b
                 /\ Bus.id (h (TransmissionLine.to_bus line)) = a)
     end.
Proof.
  split.
  - unfold Grid.get_line_between.
    induction (Dict.values (Grid.lines g)) as [| line ls IH]; cbn;
      [reflexivity |].
    rewrite IH. now rewrite orb_comm.
  - unfold Grid.get_line_between.
    destruct (find _ (Dict.values (Grid.lines g))) as [line |] eqn:E.
    + apply find_some in E. destruct E as [Hin Hc]. split; [exact Hin |].
      apply orb_true_iff in Hc.
      destruct Hc as [Hc | Hc]; apply andb_true_iff in Hc;
        destruct Hc as [H1 H2]; apply Z.eqb_eq in H1, H2; tauto.
    + intros line Hin. pose proof (find_none _ _ E line Hin) as Hc.
      apply orb_false_iff in Hc. destruct Hc as [H1 H2].
      apply andb_false_iff in H1, H2.
      split; intros [E1 E2]; rewrite <- Z.eqb_eq in E1, E2;
        [destruct H1 | destruct H2]; congruence.
Qed.

Lemma dict_get_some_key {V : Type} (d : Dict.t V) (k : Z) (v : V) :
  Dict.get d k = Some v -> In k (Dict.keys d).
Proof.
  intros H. destruct (in_dec Z.eq_dec k (Dict.keys d)) as [Hin | Hn];
    [exact Hin |].
  apply dict_get_none in Hn. congruence.
Qed.

(** One of the two [if ... not in ...: ....append(...)] steps of [add_line]. *)
Lemma append_neighbor (g : Grid.t) (a0 b0 : Z) (l : list Z) :
  Dict.get (Grid.adjacency g) a0 = Some l ->
  let g' :=
    if Grid.mem b0 l then g
    else Grid.set_adjacency g (Dict.set (Grid.adjacency g) a0 (l ++ [b0])) in
  (forall a b,
     In b (Grid.get_neighbors g' a)
     <-> In b (Grid.get_neighbors g a) \/ (a = a0 /\ b = b0))
  /\ ((forall a, NoDup (Grid.get_neighbors g a)) ->
      forall a, NoDup (Grid.get_neighbors g' a))
  /\ Dict.keys (Grid.adjacency g') = Dict.keys (Grid.adjacency g)
  /\ Grid.buses g' = Grid.buses g /\ Grid.lines g' = Grid.lines g.
Proof.
  intros Hget. cbv zeta.
  destruct (Grid.mem b0 l) eqn:Hmem.
  - apply mem_In in Hmem. split; [| split; [| split; [| split]]];
      try reflexivity; try tauto.
    intros a b. split; [tauto |]. intros [H | [-> ->]]; [exact H |].
    unfold Grid.get_neighbors. now rewrite Hget.
  - assert (Hnot : ~ In b0 l).
    { intros Hin. apply mem_In in Hin. congruence. }
    assert (Hn : forall a,
               Grid.get_neighbors
                 (Grid.set_adjacency g
                    (Dict.set (Grid.adjacency g) a0 (l ++ [b0]))) a
               = if Z.eqb a a0 then l ++ [b0] else Grid.get_neighbors g a).
    { intros a. unfold Grid.get_neighbors, Grid.set_adjacency. cbn.
      rewrite dict_get_set. now destruct (Z.eqb a a0). }
    split; [| split; [| split; [| split]]]; try reflexivity.
    + intros a b. rewrite Hn. destruct (Z.eqb_spec a a0) as [-> | N].
      * unfold Grid.get_neighbors. rewrite Hget, in_app_iff. cbn.
        intuition congruence.
      * intuition congruence.
    + intros Hnd a. rewrite Hn. destruct (Z.eqb_spec a a0) as [-> | N];
        [| apply Hnd].
      specialize (Hnd a0). unfold Grid.get_neighbors in Hnd.
      rewrite Hget in Hnd.
      apply NoDup_app; [exact Hnd | repeat constructor; intros [] | ].
      intros x Hx [E | []]. subst x. contradiction.
    + cbn. now apply dict_keys_set_present with l.
Qed.

(** What [add_line] does to the grid when it returns. *)
Lemma add_line_returns (h : Heap) (g g' : Grid.t) (line : TransmissionLine.t) :
  Grid.add_line h g line = Return g' tt ->
  let from_id := Bus.id (h (TransmissionLine.from_bus line)) in
  let to_id := Bus.id (h (TransmissionLine.to_bus line)) in
  Grid.buses g' = Grid.buses g
  /\ Grid.lines g' = Dict.set (Grid.lines g) (TransmissionLine.id line) line
  /\ Dict.keys (Grid.adjacency g') = Dict.keys (Grid.adjacency g)
  /\ In from_id (Dict.keys (Grid.adjacency g))
  /\ In to_id (Dict.keys (Grid.adjacency g))
  /\ (forall a b,
        In b (Grid.get_neighbors g' a)
        <-> In b (Grid.get_neighbors g a)
            \/ (a = from_id /\ b = to_id) \/ (a = to_id /\ b = from_id))
  /\ ((forall a, NoDup (Grid.get_neighbors g a)) ->
      forall a, NoDup (Grid.get_neighbors g' a)).
Proof.
  intros Hadd from_id to_id. unfold Grid.add_line in Hadd.
  fold from_id to_id in Hadd.
  set (g1 := Grid.set_lines g
               (Dict.set (Grid.lines g) (TransmissionLine.id line) line)) in *.
  destruct (Dict.get (Grid.adjacency g1) from_id) as [adj_from |] eqn:Hf;
    [| discriminate].
  destruct (append_neighbor g1 from_id to_id adj_from Hf)
    as [Hn1 [Hd1 [Hk1 [Hb1 Hl1]]]].
  cbv zeta in Hn1, Hd1, Hk1, Hb1, Hl1.
  set (g2 := if Grid.mem to_id adj_from then g1
             else Grid.set_adjacency g1
                    (Dict.set (Grid.adjacency g1) from_id
                       (adj_from ++ [to_id]))) in *.
  destruct (Dict.get (Grid.adjacency g2) to_id) as [adj_to |] eqn:Ht;
    [| discriminate].
  destruct (append_neighbor g2 to_id from_id adj_to Ht)
    as [Hn2 [Hd2 [Hk2 [Hb2 Hl2]]]].
  cbv zeta in Hn2, Hd2, Hk2, Hb2, Hl2.
  set (g3 := if Grid.mem from_id adj_to then g2
             else Grid.set_adjacency g2
                    (Dict.set (Grid.adjacency g2) to_id
                       (adj_to ++ [from_id]))) in *.
  inversion Hadd. subst g'. clear Hadd. cbn [Grid.buses Grid.lines Grid.adjacency].
  assert (Hsame : forall a,
             Grid.get_neighbors
               (Grid.mk (Grid.name g3) (Grid.buses g3) (Grid.lines g3)
                  (Grid.adjacency g3) (Grid.y_bus g3) false) a
             = Grid.get_neighbors g3 a) by reflexivity.
  split; [now rewrite Hb2, Hb1 |].
  split; [now rewrite Hl2, Hl1 |].
  split; [now rewrite Hk2, Hk1 |].
  change (Grid.adjacency g1) with (Grid.adjacency g) in *.
  split; [exact (dict_get_some_key _ _ _ Hf) |].
  split.
  { rewrite <- Hk1. exact (dict_get_some_key _ _ _ Ht). }
  clear Hk1.
  split.
  - intros a b. rewrite Hsame, Hn2, Hn1.
    change (Grid.get_neighbors g1 a) with (Grid.get_neighbors g a). tauto.
  - intros Hnd a. rewrite Hsame. apply Hd2, Hd1. exact Hnd.
Qed.

(** X11: when the ids of both ends of a line are keys of the adjacency
    lists, [add_line] returns; the line is then found under its id, the
    buses are unchanged, and the neighbour relation has gained exactly the
    pair of the two ends, in both directions. *)
Theorem add_line_registers (h : Heap) (g : Grid.t) (line : TransmissionLine.t) :
  let from_id := Bus.id (h (TransmissionLine.from_bus line)) in
  let to_id := Bus.id (h (TransmissionLine.to_bus line)) in
  In from_id (Dict.keys (Grid.adjacency g)) ->
  In to_id (Dict.keys (Grid.adjacency g)) ->
  exists g',
    Grid.add_line h g line = Return g' tt
    /\ Grid.get_line g' (TransmissionLine.id line) = Some line
    /\ Grid.buses g' = Grid.buses g
    /\ Dict.keys (Grid.adjacency g') = Dict.keys (Grid.adjacency g)
    /\ forall a b,
         In b (Grid.get_neighbors g' a)
         <-> In b (Grid.get_neighbors g a)
             \/ (a = from_id /\ b = to_id) \/ (a = to_id /\ b = from_id).
Proof.
  intros from_id to_id Hf Ht.
  assert (Hex : exists g', Grid.add_line h g line = Return g' tt).
  { unfold Grid.add_line. fold from_id to_id.
    set (g1 := Grid.set_lines g
                 (Dict.set (Grid.lines g) (TransmissionLine.id line) line)).
    destruct (Dict.get (Grid.adjacency g1) from_id) as [adj_from |] eqn:Ef.
    2:{ apply dict_get_none in Ef. contradiction. }
    destruct (append_neighbor g1 from_id to_id adj_from Ef)
      as [_ [_ [Hk1 _]]]. cbv zeta in Hk1.
    destruct (Dict.get (Grid.adjacency _) to_id) as [adj_to |] eqn:Et.
    - eexists. reflexivity.
    - apply dict_get_none in Et. rewrite Hk1 in Et. contradiction. }
  destruct Hex as [g' Hadd]. exists g'.
  destruct (add_line_returns h g g' line Hadd)
    as [Hb [Hl [Hk [_ [_ [Hn _]]]]]].
  split; [exact Hadd |]. split.
  { unfold Grid.get_line. rewrite Hl. apply dict_get_set_same. }
  split; [exact Hb |]. split; [exact Hk | exact Hn].
Qed.

Lemma add_line_registers_witness :
  In (Bus.id (Sample.heap (TransmissionLine.from_bus Sample.line1)))
     (Dict.keys (Grid.adjacency Sample.grid_no_line))
  /\ In (Bus.id (Sample.heap (TransmissionLine.to_bus Sample.line1)))
        (Dict.keys (Grid.adjacency Sample.grid_no_line))
  /\ exists g',
       Grid.add_line Sample.heap Sample.grid_no_line Sample.line1
       = Return g' tt
       /\ Grid.get_line g' 1 = Some Sample.line1.
Proof.
  assert (Hf : In (Bus.id (Sample.heap (TransmissionLine.from_bus Sample.line1)))
                  (Dict.keys (Grid.adjacency Sample.grid_no_line)))
    by (cbn; tauto).
  assert (Ht : In (Bus.id (Sample.heap (TransmissionLine.to_bus Sample.line1)))
                  (Dict.keys (Grid.adjacency Sample.grid_no_line)))
    by (cbn; tauto).
  split; [exact Hf | split; [exact Ht |]].
  destruct (add_line_registers Sample.heap Sample.grid_no_line Sample.line1
              Hf Ht) as [g' [Hadd [Hget _]]].
  exists g'. split; [exact Hadd | exact Hget].
Defined.

Lemma add_bus_consistent (h : Heap) (g : Grid.t) (bus : BusRef) :
  adjacency_consistent h g ->
  Dict.get (Grid.buses g) (Bus.id (h bus)) = None ->
  adjacency_consistent h (Grid.add_bus h g bus).
Proof.
  intros [Hk Hs Hd Hr Hl] Hfresh.
  assert (Hadj : Dict.get (Grid.adjacency g) (Bus.id (h bus)) = None).
  { apply dict_get_none. rewrite Hk. now apply dict_get_none. }
  assert (Hn : forall a,
             Grid.get_neighbors (Grid.add_bus h g bus) a
             = Grid.get_neighbors g a).
  { intros a. unfold Grid.get_neighbors, Grid.add_bus. cbn.
    rewrite dict_get_set. destruct (Z.eqb_spec a (Bus.id (h bus))) as [-> | N];
      [now rewrite Hadj | reflexivity]. }
  assert (Hkeys : Dict.keys (Grid.buses (Grid.add_bus h g bus))
                  = Dict.keys (Grid.buses g) ++ [Bus.id (h bus)]).
  { unfold Grid.add_bus. cbn. now apply dict_keys_set_absent. }
  assert (Hakeys : Dict.keys (Grid.adjacency (Grid.add_bus h g bus))
                   = Dict.keys (Grid.adjacency g) ++ [Bus.id (h bus)]).
  { unfold Grid.add_bus. cbn. now apply dict_keys_set_absent. }
  constructor.
  - now rewrite Hkeys, Hakeys, Hk.
  - intros a b. rewrite !Hn. apply Hs.
  - intros a. rewrite Hn. apply Hd.
  - intros a b. rewrite Hn, Hkeys, in_app_iff. intros H. left.
    now apply (Hr a b).
  - intros line Hin. rewrite Hn. now apply Hl.
Qed.

Lemma add_line_consistent (h : Heap) (g g' : Grid.t)
    (line : TransmissionLine.t) :
  adjacency_consistent h g ->
  Grid.add_line h g line = Return g' tt ->
  adjacency_consistent h g'.
Proof.
  intros [Hk Hs Hd Hr Hl] Hadd.
  destruct (add_line_returns h g g' line Hadd)
    as [Hb [Hls [Hkeys [Hf [Ht [Hn Hnd]]]]]].
  constructor.
  - now rewrite Hkeys, Hb.
  - intros a b Hin. apply Hn in Hin. apply Hn.
    destruct Hin as [Hin | [[-> ->] | [-> ->]]]; [left; now apply Hs | |];
      tauto.
  - now apply Hnd.
  - intros a b Hin. apply Hn in Hin. rewrite Hb.
    destruct Hin as [Hin | [[-> ->] | [-> ->]]].
    + now apply (Hr a b).
    + now rewrite <- Hk.
    + now rewrite <- Hk.
  - intros line' Hin. rewrite Hls in Hin. apply dict_values_set in Hin.
    apply Hn. destruct Hin as [-> | Hin]; [tauto | left; now apply Hl].
Qed.

(** X12: in every grid built by [add_bus] calls with ids not yet in use and
    [add_line] calls that return, the adjacency lists have exactly the bus
    ids as keys, record every neighbour relation at both ends and only
    once, name registered buses only, and make the two ends of every line
    of the grid neighbours. *)
Theorem built_grid_adjacency (h : Heap) (g : Grid.t) :
  built h g -> adjacency_consistent h g.
Proof.
  induction 1 as [name | g bus _ IH Hfresh | g g' line _ IH Hadd].
  - constructor; cbn; try reflexivity; try (intros; contradiction).
    intros a. constructor.
  - now apply add_bus_consistent.
  - now apply add_line_consistent with g line.
Qed.

Lemma built_grid_adjacency_witness :
  built Sample.heap Sample.grid_two_bus
  /\ adjacency_consistent Sample.heap Sample.grid_two_bus.
Proof.
  assert (H : built Sample.heap Sample.grid_two_bus).
  { apply built_add_line with Sample.grid_no_line Sample.line1;
      [| exact sample_grid_two_bus].
    apply built_add_bus; [| reflexivity].
    apply built_add_bus; [| reflexivity].
    apply built_init. }
  split; [exact H | exact (built_grid_adjacency _ _ H)].
Defined.

Lemma pi_stamp_symmetric (i j : nat) (y y_shunt : C) (a b : nat) :
  pi_stamp i j y y_shunt a b = pi_stamp i j y y_shunt b a.
Proof.
  unfold pi_stamp.
  destruct (Nat.eqb a i), (Nat.eqb b j), (Nat.eqb a j), (Nat.eqb b i); cbn;
    apply cx_ext; cbn; ring.
Qed.

Lemma line_contribution_symmetric (h : Heap) (bus_ids : list Z)
    (line : TransmissionLine.t) (a b : nat) :
  line_contribution h bus_ids line a b = line_contribution h bus_ids line b a.
Proof.
  unfold line_contribution.
  destruct (TransmissionLine.is_closed line); [| reflexivity].
  destruct (index_of _ bus_ids) as [i |]; [| reflexivity].
  destruct (index_of _ bus_ids) as [j |]; [| reflexivity].
  apply pi_stamp_symmetric.
Qed.

Lemma y_bus_sum_symmetric (h : Heap) (g : Grid.t) (a b : nat) :
  y_bus_sum h g a b = y_bus_sum h g b a.
Proof.
  unfold y_bus_sum. generalize (Cx.mk 0 0).
  induction (Dict.values (Grid.lines g)) as [| line ls IH]; intros acc; cbn.
  - reflexivity.
  - rewrite (line_contribution_symmetric h _ line a b). apply IH.
Qed.

(** X13: the admittance matrix that [build_y_bus] assembles is symmetric:
    when the cache is not valid and the closed lines end on registered
    buses, the call returns a matrix [y] with [y[a, b] = y[b, a]] for all
    indices. *)
Theorem y_bus_symmetric (h : Heap) (g : Grid.t) :
  Grid.y_bus_valid g = false ->
  closed_lines_registered h g ->
  exists y g',
    Grid.build_y_bus h g = Return g' y
    /\ forall a b, Np.entry y a b = Np.entry y b a.
Proof.
  intros Hv Hreg.
  destruct (build_y_bus_returns h g Hreg) as [y [g' [Hb _]]].
  exists y, g'. split; [exact Hb |].
  pose proof (build_y_bus_rebuilds h g Hv) as Hr. rewrite Hb in Hr.
  destruct Hr as [_ [_ Hsum]]. intros a b.
  rewrite !Hsum. apply y_bus_sum_symmetric.
Qed.

Lemma y_bus_symmetric_witness :
  Grid.y_bus_valid Sample.grid_two_bus = false
  /\ closed_lines_registered Sample.heap Sample.grid_two_bus
  /\ exists y g',
       Grid.build_y_bus Sample.heap Sample.grid_two_bus = Return g' y
       /\ Np.entry y 0 1 = Np.entry y 1 0.
Proof.
  split; [reflexivity | split; [exact sample_grid_registered |]].
  destruct (y_bus_symmetric Sample.heap Sample.grid_two_bus eq_refl
              sample_grid_registered) as [y [g' [Hb Hs]]].
  exists y, g'. split; [exact Hb | apply Hs].
Defined.

Lemma filter_all_false {A : Type} (f : A -> bool) (l : list A) :
  (forall x, In x l -> f x = false) -> filter f l = [].
Proof.
  induction l as [| x l IH]; cbn; intros H; [reflexivity |].
  rewrite (H x) by now left. apply IH. intros y Hy. apply H. now right.
Qed.

Lemma clear_buses_at (l : list BusRef) :
  forall (h : Heap) (bus : BusRef),
    let h' :=
      fold_left (fun h bus => heap_set h bus (Bus.clear_fault (h bus))) l h in
    (In bus l -> Bus.is_faulted (h' bus) = false)
    /\ (~ In bus l -> h' bus = h bus).
Proof.
  induction l as [| b l IH]; intros h bus; cbn.
  - split; [contradiction | reflexivity].
  - destruct (IH (heap_set h b (Bus.clear_fault (h b))) bus) as [Hin Hout].
    cbv zeta in Hin, Hout. split.
    + intros [-> | Hl].
      * destruct (in_dec Nat.eq_dec bus l) as [Hl | Hn]; [now apply Hin |].
        rewrite (Hout Hn). unfold heap_set. now rewrite Nat.eqb_refl.
      * now apply Hin.
    + intros Hn. rewrite Hout by tauto. unfold heap_set.
      destruct (Nat.eqb_spec bus b) as [-> | _]; [| reflexivity].
      exfalso. apply Hn. now left.
Qed.

(** X14: after [Grid.clear_all_faults] no bus and no line of the grid is
    faulted, so [get_faulted_elements] returns two empty lists; every line
    is closed, also the ones that were opened by hand, the lines keep
    their ids and the buses outside the grid are not touched. *)
Theorem grid_clear_all_faults_clears (h : Heap) (g : Grid.t) :
  let '(h', g') := Grid.clear_all_faults h g in
  Grid.get_faulted_elements h' g' = ([], [])
  /\ Forall (fun line => TransmissionLine.is_closed line = true)
            (Dict.values (Grid.lines g'))
  /\ Dict.keys (Grid.lines g') = Dict.keys (Grid.lines g)
  /\ Grid.buses g' = Grid.buses g
  /\ forall bus, ~ In bus (Dict.values (Grid.buses g)) -> h' bus = h bus.
Proof.
  unfold Grid.clear_all_faults.
  set (h' := fold_left _ (Dict.values (Grid.buses g)) h).
  set (ls := Dict.map_values _ (Grid.lines g)).
  assert (Hls : forall line, In line (Dict.values ls) ->
                  TransmissionLine.is_faulted line = false
                  /\ TransmissionLine.is_closed line = true).
  { intros line Hin. unfold ls, Dict.values, Dict.map_values in Hin.
    rewrite map_map in Hin. apply in_map_iff in Hin.
    destruct Hin as [[k l0] [<- _]]. cbn.
    destruct (TransmissionLine.is_closed l0) eqn:E; cbn; now rewrite ?E. }
  split; [| split; [| split; [| split]]].
  - unfold Grid.get_faulted_elements. cbn. f_equal.
    + apply filter_all_false. intros bus Hin.
      now apply (clear_buses_at (Dict.values (Grid.buses g)) h bus).
    + apply filter_all_false. intros line Hin. now apply Hls.
  - apply Forall_forall. intros line Hin. now apply Hls.
  - cbn. unfold ls, Dict.keys, Dict.map_values. rewrite map_map. cbn.
    reflexivity.
  - reflexivity.
  - intros bus Hn.
    now apply (clear_buses_at (Dict.values (Grid.buses g)) h bus).
Qed.

Lemma min_of_spec (r : list R) :
  forall x, In (Grid.min_of x r) (x :: r)
            /\ Forall (fun y => Grid.min_of x r <= y) (x :: r).
Proof.
  unfold Grid.min_of.
  induction r as [| z r IH]; intros x; cbn.
  - split; [now left | constructor; [lra | constructor]].
  - destruct (IH (Rmin x z)) as [Hin Hall]. split.
    + destruct Hin as [E | Hin]; [| now right; right].
      rewrite <- E. unfold Rmin. destruct (Rle_dec x z); [now left |].
      right. now left.
    + inversion Hall as [| ? ? Hm Hr]. subst.
      pose proof (Rmin_l x z). pose proof (Rmin_r x z).
      constructor; [lra | constructor; [lra | exact Hr]].
Qed.

Lemma max_of_spec (r : list R) :
  forall x, In (Grid.max_of x r) (x :: r)
            /\ Forall (fun y => y <= Grid.max_of x r) (x :: r).
Proof.
  unfold Grid.max_of.
  induction r as [| z r IH]; intros x; cbn.
  - split; [now left | constructor; [lra | constructor]].
  - destruct (IH (Rmax x z)) as [Hin Hall]. split.
    + destruct Hin as [E | Hin]; [| now right; right].
      rewrite <- E. unfold Rmax. destruct (Rle_dec x z); [right |]; now left.
    + inversion Hall as [| ? ? Hm Hr]. subst.
      pose proof (Rmax_l x z). pose proof (Rmax_r x z).
      constructor; [lra | constructor; [lra | exact Hr]].
Qed.

(** X15: the bounding box of [get_bounds] contains every bus of the grid
    with a margin of 50 on each side, and the margin is exact: on a grid
    that has buses, each side lies 50 beyond a bus.  Without buses the box
    is [(0, 0, 1, 1)]. *)
Theorem get_bounds_contains (h : Heap) (g : Grid.t) :
  let '(x_min, y_min, x_max, y_max) := Grid.get_bounds h g in
  Forall (fun b =>
            x_min + 50 <= Bus.x (h b) <= x_max - 50
            /\ y_min + 50 <= Bus.y (h b) <= y_max - 50)
         (Dict.values (Grid.buses g))
  /\ match Dict.values (Grid.buses g) with
     | [] => (x_min, y_min, x_max, y_max) = (0, 0, 1, 1)
     | _ :: _ =>
         Exists (fun b => Bus.x (h b) = x_min + 50) (Dict.values (Grid.buses g))
         /\ Exists (fun b => Bus.x (h b) = x_max - 50)
                   (Dict.values (Grid.buses g))
         /\ Exists (fun b => Bus.y (h b) = y_min + 50)
                   (Dict.values (Grid.buses g))
         /\ Exists (fun b => Bus.y (h b) = y_max - 50)
                   (Dict.values (Grid.buses g))
     end.
Proof.
  unfold Grid.get_bounds.
  destruct (Dict.values (Grid.buses g)) as [| b0 bs] eqn:E; cbn [map].
  - split; [constructor | reflexivity].
  - set (xs := map (fun b => Bus.x (h b)) bs).
    set (ys := map (fun b => Bus.y (h b)) bs).
    destruct (min_of_spec xs (Bus.x (h b0))) as [Hxi Hxa].
    destruct (max_of_spec xs (Bus.x (h b0))) as [HXi HXa].
    destruct (min_of_spec ys (Bus.y (h b0))) as [Hyi Hya].
    destruct (max_of_spec ys (Bus.y (h b0))) as [HYi HYa].
    change (Bus.x (h b0) :: xs) with (map (fun b => Bus.x (h b)) (b0 :: bs)) in *.
    change (Bus.y (h b0) :: ys) with (map (fun b => Bus.y (h b)) (b0 :: bs)) in *.
    rewrite Forall_map in Hxa, HXa, Hya, HYa.
    rewrite Forall_forall in Hxa, HXa, Hya, HYa.
    split.
    + apply Forall_forall. intros b Hb.
      specialize (Hxa b Hb). specialize (HXa b Hb).
      specialize (Hya b Hb). specialize (HYa b Hb). cbv beta in *. lra.
    + apply in_map_iff in Hxi, HXi, Hyi, HYi.
      destruct Hxi as [b1 [E1 H1]]. destruct HXi as [b2 [E2 H2]].
      destruct Hyi as [b3 [E3 H3]]. destruct HYi as [b4 [E4 H4]].
      repeat split; apply Exists_exists;
        [exists b1 | exists b2 | exists b3 | exists b4];
        (split; [assumption | lra]).
Qed.

(** ** The fault simulator: bus faults, and injecting then clearing *)

Lemma sequence_to_phase_zero :
  FaultModel.sequence_to_phase (Cx.mk 0 0) (Cx.mk 0 0) (Cx.mk 0 0)
  = (Cx.zero, Cx.zero, Cx.zero).
Proof.
  rewrite sequence_to_phase_eq. cbv zeta.
  f_equal; [f_equal |]; apply cx_ext; cbn; ring.
Qed.

(** X16: [inject_bus_fault] on a registered bus, when the sequence networks
    can be built: the bus object is marked faulted with the kind of the
    fault and no other bus object changes, the [Fault] record is appended
    to the active faults, and the phase currents stored for it are the
    magnitudes, times the base current, of what the fault model gives for
    the diagonal entries of the three sequence matrices at the index of the
    bus. *)
Theorem inject_bus_fault_records `{Numpy} (w : FaultSimulator.world)
    (bus_id : Z) (ft : FaultType) (resistance : R) (new_oid : Z)
    (bus : BusRef) (g' : Grid.t) (z0_bus z1_bus z2_bus : Np.cmatrix) :
  Grid.get_bus (FaultSimulator.grid w) bus_id = Some bus ->
  Impedance.build_sequence_networks
    (heap_set (FaultSimulator.heap w) bus
       (Bus.apply_fault (FaultSimulator.heap w bus) ft))
    (FaultSimulator.grid w)
  = Return g' (z0_bus, z1_bus, z2_bus) ->
  let fault := Fault.mk new_oid ft AtBus bus_id 0.5 resistance true false None in
  exists w' idx i0 i1 i2 ia ib ic,
    FaultSimulator.inject_bus_fault w bus_id ft resistance new_oid
    = Return w' (Some fault)
    /\ FaultSimulator.active_faults (FaultSimulator.self w')
       = FaultSimulator.active_faults (FaultSimulator.self w) ++ [fault]
    /\ Bus.is_faulted (FaultSimulator.heap w' bus) = true
    /\ Bus.fault_type (FaultSimulator.heap w' bus) = Some ft
    /\ (forall r, r <> bus ->
          FaultSimulator.heap w' r = FaultSimulator.heap w r)
    /\ index_of bus_id (sorted (Dict.keys (Grid.buses (FaultSimulator.grid w))))
       = Some idx
    /\ get_fault_model ft (Cx.mk 1.0 0) (Np.entry z0_bus idx idx)
         (Np.entry z1_bus idx idx) (Np.entry z2_bus idx idx)
         (resistance / Config.IMPEDANCE_BASE)
       = Some (i0, i1, i2)
    /\ FaultModel.sequence_to_phase i0 i1 i2 = (ia, ib, ic)
    /\ FaultSimulator.get_fault_current (FaultSimulator.self w') fault
       = Some (Cx.abs ia * (Config.POWER_BASE * 1e6 / (sqrt 3 * 220e3)),
               Cx.abs ib * (Config.POWER_BASE * 1e6 / (sqrt 3 * 220e3)),
               Cx.abs ic * (Config.POWER_BASE * 1e6 / (sqrt 3 * 220e3))).
Proof.
  intros Hget Hseq fault.
  pose proof (build_sequence_networks_frame
                (heap_set (FaultSimulator.heap w) bus
                   (Bus.apply_fault (FaultSimulator.heap w bus) ft))
                (FaultSimulator.grid w)) as [Hb _].
  rewrite Hseq in Hb. cbn in Hb.
  assert (Hkey : In bus_id (Dict.keys (Grid.buses (FaultSimulator.grid w))))
    by exact (dict_get_some_key _ _ _ Hget).
  destruct (index_of_sorted_key _ _ Hkey) as [idx Hidx].
  destruct (fault_model_defined ft (Cx.mk 1.0 0) (Np.entry z0_bus idx idx)
              (Np.entry z1_bus idx idx) (Np.entry z2_bus idx idx)
              (resistance / Config.IMPEDANCE_BASE)) as [i0 [i1 [i2 Hm]]].
  destruct (FaultModel.sequence_to_phase i0 i1 i2) as [[ia ib] ic] eqn:Hp.
  unfold FaultSimulator.inject_bus_fault. rewrite Hget. fold fault.
  unfold FaultSimulator._calculate_bus_fault_current.
  cbn [FaultSimulator.heap FaultSimulator.grid FaultSimulator.self].
  rewrite Hseq.
  cbn [FaultSimulator.with_grid FaultSimulator.heap FaultSimulator.grid
       FaultSimulator.self].
  rewrite Hb, Hidx.
  change (Fault.element_id fault) with bus_id.
  change (Fault.fault_type fault) with ft.
  change (Fault.resistance fault) with resistance.
  rewrite Hidx, Hm, Hp.
  eexists. exists idx, i0, i1, i2, ia, ib, ic.
  split; [reflexivity |].
  cbn [FaultSimulator.heap FaultSimulator.grid FaultSimulator.self
       FaultSimulator.active_faults FaultSimulator.fault_currents].
  split; [reflexivity |].
  split; [unfold heap_set; now rewrite Nat.eqb_refl |].
  split; [unfold heap_set; now rewrite Nat.eqb_refl |].
  split.
  { intros r Hr. unfold heap_set.
    destruct (Nat.eqb_spec r bus); [contradiction | reflexivity]. }
  split; [first [reflexivity | exact Hidx] |].
  split; [first [exact Hm | reflexivity] |].
  split; [first [exact Hp | reflexivity] |].
  unfold FaultSimulator.get_fault_current.
  cbn [FaultSimulator.fault_currents]. apply dict_get_set_same.
Qed.

Lemma sample_no_line_sequence_networks (h : Heap) :
  exists g' z0_bus z1_bus z2_bus,
    @Impedance.build_sequence_networks Sample.numpy2 h Sample.grid_no_line
    = Return g' (z0_bus, z1_bus, z2_bus).
Proof.
  destruct sample_inv_zeros as [z Hz].
  assert (Hy : exists g1,
    Grid.build_y_bus h Sample.grid_no_line = Return g1 (Np.zeros 2)
    /\ Grid.n_buses g1 = 2%nat
    /\ Impedance.stamp0_lines h
         (fun k => index_of k (sorted (Dict.keys (Grid.buses g1))))
         (Np.zeros 2) (Dict.values (Grid.lines g1)) = Some (Np.zeros 2)).
  { eexists. split; [reflexivity |]. split; reflexivity. }
  destruct Hy as [g1 [Hy [Hn H0]]].
  unfold Impedance.build_sequence_networks, Grid.build_z_bus.
  rewrite Hy. cbv beta iota. rewrite Hn, Hz. cbv beta iota zeta.
  rewrite Hn, H0, Hz. do 4 eexists. reflexivity.
Qed.

Lemma inject_bus_fault_records_witness :
  Grid.get_bus Sample.grid_no_line 1 = Some 0%nat
  /\ exists w',
       @FaultSimulator.inject_bus_fault Sample.numpy2
         (FaultSimulator.mkw Sample.heap Sample.grid_no_line FaultSimulator.init)
         1 SLG 0 7
       = Return w' (Some (Fault.mk 7 SLG AtBus 1 0.5 0 true false None))
       /\ Bus.is_faulted (FaultSimulator.heap w' 0%nat) = true.
Proof.
  assert (Hget : Grid.get_bus Sample.grid_no_line 1 = Some 0%nat)
    by reflexivity.
  split; [exact Hget |].
  destruct (sample_no_line_sequence_networks
              (heap_set Sample.heap 0%nat (Bus.apply_fault (Sample.heap 0%nat) SLG)))
    as [g' [z0 [z1 [z2 Hseq]]]].
  destruct (@inject_bus_fault_records Sample.numpy2
              (FaultSimulator.mkw Sample.heap Sample.grid_no_line
                 FaultSimulator.init)
              1 SLG 0 7 0%nat g' z0 z1 z2 Hget Hseq)
    as [w' [idx [i0 [i1 [i2 [ia [ib [ic [Hinj [_ [Hf _]]]]]]]]]]].
  exists w'. split; [exact Hinj | exact Hf].
Defined.

Lemma calculate_line_fault_current_frame `{Numpy}
    (w : FaultSimulator.world) (fault : Fault.t) :
  let w' := state_of (FaultSimulator._calculate_line_fault_current w fault) in
  FaultSimulator.heap w' = FaultSimulator.heap w
  /\ Grid.lines (FaultSimulator.grid w') = Grid.lines (FaultSimulator.grid w)
  /\ Grid.buses (FaultSimulator.grid w') = Grid.buses (FaultSimulator.grid w)
  /\ FaultSimulator.active_faults (FaultSimulator.self w')
     = FaultSimulator.active_faults (FaultSimulator.self w).
Proof.
  cbv zeta. unfold FaultSimulator._calculate_line_fault_current.
  destruct (Grid.get_line _ _) as [line |]; [| cbn; tauto].
  pose proof (build_sequence_networks_frame (FaultSimulator.heap w)
                (FaultSimulator.grid w)) as [Hb Hl].
  destruct (Impedance.build_sequence_networks _ _) as [g1 [[z0 z1] z2] | g1 e];
    cbn in Hb, Hl; [| cbn; tauto].
  cbn [FaultSimulator.with_grid FaultSimulator.heap FaultSimulator.grid
       FaultSimulator.self].
  destruct (index_of _ _) as [from_idx |]; [| cbn; tauto].
  destruct (get_fault_model _ _ _ _ _ _) as [[[i0 i1] i2] |]; [| cbn; tauto].
  destruct (FaultModel.sequence_to_phase i0 i1 i2) as [[ia ib] ic].
  cbn. tauto.
Qed.

Lemma mutate_line_get_other (g : Grid.t) (k k' : Z)
    (method : TransmissionLine.t -> TransmissionLine.t) :
  k' <> k -> Grid.get_line (mutate_line g k method) k' = Grid.get_line g k'.
Proof.
  intros N. unfold mutate_line.
  destruct (Grid.get_line g k) as [line |]; [| reflexivity].
  unfold Grid.get_line. cbn. now apply dict_get_set_other.
Qed.

Lemma remove_first_last (x f : Fault.t) (old : list Fault.t) :
  (forall e, In e old -> Fault.py_eq e x = false) ->
  Fault.py_eq f x = true ->
  existsb (fun e => Fault.py_eq e x) (old ++ [f]) = true
  /\ FaultSimulator.remove_first x (old ++ [f]) = old.
Proof.
  intros Hold Hf. induction old as [| e old IH]; cbn.
  - rewrite Hf. split; reflexivity.
  - rewrite (Hold e) by now left. cbn.
    destruct IH as [IH1 IH2]; [intros e' He'; apply Hold; now right |].
    split; [exact IH1 | now rewrite IH2].
Qed.

(** X17: injecting a fault on a line and clearing it again.  When the
    faults already listed are active and are other objects than the new
    one, [clear_fault] on the fault that [inject_line_fault] returned puts
    the list of active faults back as it was and leaves the line not
    faulted; for an OPEN fault the line is closed, for the other kinds its
    breaker is as before the injection.  The position recorded on the line
    and the currents stored for the fault stay, and bus objects and the
    other lines are not touched. *)
Theorem inject_then_clear_line_fault `{Numpy} (w w1 : FaultSimulator.world)
    (line_id : Z) (ft : FaultType) (position resistance : R) (new_oid : Z)
    (fault : Fault.t) (line0 : TransmissionLine.t) :
  Grid.get_line (FaultSimulator.grid w) line_id = Some line0 ->
  (forall e, In e (FaultSimulator.active_faults (FaultSimulator.self w)) ->
     Fault.oid e <> new_oid /\ Fault.is_active e = true) ->
  FaultSimulator.inject_line_fault w line_id ft position resistance new_oid
  = Return w1 (Some fault) ->
  let w2 := FaultSimulator.clear_fault w1 fault in
  FaultSimulator.active_faults (FaultSimulator.self w2)
  = FaultSimulator.active_faults (FaultSimulator.self w)
  /\ FaultSimulator.get_fault_current (FaultSimulator.self w2) fault
     = FaultSimulator.get_fault_current (FaultSimulator.self w1) fault
  /\ FaultSimulator.heap w2 = FaultSimulator.heap w
  /\ Grid.buses (FaultSimulator.grid w2) = Grid.buses (FaultSimulator.grid w)
  /\ (exists line2,
        Grid.get_line (FaultSimulator.grid w2) line_id = Some line2
        /\ TransmissionLine.is_faulted line2 = false
        /\ TransmissionLine.fault_type line2 = None
        /\ TransmissionLine.is_closed line2
           = (if FaultType_eqb ft OPEN then true
              else TransmissionLine.is_closed line0)
        /\ TransmissionLine.fault_location line2
           = Rmax 0.0 (Rmin 1.0 position)
        /\ TransmissionLine.z_pu line2 = TransmissionLine.z_pu line0
        /\ TransmissionLine.from_bus line2 = TransmissionLine.from_bus line0
        /\ TransmissionLine.to_bus line2 = TransmissionLine.to_bus line0)
  /\ forall k, k <> line_id ->
       Grid.get_line (FaultSimulator.grid w2) k
       = Grid.get_line (FaultSimulator.grid w) k.
Proof.
  intros Hget Hold Hinj.
  unfold FaultSimulator.inject_line_fault in Hinj. rewrite Hget in Hinj.
  set (alpha := Rmax 0.0 (Rmin 1.0 position)) in *.
  set (f0 := Fault.mk new_oid ft AtLine line_id alpha resistance true false
               None) in *.
  change (mutate_line
            (if FaultType_eqb ft OPEN
             then mutate_line (FaultSimulator.grid w) line_id
                    TransmissionLine.open_line
             else FaultSimulator.grid w)
            line_id (fun line => TransmissionLine.apply_fault line ft alpha))
    with (marked_grid (FaultSimulator.grid w) line_id ft alpha) in Hinj.
  set (wm := FaultSimulator.with_grid w
               (marked_grid (FaultSimulator.grid w) line_id ft alpha)) in *.
  pose proof (calculate_line_fault_current_frame wm f0) as Hframe.
  cbv zeta in Hframe.
  destruct (FaultSimulator._calculate_line_fault_current wm f0)
    as [wc [] | wc e]; [| discriminate].
  cbn [state_of] in Hframe. destruct Hframe as [Hh [Hl [Hb Ha]]].
  inversion Hinj. subst w1 fault. clear Hinj.
  set (l1 := if FaultType_eqb ft OPEN
             then TransmissionLine.open_line line0 else line0).
  assert (Hm : Grid.get_line (marked_grid (FaultSimulator.grid w) line_id ft alpha)
                 line_id
               = Some (TransmissionLine.apply_fault l1 ft alpha)
               /\ Grid.buses (marked_grid (FaultSimulator.grid w) line_id ft alpha)
                  = Grid.buses (FaultSimulator.grid w)
               /\ forall k, k <> line_id ->
                    Grid.get_line
                      (marked_grid (FaultSimulator.grid w) line_id ft alpha) k
                    = Grid.get_line (FaultSimulator.grid w) k).
  { unfold marked_grid, l1. destruct (FaultType_eqb ft OPEN).
    - destruct (mutate_line_get _ _ _ TransmissionLine.open_line Hget)
        as [Hg1 Hb1].
      destruct (mutate_line_get _ _ _
                  (fun line => TransmissionLine.apply_fault line ft alpha) Hg1)
        as [Hg2 Hb2].
      split; [exact Hg2 |]. split; [exact (eq_trans Hb2 Hb1) |].
      intros k Hk. now rewrite !mutate_line_get_other.
    - destruct (mutate_line_get _ _ _
                  (fun line => TransmissionLine.apply_fault line ft alpha) Hget)
        as [Hg2 Hb2].
      split; [exact Hg2 |]. split; [exact Hb2 |].
      intros k Hk. now rewrite mutate_line_get_other. }
  destruct Hm as [Hgm [Hbm Hom]].
  assert (Hgc : forall k, Grid.get_line (FaultSimulator.grid wc) k
                          = Grid.get_line
                              (marked_grid (FaultSimulator.grid w) line_id ft
                                 alpha) k).
  { intros k. unfold Grid.get_line. now rewrite Hl. }
  cbv zeta. unfold FaultSimulator.clear_fault.
  change (Fault.is_bus_fault (Fault.set_is_active f0 false)) with false.
  change (Fault.element_id (Fault.set_is_active f0 false)) with line_id.
  change (Fault.fault_type (Fault.set_is_active f0 false)) with ft.
  cbv iota.
  cbn [FaultSimulator.with_grid FaultSimulator.heap FaultSimulator.grid
       FaultSimulator.self FaultSimulator.active_faults
       FaultSimulator.fault_currents].
  set (undo := fun line : TransmissionLine.t =>
                 let line := TransmissionLine.clear_fault line in
                 if FaultType_eqb ft OPEN
                 then TransmissionLine.close_line line else line).
  destruct (remove_first_last (Fault.set_is_active f0 false) f0
              (FaultSimulator.active_faults (FaultSimulator.self wc)))
    as [Hex Hrem].
  { intros e He. rewrite Ha in He. destruct (Hold e He) as [Hoid Hact].
    unfold Fault.py_eq. cbn.
    destruct (Z.eqb_spec (Fault.oid e) new_oid) as [E | _]; [contradiction |].
    rewrite Hact. cbn. now rewrite !andb_false_r. }
  { unfold Fault.py_eq. cbn. now rewrite Z.eqb_refl. }
  rewrite Hex.
  cbn [FaultSimulator.heap FaultSimulator.grid FaultSimulator.self
       FaultSimulator.active_faults FaultSimulator.fault_currents].
  rewrite Hrem.
  destruct (mutate_line_get (FaultSimulator.grid wc) line_id
              (TransmissionLine.apply_fault l1 ft alpha) undo
              (eq_trans (Hgc line_id) Hgm)) as [Hg3 Hb3].
  split; [exact Ha |]. split; [reflexivity |]. split; [exact Hh |].
  split; [rewrite Hb3, Hb; exact Hbm |].
  split.
  - exists (undo (TransmissionLine.apply_fault l1 ft alpha)).
    split; [exact Hg3 |].
    unfold undo, l1. destruct (FaultType_eqb ft OPEN); cbn;
      repeat split; try reflexivity; apply clamp_idempotent.
  - intros k Hk. rewrite mutate_line_get_other by exact Hk.
    rewrite Hgc. now apply Hom.
Qed.

Lemma inject_open_line_fault_returns `{Numpy} (w : FaultSimulator.world)
    (line_id : Z) (position resistance : R) (new_oid : Z)
    (line0 : TransmissionLine.t) (g' : Grid.t)
    (zs : Np.cmatrix * Np.cmatrix * Np.cmatrix) :
  Grid.get_line (FaultSimulator.grid w) line_id = Some line0 ->
  In (Bus.id (FaultSimulator.heap w (TransmissionLine.from_bus line0)))
     (Dict.keys (Grid.buses (FaultSimulator.grid w))) ->
  Impedance.build_sequence_networks (FaultSimulator.heap w)
    (marked_grid (FaultSimulator.grid w) line_id OPEN
       (Rmax 0.0 (Rmin 1.0 position)))
  = Return g' zs ->
  let fault :=
    Fault.mk new_oid OPEN AtLine line_id (Rmax 0.0 (Rmin 1.0 position))
             resistance true false None in
  FaultSimulator.inject_line_fault w line_id OPEN position resistance new_oid
  = Return
      (FaultSimulator.mkw (FaultSimulator.heap w) g'
         (FaultSimulator.mk
            (FaultSimulator.active_faults (FaultSimulator.self w) ++ [fault])
            (Dict.set (FaultSimulator.fault_currents (FaultSimulator.self w))
               new_oid (0, 0, 0))))
      (Some fault)
  /\ Grid.lines g'
     = Grid.lines (marked_grid (FaultSimulator.grid w) line_id OPEN
                     (Rmax 0.0 (Rmin 1.0 position))).
Proof.
  intros Hget Hfrom Hseq fault.
  set (alpha := Rmax 0.0 (Rmin 1.0 position)) in *.
  pose proof (build_sequence_networks_frame (FaultSimulator.heap w)
                (marked_grid (FaultSimulator.grid w) line_id OPEN alpha))
    as [Hb Hl].
  rewrite Hseq in Hb, Hl. cbn [state_of] in Hb, Hl.
  split; [| exact Hl].
  set (method := fun line => TransmissionLine.apply_fault line OPEN alpha).
  assert (H2 : Grid.get_line
                 (marked_grid (FaultSimulator.grid w) line_id OPEN alpha) line_id
               = Some (method (TransmissionLine.open_line line0))
               /\ Grid.buses
                    (marked_grid (FaultSimulator.grid w) line_id OPEN alpha)
                  = Grid.buses (FaultSimulator.grid w)).
  { unfold marked_grid. cbn [FaultType_eqb].
    destruct (mutate_line_get _ _ _ TransmissionLine.open_line Hget)
      as [Hg1 Hb1].
    destruct (mutate_line_get _ _ _ method Hg1) as [Hg2 Hb2].
    split; [exact Hg2 | exact (eq_trans Hb2 Hb1)]. }
  destruct H2 as [Hget2 Hb2].
  unfold FaultSimulator.inject_line_fault. rewrite Hget.
  fold alpha. fold fault.
  change (mutate_line
            (if FaultType_eqb OPEN OPEN
             then mutate_line (FaultSimulator.grid w) line_id
                    TransmissionLine.open_line
             else FaultSimulator.grid w)
            line_id (fun line => TransmissionLine.apply_fault line OPEN alpha))
    with (marked_grid (FaultSimulator.grid w) line_id OPEN alpha).
  unfold FaultSimulator._calculate_line_fault_current.
  cbn [FaultSimulator.with_grid FaultSimulator.heap FaultSimulator.grid
       FaultSimulator.self].
  change (Fault.element_id fault) with line_id. rewrite Hget2, Hseq.
  destruct zs as [[z0b z1b] z2b].
  cbn [FaultSimulator.with_grid FaultSimulator.heap FaultSimulator.grid
       FaultSimulator.self].
  rewrite Hb, Hb2.
  change (TransmissionLine.from_bus (method (TransmissionLine.open_line line0)))
    with (TransmissionLine.from_bus line0).
  destruct (index_of_sorted_key _ _ Hfrom) as [from_idx ->].
  change (Fault.fault_type fault) with OPEN.
  cbn [get_fault_model]. unfold OpenCircuitFault.calculate_fault_current.
  rewrite sequence_to_phase_zero.
  cbn [FaultSimulator.heap FaultSimulator.grid FaultSimulator.self
       FaultSimulator.active_faults FaultSimulator.fault_currents].
  rewrite abs_zero, !Rmult_0_l. reflexivity.
Qed.

(** X18: an OPEN fault injected on a line whose from-bus is registered, when
    the sequence networks can be built: the call returns the fault, the
    currents stored for it are zero on the three phases, and the line is
    left open and marked faulted. *)
Theorem open_fault_zero_currents `{Numpy} (w : FaultSimulator.world)
    (line_id : Z) (position resistance : R) (new_oid : Z)
    (line0 : TransmissionLine.t) (g' : Grid.t)
    (zs : Np.cmatrix * Np.cmatrix * Np.cmatrix) :
  Grid.get_line (FaultSimulator.grid w) line_id = Some line0 ->
  In (Bus.id (FaultSimulator.heap w (TransmissionLine.from_bus line0)))
     (Dict.keys (Grid.buses (FaultSimulator.grid w))) ->
  Impedance.build_sequence_networks (FaultSimulator.heap w)
    (marked_grid (FaultSimulator.grid w) line_id OPEN
       (Rmax 0.0 (Rmin 1.0 position)))
  = Return g' zs ->
  exists w' fault line',
    FaultSimulator.inject_line_fault w line_id OPEN position resistance new_oid
    = Return w' (Some fault)
    /\ FaultSimulator.get_fault_current (FaultSimulator.self w') fault
       = Some (0, 0, 0)
    /\ Grid.get_line (FaultSimulator.grid w') line_id = Some line'
    /\ TransmissionLine.is_closed line' = false
    /\ TransmissionLine.is_faulted line' = true.
Proof.
  intros Hget Hfrom Hseq.
  destruct (inject_open_line_fault_returns w line_id position resistance
              new_oid line0 g' zs Hget Hfrom Hseq) as [Hinj Hl].
  eexists. eexists.
  exists (TransmissionLine.apply_fault (TransmissionLine.open_line line0) OPEN
            (Rmax 0.0 (Rmin 1.0 position))).
  split; [exact Hinj |].
  cbn [FaultSimulator.self FaultSimulator.grid].
  split.
  { unfold FaultSimulator.get_fault_current.
    cbn [FaultSimulator.fault_currents Fault.oid]. apply dict_get_set_same. }
  split; [| split; reflexivity].
  unfold Grid.get_line. rewrite Hl. unfold marked_grid. cbn [FaultType_eqb].
  destruct (mutate_line_get _ _ _ TransmissionLine.open_line Hget) as [Hg1 _].
  exact (proj1 (mutate_line_get _ _ _
                  (fun line => TransmissionLine.apply_fault line OPEN
                                 (Rmax 0.0 (Rmin 1.0 position))) Hg1)).
Qed.

Lemma open_fault_zero_currents_witness :
  Grid.get_line Sample.grid_two_bus 1 = Some Sample.line1
  /\ In (Bus.id (Sample.heap (TransmissionLine.from_bus Sample.line1)))
        (Dict.keys (Grid.buses Sample.grid_two_bus))
  /\ exists w' fault,
       @FaultSimulator.inject_line_fault Sample.numpy2
         (FaultSimulator.mkw Sample.heap Sample.grid_two_bus FaultSimulator.init)
         1 OPEN 0.3 0 7
       = Return w' (Some fault)
       /\ FaultSimulator.get_fault_current (FaultSimulator.self w') fault
          = Some (0, 0, 0).
Proof.
  assert (Hget : Grid.get_line Sample.grid_two_bus 1 = Some Sample.line1)
    by reflexivity.
  assert (Hfrom :
    In (Bus.id (Sample.heap (TransmissionLine.from_bus Sample.line1)))
       (Dict.keys (Grid.buses Sample.grid_two_bus)))
    by (left; reflexivity).
  split; [exact Hget | split; [exact Hfrom |]].
  destruct sample_open_sequence_networks as [g' [zs Hseq]].
  destruct (@open_fault_zero_currents Sample.numpy2
              (FaultSimulator.mkw Sample.heap Sample.grid_two_bus
                 FaultSimulator.init)
              1 0.3 0 7 Sample.line1 g' zs Hget Hfrom Hseq)
    as [w' [fault [line' [Hinj [Hc _]]]]].
  exists w', fault. split; [exact Hinj | exact Hc].
Defined.

Lemma inject_then_clear_line_fault_witness :
  Grid.get_line Sample.grid_two_bus 1 = Some Sample.line1
  /\ exists w1 fault,
       @FaultSimulator.inject_line_fault Sample.numpy2
         (FaultSimulator.mkw Sample.heap Sample.grid_two_bus FaultSimulator.init)
         1 OPEN 0.3 0 7
       = Return w1 (Some fault)
       /\ FaultSimulator.active_faults
            (FaultSimulator.self (FaultSimulator.clear_fault w1 fault))
          = []
       /\ FaultSimulator.get_fault_current
            (FaultSimulator.self (FaultSimulator.clear_fault w1 fault)) fault
          = Some (0, 0, 0).
Proof.
  assert (Hget : Grid.get_line Sample.grid_two_bus 1 = Some Sample.line1)
    by reflexivity.
  assert (Hfrom :
    In (Bus.id (Sample.heap (TransmissionLine.from_bus Sample.line1)))
       (Dict.keys (Grid.buses Sample.grid_two_bus)))
    by (left; reflexivity).
  split; [exact Hget |].
  destruct sample_open_sequence_networks as [g' [zs Hseq]].
  destruct (@inject_open_line_fault_returns Sample.numpy2
              (FaultSimulator.mkw Sample.heap Sample.grid_two_bus
                 FaultSimulator.init)
              1 0.3 0 7 Sample.line1 g' zs Hget Hfrom Hseq) as [Hinj _].
  eexists. eexists. split; [exact Hinj |].
  assert (Hold : forall e,
             In e (FaultSimulator.active_faults
                     (FaultSimulator.self
                        (FaultSimulator.mkw Sample.heap Sample.grid_two_bus
                           FaultSimulator.init))) ->
             Fault.oid e <> 7%Z /\ Fault.is_active e = true)
    by (intros e []).
  destruct (@inject_then_clear_line_fault Sample.numpy2
              (FaultSimulator.mkw Sample.heap Sample.grid_two_bus
                 FaultSimulator.init)
              _ 1 OPEN 0.3 0 7 _ Sample.line1 Hget Hold Hinj) as [Ha [Hc _]].
  split; [exact Ha |]. rewrite Hc.
  unfold FaultSimulator.get_fault_current.
  cbn [FaultSimulator.self FaultSimulator.fault_currents Fault.oid].
  apply dict_get_set_same.
Defined.

(** ** The power-flow solver: what a converged run guarantees *)

Lemma max_abs_bound (l : list R) (m : R) :
  PowerFlow.max_abs l = Some m -> Forall (fun x => Rabs x <= m) l.
Proof.
  destruct l as [| x r]; cbn; [discriminate |].
  intros E. inversion E as [Em]. clear E.
  assert (Hgen : forall r acc,
             acc <= fold_left (fun acc y => Rmax acc (Rabs y)) r acc
             /\ Forall (fun y => Rabs y
                                <= fold_left (fun acc y => Rmax acc (Rabs y))
                                             r acc) r).
  { clear. induction r as [| z r IH]; intros acc; cbn.
    - split; [lra | constructor].
    - destruct (IH (Rmax acc (Rabs z))) as [H1 H2].
      pose proof (Rmax_l acc (Rabs z)). pose proof (Rmax_r acc (Rabs z)).
      split; [lra |]. constructor; [lra | exact H2]. }
  destruct (Hgen r (Rabs x)) as [H1 H2].
  constructor; [exact H1 | exact H2].
Qed.

Lemma newton_raphson_converged `{Numpy} (n : nat) (y_bus : Np.cmatrix)
    (p_spec q_spec : nat -> R) (non_slack pq_indices : list nat) (tol : R) :
  forall (fuel iteration : nat) (mm : option R) (v_mag v_ang : nat -> R)
         (iteration' : nat) (m : R) (v_mag' v_ang' : nat -> R),
    PowerFlow.newton_raphson fuel iteration mm n y_bus p_spec q_spec
      non_slack pq_indices tol v_mag v_ang
    = PowerFlow.Converged iteration' m v_mag' v_ang' ->
    m < tol
    /\ (iteration <= iteration' < iteration + fuel)%nat
    /\ PowerFlow.max_abs
         (map (fun i => p_spec i
                        - fst (PowerFlow._calculate_power n y_bus v_mag' v_ang') i)
              non_slack
          ++ map (fun i => q_spec i
                           - snd (PowerFlow._calculate_power n y_bus v_mag' v_ang') i)
                 pq_indices)
       = Some m.
Proof.
  induction fuel as [| fuel IH]; intros iteration mm v_mag v_ang
    iteration' m v_mag' v_ang' Hrun.
  - discriminate Hrun.
  - rewrite newton_raphson_step in Hrun. cbv zeta in Hrun.
    destruct (PowerFlow.max_abs _) as [m0 |] eqn:Hmax; [| discriminate].
    destruct (Rlt_dec m0 tol) as [Hlt | Hge].
    + inversion Hrun. subst. split; [exact Hlt |]. split; [lia | exact Hmax].
    + destruct (PowerFlow.solve_corrections _ _) as [corrections |];
        [| discriminate].
      apply IH in Hrun. destruct Hrun as [H1 [H2 H3]].
      split; [exact H1 |]. split; [lia | exact H3].
Qed.

(** X19: [solve] on a solver whose [converged] flag is not set.  When it
    returns [True], the Newton-Raphson loop has ended on a state whose
    largest mismatch [m] is below the tolerance, after at most
    [max_iterations] iterations; the solver records [m] and the number of
    iterations, and at the voltages the loop ended on the active-power
    mismatch of every non-slack bus and the reactive-power mismatch of
    every PQ bus are below the tolerance. *)
Theorem solve_fresh_converged_sound `{Numpy} (w w' : PowerFlow.world) :
  PowerFlow.converged (PowerFlow.self w) = false ->
  PowerFlow.solve w = Return w' true ->
  exists g y_bus rows iteration m v_mag v_ang,
    Grid.build_y_bus (PowerFlow.heap w) (PowerFlow.grid w) = Return g y_bus
    /\ PowerFlow.indexed_buses (sorted (Dict.keys (Grid.buses g)))
         (Grid.buses g) = Some rows
    /\ PowerFlow.run_newton_raphson (PowerFlow.heap w) (Grid.n_buses g) y_bus
         rows (PowerFlow.self w)
       = PowerFlow.Converged iteration m v_mag v_ang
    /\ PowerFlow.self w'
       = PowerFlow.mk (PowerFlow.max_iterations (PowerFlow.self w))
           (PowerFlow.tolerance (PowerFlow.self w)) true (iteration + 1)
           (Some m)
    /\ m < PowerFlow.tolerance (PowerFlow.self w)
    /\ (iteration + 1 <= PowerFlow.max_iterations (PowerFlow.self w))%nat
    /\ Forall
         (fun i =>
            Rabs (PowerFlow.p_spec_of (PowerFlow.heap w) rows i
                  - fst (PowerFlow._calculate_power (Grid.n_buses g) y_bus
                           v_mag v_ang) i)
            < PowerFlow.tolerance (PowerFlow.self w))
         (PowerFlow.non_slack_list (Grid.n_buses g)
            (PowerFlow.slack_index (PowerFlow.heap w) rows))
    /\ Forall
         (fun i =>
            Rabs (PowerFlow.q_spec_of (PowerFlow.heap w) rows i
                  - snd (PowerFlow._calculate_power (Grid.n_buses g) y_bus
                           v_mag v_ang) i)
            < PowerFlow.tolerance (PowerFlow.self w))
         (PowerFlow.pq_index_list (PowerFlow.heap w) rows).
Proof.
  intros Hfresh Hsolve. unfold PowerFlow.solve in Hsolve.
  destruct (Grid.build_y_bus _ _) as [g y_bus | g e] eqn:Hy; [| discriminate].
  destruct (PowerFlow.indexed_buses _ _) as [rows |] eqn:Hrows;
    [| discriminate].
  destruct (PowerFlow.run_newton_raphson _ _ _ _ _)
    as [iteration m v_mag v_ang | mm v_mag v_ang | e mm] eqn:Hrun;
    [| | discriminate].
  - exists g, y_bus, rows, iteration, m, v_mag, v_ang.
    split; [reflexivity |]. split; [exact Hrows |]. split; [exact Hrun |].
    assert (Hself : PowerFlow.self w'
                    = PowerFlow.mk (PowerFlow.max_iterations (PowerFlow.self w))
                        (PowerFlow.tolerance (PowerFlow.self w)) true
                        (iteration + 1) (Some m)).
    { unfold PowerFlow.store_results in Hsolve.
      destruct (PowerFlow._calculate_line_flows _ _ _ _ _) as [ls [e |]];
        [discriminate |].
      inversion Hsolve. reflexivity. }
    split; [exact Hself |].
    unfold PowerFlow.run_newton_raphson in Hrun.
    apply newton_raphson_converged in Hrun.
    destruct Hrun as [Hlt [Hit Hmax]].
    split; [exact Hlt |]. split; [lia |].
    apply max_abs_bound in Hmax. apply Forall_app in Hmax.
    destruct Hmax as [Hp Hq]. rewrite Forall_map in Hp, Hq.
    split; eapply Forall_impl; try eassumption; cbv beta; intros; lra.
  - exfalso. unfold PowerFlow.store_results in Hsolve.
    destruct (PowerFlow._calculate_line_flows _ _ _ _ _) as [ls [e |]];
      [discriminate |].
    inversion Hsolve. cbn in *. congruence.
Qed.

Lemma sample_solve_converges `{Numpy} :
  exists w1,
    PowerFlow.solve
      (PowerFlow.mkw Sample.heap Sample.grid_no_line (PowerFlow.init 50 1e-6))
    = Return w1 true.
Proof.
  assert (Hy0 :
    Grid.build_y_bus Sample.heap Sample.grid_no_line
    = Return Sample.grid_no_line_cached (Np.zeros 2)) by reflexivity.
  assert (Hrows0 :
    PowerFlow.indexed_buses
      (sorted (Dict.keys (Grid.buses Sample.grid_no_line_cached)))
      (Grid.buses Sample.grid_no_line_cached) = Some Sample.rows)
    by reflexivity.
  set (m0 := Rmax (Rabs (Bus.p_net Sample.bus2 / Config.POWER_BASE))
                  (Rabs (Bus.q_net Sample.bus2 / Config.POWER_BASE))).
  assert (Hrun0 :
    PowerFlow.run_newton_raphson Sample.heap
      (Grid.n_buses Sample.grid_no_line_cached) (Np.zeros 2) Sample.rows
      (PowerFlow.init 50 1e-6)
    = PowerFlow.Converged 0 m0
        (PowerFlow.initial_v_mag Sample.heap Sample.rows)
        (PowerFlow.initial_v_ang Sample.heap Sample.rows)).
  { unfold PowerFlow.run_newton_raphson.
    change (PowerFlow.max_iterations (PowerFlow.init 50 1e-6)) with (S 49).
    apply newton_raphson_balanced.
    - apply zeros_entry.
    - reflexivity.
    - apply sample_max_abs_balanced. }
  eexists.
  rewrite (solve_converged
             (PowerFlow.mkw Sample.heap Sample.grid_no_line
                (PowerFlow.init 50 1e-6))
             _ _ _ _ _ _ _ Hy0 Hrows0 Hrun0).
  reflexivity.
Qed.

Lemma solve_fresh_converged_sound_witness :
  PowerFlow.converged (PowerFlow.init 50 1e-6) = false
  /\ exists w1 m,
       @PowerFlow.solve Sample.numpy2
         (PowerFlow.mkw Sample.heap Sample.grid_no_line (PowerFlow.init 50 1e-6))
       = Return w1 true
       /\ PowerFlow.mismatch (PowerFlow.self w1) = Some m
       /\ m < 1e-6.
Proof.
  split; [reflexivity |].
  destruct (@sample_solve_converges Sample.numpy2) as [w1 H1].
  destruct (@solve_fresh_converged_sound Sample.numpy2
              (PowerFlow.mkw Sample.heap Sample.grid_no_line
                 (PowerFlow.init 50 1e-6)) w1 eq_refl H1)
    as [g [y [rows [it [m [vm [va [_ [_ [_ [Hself [Hlt _]]]]]]]]]]]].
  exists w1, m. split; [exact H1 |]. rewrite Hself. split; [reflexivity |].
  exact Hlt.
Defined.

(** X20: a grid without a free variable.  On a grid with no bus, or with a
    single bus that is the slack bus, the mismatch vector is empty, and
    [solve] with at least one iteration allowed raises [ValueError] (the
    maximum of an empty array) and leaves the solver as it was. *)
Theorem solve_without_unknowns `{Numpy} (w : PowerFlow.world) :
  Grid.buses (PowerFlow.grid w) = []
  \/ (exists k bus,
        Grid.buses (PowerFlow.grid w) = [(k, bus)]
        /\ Bus.bus_type (PowerFlow.heap w bus) = SLACK) ->
  closed_lines_registered (PowerFlow.heap w) (PowerFlow.grid w) ->
  (0 < PowerFlow.max_iterations (PowerFlow.self w))%nat ->
  exists w',
    PowerFlow.solve w = Raise w' ValueError
    /\ PowerFlow.self w' = PowerFlow.self w
    /\ PowerFlow.heap w' = PowerFlow.heap w.
Proof.
  intros Hbuses Hreg Hit.
  destruct (build_y_bus_returns _ _ Hreg) as [y [g [Hy [Hb _]]]].
  unfold PowerFlow.solve. rewrite Hy.
  destruct (PowerFlow.self w) as [maxit tol conv its mm] eqn:Hself.
  cbn [PowerFlow.max_iterations] in Hit.
  destruct maxit as [| fuel]; [lia |].
  rewrite Hb. unfold Grid.n_buses. rewrite Hb.
  destruct Hbuses as [E | [k [bus [E Hslack]]]]; rewrite E.
  - cbn [Dict.keys map sorted fold_right PowerFlow.indexed_buses List.length].
    unfold PowerFlow.run_newton_raphson.
    cbn [PowerFlow.max_iterations PowerFlow.mismatch PowerFlow.tolerance].
    rewrite newton_raphson_step. cbv zeta.
    cbn [PowerFlow.non_slack_list seq filter PowerFlow.pq_index_list map
         app PowerFlow.max_abs].
    eexists. split; [reflexivity |]. split; reflexivity.
  - cbn [Dict.keys map fst sorted fold_right insert_sorted
         PowerFlow.indexed_buses index_of List.length].
    rewrite Z.eqb_refl. cbn [obind].
    unfold PowerFlow.run_newton_raphson.
    cbn [PowerFlow.max_iterations PowerFlow.mismatch PowerFlow.tolerance].
    rewrite newton_raphson_step. cbv zeta.
    assert (Hs : PowerFlow.slack_index (PowerFlow.heap w) [(0%nat, bus)]
                 = Some 0%nat)
      by (unfold PowerFlow.slack_index; cbn; now rewrite Hslack).
    assert (Hpq : PowerFlow.pq_index_list (PowerFlow.heap w) [(0%nat, bus)]
                  = [])
      by (unfold PowerFlow.pq_index_list; cbn; now rewrite Hslack).
    rewrite Hs, Hpq.
    cbn [PowerFlow.non_slack_list seq filter Nat.eqb negb map app
         PowerFlow.max_abs].
    eexists. split; [reflexivity |]. split; reflexivity.
Qed.

Lemma solve_without_unknowns_witness :
  (Grid.buses Sample.grid_one_bus = []
   \/ (exists k bus,
         Grid.buses Sample.grid_one_bus = [(k, bus)]
         /\ Bus.bus_type (Sample.heap bus) = SLACK))
  /\ exists w',
       @PowerFlow.solve Sample.numpy2
         (PowerFlow.mkw Sample.heap Sample.grid_one_bus (PowerFlow.init 50 1e-6))
       = Raise w' ValueError.
Proof.
  assert (Hb : Grid.buses Sample.grid_one_bus = []
               \/ (exists k bus,
                     Grid.buses Sample.grid_one_bus = [(k, bus)]
                     /\ Bus.bus_type (Sample.heap bus) = SLACK)).
  { right. exists 1%Z, 0%nat. split; reflexivity. }
  split; [exact Hb |].
  assert (Hreg : closed_lines_registered Sample.heap Sample.grid_one_bus)
    by (intros line []).
  destruct (@solve_without_unknowns Sample.numpy2
              (PowerFlow.mkw Sample.heap Sample.grid_one_bus
                 (PowerFlow.init 50 1e-6)) Hb Hreg) as [w' [Hs _]];
    [cbn; lia |].
  exists w'. exact Hs.
Defined.

Lemma line_flow_post (h : Heap) (idx : Z -> option nat)
    (v_mag v_ang : nat -> R) (old new : TransmissionLine.t) :
  PowerFlow.line_flow h idx v_mag v_ang old = Some new ->
  TransmissionLine.is_closed new = TransmissionLine.is_closed old
  /\ TransmissionLine.is_faulted new = TransmissionLine.is_faulted old
  /\ TransmissionLine.z_pu new = TransmissionLine.z_pu old
  /\ 0 <= TransmissionLine.loading_percent new
  /\ (TransmissionLine.is_closed old = false ->
      TransmissionLine.current_pu new = 0
      /\ TransmissionLine.power_flow_mw new = 0
      /\ TransmissionLine.loading_percent new = 0).
Proof.
  assert (Hload : forall l c p,
             0 <= TransmissionLine.loading_percent
                    (TransmissionLine.update_loading l c p)).
  { intros l c p. cbn. destruct (Rgt_dec (TransmissionLine.rating_mva l) 0);
      [| lra].
    apply Rmult_le_pos; [| lra].
    apply Rmult_le_pos; [apply Rabs_pos |].
    left. now apply Rinv_0_lt_compat. }
  unfold PowerFlow.line_flow.
  destruct (TransmissionLine.is_closed old) eqn:Hc; cbn [negb].
  - destruct (idx _) as [i |]; [| discriminate]. cbn [obind].
    destruct (idx _) as [j |]; [| discriminate]. cbn [obind].
    intros E. inversion E. subst new. clear E.
    split; [exact Hc |]. split; [reflexivity |]. split; [reflexivity |].
    split; [apply Hload | discriminate].
  - intros E. inversion E. subst new. clear E.
    split; [exact Hc |]. split; [reflexivity |]. split; [reflexivity |].
    split; [apply Hload |]. intros _. cbn.
    split; [reflexivity |]. split; [reflexivity |].
    destruct (Rgt_dec (TransmissionLine.rating_mva old) 0); [| reflexivity].
    rewrite Rabs_R0. unfold Rdiv. ring.
Qed.

(** X21: the line flows that [solve] stores.  Whenever [solve] returns, the
    grid has the same lines under the same ids, with their breaker and fault
    flags and impedances unchanged; the loading stored for a line is never
    negative, and an open line is given zero current, zero power flow and
    zero loading. *)
Theorem solve_line_flows `{Numpy} (w w' : PowerFlow.world) (b : bool) :
  PowerFlow.solve w = Return w' b ->
  Forall2
    (fun old new =>
       fst new = fst old
       /\ TransmissionLine.is_closed (snd new)
          = TransmissionLine.is_closed (snd old)
       /\ TransmissionLine.is_faulted (snd new)
          = TransmissionLine.is_faulted (snd old)
       /\ TransmissionLine.z_pu (snd new) = TransmissionLine.z_pu (snd old)
       /\ 0 <= TransmissionLine.loading_percent (snd new)
       /\ (TransmissionLine.is_closed (snd old) = false ->
           TransmissionLine.current_pu (snd new) = 0
           /\ TransmissionLine.power_flow_mw (snd new) = 0
           /\ TransmissionLine.loading_percent (snd new) = 0))
    (Grid.lines (PowerFlow.grid w)) (Grid.lines (PowerFlow.grid w')).
Proof.
  intros Hsolve. unfold PowerFlow.solve in Hsolve.
  pose proof (build_y_bus_frame (PowerFlow.heap w) (PowerFlow.grid w))
    as [_ Hl].
  destruct (Grid.build_y_bus _ _) as [g y_bus | g e]; [| discriminate].
  cbn [state_of] in Hl.
  destruct (PowerFlow.indexed_buses _ _) as [rows |]; [| discriminate].
  assert (Hstore : forall v_mag v_ang pf,
             PowerFlow.store_results (PowerFlow.heap w) g rows
               (sorted (Dict.keys (Grid.buses g))) v_mag v_ang pf
             = Return w' b ->
             Forall2
               (fun old new =>
                  fst new = fst old
                  /\ exists h' idx,
                       PowerFlow.line_flow h' idx v_mag v_ang (snd old)
                       = Some (snd new))
               (Grid.lines g) (Grid.lines (PowerFlow.grid w'))).
  { intros v_mag v_ang pf Hs. unfold PowerFlow.store_results in Hs.
    match type of Hs with
    | context [PowerFlow._calculate_line_flows ?h' ?idx _ _ _] =>
        pose proof (calculate_line_flows_each h' idx v_mag v_ang (Grid.lines g))
          as Heach;
        destruct (PowerFlow._calculate_line_flows h' idx v_mag v_ang
                    (Grid.lines g)) as [ls [e |]]; [discriminate |];
        inversion Hs; subst; cbn [PowerFlow.grid Grid.lines Grid.set_lines];
        specialize (Heach eq_refl); cbn [fst] in Heach;
        eapply Forall2_impl; [| exact Heach];
        intros old new [H1 H2]; split; [exact H1 |]; exists h', idx; exact H2
    end. }
  assert (Hpost : forall v_mag v_ang,
             Forall2
               (fun old new =>
                  fst new = fst old
                  /\ exists h' idx,
                       PowerFlow.line_flow h' idx v_mag v_ang (snd old)
                       = Some (snd new))
               (Grid.lines g) (Grid.lines (PowerFlow.grid w')) ->
             Forall2
               (fun old new =>
                  fst new = fst old
                  /\ TransmissionLine.is_closed (snd new)
                     = TransmissionLine.is_closed (snd old)
                  /\ TransmissionLine.is_faulted (snd new)
                     = TransmissionLine.is_faulted (snd old)
                  /\ TransmissionLine.z_pu (snd new)
                     = TransmissionLine.z_pu (snd old)
                  /\ 0 <= TransmissionLine.loading_percent (snd new)
                  /\ (TransmissionLine.is_closed (snd old) = false ->
                      TransmissionLine.current_pu (snd new) = 0
                      /\ TransmissionLine.power_flow_mw (snd new) = 0
                      /\ TransmissionLine.loading_percent (snd new) = 0))
               (Grid.lines (PowerFlow.grid w)) (Grid.lines (PowerFlow.grid w'))).
  { intros v_mag v_ang HF. rewrite <- Hl.
    eapply Forall2_impl; [| exact HF].
    intros old new [H1 [h' [idx H2]]]. split; [exact H1 |].
    exact (line_flow_post h' idx v_mag v_ang _ _ H2). }
  destruct (PowerFlow.run_newton_raphson _ _ _ _ _)
    as [iteration m v_mag v_ang | mm v_mag v_ang | e mm]; [| | discriminate].
  - exact (Hpost _ _ (Hstore _ _ _ Hsolve)).
  - exact (Hpost _ _ (Hstore _ _ _ Hsolve)).
Qed.

Lemma solve_line_flows_witness :
  exists w',
    @PowerFlow.solve Sample.numpy2
      (PowerFlow.mkw Sample.heap
         (mutate_line Sample.grid_two_bus 1 TransmissionLine.open_line)
         (PowerFlow.init 0 1e-6))
    = Return w' false
    /\ exists line,
         Grid.get_line (PowerFlow.grid w') 1 = Some line
         /\ TransmissionLine.current_pu line = 0
         /\ TransmissionLine.loading_percent line = 0.
Proof.
  assert (Hs : exists w',
             @PowerFlow.solve Sample.numpy2
               (PowerFlow.mkw Sample.heap
                  (mutate_line Sample.grid_two_bus 1 TransmissionLine.open_line)
                  (PowerFlow.init 0 1e-6))
             = Return w' false
             /\ exists line, Grid.lines (PowerFlow.grid w') = [(1%Z, line)]).
  { eexists. split; [reflexivity |]. eexists. reflexivity. }
  destruct Hs as [w' [Hs [line Hl]]]. exists w'. split; [exact Hs |].
  pose proof (@solve_line_flows Sample.numpy2 _ w' false Hs) as HF.
  rewrite Hl in HF. cbn in HF.
  inversion HF as [| old new ls ls' [_ [_ [_ [_ [_ Hopen]]]]] _]. subst.
  exists line. split; [unfold Grid.get_line; now rewrite Hl |].
  destruct (Hopen eq_refl) as [Hc [_ Hp]]. split; [exact Hc | exact Hp].
Defined.

(** ** The graph-based detector *)

Lemma two_terminal_estimate_swap (a b : R) :
  two_terminal_estimate b a = 1 - two_terminal_estimate a b.
Proof.
  unfold two_terminal_estimate.
  destruct (Rlt_dec (a + b) 1e-10) as [H1 | H1];
    destruct (Rlt_dec (b + a) 1e-10) as [H2 | H2]; try lra.
  destruct (Rlt_dec (1 - a + (1 - b)) 1e-10) as [H3 | H3];
    destruct (Rlt_dec (1 - b + (1 - a)) 1e-10) as [H4 | H4]; try lra.
  assert (Hsum : (1 - b) / (1 - b + (1 - a)) + (1 - a) / (1 - a + (1 - b)) = 1)
    by (field; lra).
  set (p := (1 - a) / (1 - a + (1 - b))) in *.
  set (q := (1 - b) / (1 - b + (1 - a))) in *.
  unfold Rmin. destruct (Rle_dec 1 p), (Rle_dec 1 q); unfold Rmax;
  repeat match goal with
         | |- context [Rle_dec ?x ?y] => destruct (Rle_dec x y)
         end; lra.
Qed.

(** X22: the two-terminal estimate seen from the other end.  For a line
    with the same two buses in the other order, [_two_terminal_location]
    returns one minus the estimate of the line. *)
Theorem two_terminal_location_swap (h : Heap) (line line' : TransmissionLine.t) :
  TransmissionLine.from_bus line' = TransmissionLine.to_bus line ->
  TransmissionLine.to_bus line' = TransmissionLine.from_bus line ->
  GraphBasedDetector._two_terminal_location h line'
  = 1 - GraphBasedDetector._two_terminal_location h line.
Proof.
  intros Hf Ht. rewrite !two_terminal_location_eq, Hf, Ht.
  apply two_terminal_estimate_swap.
Qed.

Lemma two_terminal_location_swap_witness :
  TransmissionLine.from_bus Sample.line3 = TransmissionLine.to_bus
    (TransmissionLine.init 3 0%nat 2%nat 100 Config.LINE_RESISTANCE_PER_KM
       Config.LINE_REACTANCE_PER_KM Config.LINE_SUSCEPTANCE_PER_KM 400.0)
  /\ GraphBasedDetector._two_terminal_location Sample.heap3 Sample.line3
     = 1 - GraphBasedDetector._two_terminal_location Sample.heap3
             (TransmissionLine.init 3 0%nat 2%nat 100
                Config.LINE_RESISTANCE_PER_KM Config.LINE_REACTANCE_PER_KM
                Config.LINE_SUSCEPTANCE_PER_KM 400.0).
Proof.
  split; [reflexivity |].
  exact (two_terminal_location_swap Sample.heap3
           (TransmissionLine.init 3 0%nat 2%nat 100
              Config.LINE_RESISTANCE_PER_KM Config.LINE_REACTANCE_PER_KM
              Config.LINE_SUSCEPTANCE_PER_KM 400.0)
           Sample.line3 eq_refl eq_refl).
Defined.

(** X23: a voltage drop at one end only.  When the to-bus is at 1.0 pu and
    the magnitude of the from-bus voltage is lower by at least 1e-10, the
    two-terminal estimate is 1.0, the position of the to-bus, however deep
    the drop at the from-bus is. *)
Theorem two_terminal_one_sided_drop (h : Heap) (line : TransmissionLine.t) :
  Rabs (Bus.voltage_pu (h (TransmissionLine.to_bus line))) = 1 ->
  Rabs (Bus.voltage_pu (h (TransmissionLine.from_bus line))) <= 1 - 1e-10 ->
  GraphBasedDetector._two_terminal_location h line = 1.
Proof.
  intros Hto Hfrom. rewrite two_terminal_location_eq, Hto.
  set (a := Rabs (Bus.voltage_pu (h (TransmissionLine.from_bus line)))) in *.
  assert (Ha : 0 <= a) by apply Rabs_pos.
  unfold two_terminal_estimate.
  destruct (Rlt_dec (a + 1) 1e-10) as [H1 | _]; [lra |].
  destruct (Rlt_dec (1 - a + (1 - 1)) 1e-10) as [H2 | _]; [lra |].
  replace ((1 - a) / (1 - a + (1 - 1))) with 1 by (field; lra).
  unfold Rmin. destruct (Rle_dec 1 1); [| lra]. unfold Rmax.
  repeat match goal with
         | |- context [Rle_dec ?x ?y] => destruct (Rle_dec x y)
         end; lra.
Qed.

Lemma two_terminal_one_sided_drop_witness :
  Rabs (Bus.voltage_pu
          (heap_set Sample.heap 0%nat (Bus.set_voltage Sample.bus1 0.5 0)
             (TransmissionLine.to_bus Sample.line1))) = 1
  /\ GraphBasedDetector._two_terminal_location
       (heap_set Sample.heap 0%nat (Bus.set_voltage Sample.bus1 0.5 0))
       Sample.line1 = 1.
Proof.
  assert (Hto : Rabs (Bus.voltage_pu
                        (heap_set Sample.heap 0%nat
                           (Bus.set_voltage Sample.bus1 0.5 0)
                           (TransmissionLine.to_bus Sample.line1))) = 1).
  { cbn. replace 1.0 with 1 by lra. apply Rabs_R1. }
  split; [exact Hto |].
  apply two_terminal_one_sided_drop; [exact Hto |].
  cbn. rewrite Rabs_right; lra.
Defined.

(** X24: the detection error of a bus fault after the graph-based
    localisation.  [_localize_fault] never sets the detected location of a
    bus fault, so for a bus fault without one [get_detection_error] is
    [None] afterwards, also when the fault has been marked detected, which
    it is when no line is flagged and the first flagged bus is the faulted
    one. *)
Theorem graph_bus_fault_detection_error (h : Heap) (g : Grid.t)
    (d : GraphBasedDetector.t) (fault : Fault.t) (affected : list Z) :
  Fault.is_bus_fault fault = true ->
  Fault.detected_location fault = None ->
  let fault' := snd (GraphBasedDetector._localize_fault h g d fault affected) in
  Fault.get_detection_error fault' = None
  /\ forall bus,
       find TransmissionLine.is_faulted (Dict.values (Grid.lines g)) = None ->
       find (fun bus => Bus.is_faulted (h bus)) (Dict.values (Grid.buses g))
       = Some bus ->
       Bus.id (h bus) = Fault.element_id fault ->
       Fault.detected fault' = true.
Proof.
  intros Hbus Hloc. cbv zeta.
  assert (Hline : Fault.is_line_fault fault = false).
  { unfold Fault.is_bus_fault in Hbus. unfold Fault.is_line_fault.
    now destruct (Fault.location_type fault). }
  unfold GraphBasedDetector._localize_fault. rewrite Hline, Hbus.
  cbn [andb].
  destruct (find TransmissionLine.is_faulted _) as [line |].
  - cbn [snd]. split.
    + unfold Fault.get_detection_error. rewrite Hloc.
      now destruct (Fault.detected fault).
    + intros bus Hn. discriminate Hn.
  - destruct (find _ (Dict.values (Grid.buses g))) as [bus |].
    + cbn [snd]. split.
      * unfold Fault.get_detection_error.
        destruct (Z.eqb _ _); cbn; rewrite ?Hloc; try reflexivity.
        now destruct (Fault.detected fault).
      * intros bus' _ E1 E2. inversion E1. subst bus'.
        rewrite E2, Z.eqb_refl. reflexivity.
    + split.
      * destruct affected; cbn [snd]; unfold Fault.get_detection_error;
          rewrite Hloc; now destruct (Fault.detected fault).
      * intros bus _ E. discriminate E.
Qed.

Lemma graph_bus_fault_detection_error_witness :
  Fault.is_bus_fault (Fault.mk 7 SLG AtBus 1 0.5 0 true false None) = true
  /\ (let fault' :=
        snd (GraphBasedDetector._localize_fault
               (heap_set Sample.heap 0%nat (Bus.apply_fault Sample.bus1 SLG))
               Sample.grid_no_line Sample.detector
               (Fault.mk 7 SLG AtBus 1 0.5 0 true false None) []) in
      Fault.detected fault' = true
      /\ Fault.get_detection_error fault' = None).
Proof.
  split; [reflexivity |].
  destruct (graph_bus_fault_detection_error
              (heap_set Sample.heap 0%nat (Bus.apply_fault Sample.bus1 SLG))
              Sample.grid_no_line Sample.detector
              (Fault.mk 7 SLG AtBus 1 0.5 0 true false None) []
              eq_refl eq_refl) as [Herr Hdet].
  split; [| exact Herr].
  apply (Hdet 0%nat); reflexivity.
Defined.

(** X25: the detection error of a line fault after the graph-based
    localisation.  When the first flagged line is the line of the fault,
    the fault is marked detected at the two-terminal estimate and
    [get_detection_error] is the distance between that estimate and the
    position of the fault; for a position in [0, 1] it is at most 1. *)
Theorem graph_line_fault_detection_error (h : Heap) (g : Grid.t)
    (d : GraphBasedDetector.t) (fault : Fault.t) (affected : list Z)
    (line : TransmissionLine.t) :
  Fault.is_line_fault fault = true ->
  find TransmissionLine.is_faulted (Dict.values (Grid.lines g)) = Some line ->
  TransmissionLine.id line = Fault.element_id fault ->
  0 <= Fault.position fault <= 1 ->
  let fault' := snd (GraphBasedDetector._localize_fault h g d fault affected) in
  Fault.detected fault' = true
  /\ Fault.detected_location fault'
     = Some (GraphBasedDetector._two_terminal_location h line)
  /\ Fault.get_detection_error fault'
     = Some (Rabs (GraphBasedDetector._two_terminal_location h line
                   - Fault.position fault))
  /\ Rabs (GraphBasedDetector._two_terminal_location h line
           - Fault.position fault) <= 1.
Proof.
  intros Hline Hfind Hid Hpos. cbv zeta.
  unfold GraphBasedDetector._localize_fault.
  rewrite Hfind, Hline, Hid, Z.eqb_refl. cbn [andb snd].
  split; [reflexivity |]. split; [reflexivity |]. split.
  - unfold Fault.get_detection_error.
    cbn [Fault.detected Fault.set_detected Fault.detected_location
         Fault.position].
    match goal with
    | |- context [Fault.is_line_fault ?f] =>
        change (Fault.is_line_fault f) with (Fault.is_line_fault fault)
    end.
    rewrite Hline. reflexivity.
  - assert (Hr : 0 <= GraphBasedDetector._two_terminal_location h line <= 1).
    { unfold GraphBasedDetector._two_terminal_location.
      destruct (Rlt_dec _ _); [lra |]. destruct (Rlt_dec _ _); [lra |].
      apply clamp_bounds. }
    apply Rabs_le. lra.
Qed.

Lemma graph_line_fault_detection_error_witness :
  Fault.is_line_fault Sample.slg_fault = true
  /\ find TransmissionLine.is_faulted (Dict.values (Grid.lines Sample.grid_faulted))
     = Some (TransmissionLine.apply_fault Sample.line1 SLG 0.3)
  /\ Fault.detected
       (snd (GraphBasedDetector._localize_fault Sample.heap_uneven
               Sample.grid_faulted Sample.detector Sample.slg_fault []))
     = true.
Proof.
  split; [reflexivity | split; [exact sample_faulted_line |]].
  assert (Hpos : 0 <= Fault.position Sample.slg_fault <= 1) by (cbn; lra).
  exact (proj1 (graph_line_fault_detection_error Sample.heap_uneven
                  Sample.grid_faulted Sample.detector Sample.slg_fault []
                  _ eq_refl sample_faulted_line eq_refl Hpos)).
Defined.

Lemma dict_set_absent {V : Type} (d : Dict.t V) (k : Z) (v : V) :
  ~ In k (Dict.keys d) -> Dict.set d k v = d ++ [(k, v)].
Proof.
  induction d as [| [k' v'] d IH]; cbn; intros Hn; [reflexivity |].
  destruct (Z.eqb_spec k k') as [-> | N]; [exfalso; apply Hn; now left |].
  rewrite IH; [reflexivity | intros Hin; apply Hn; now right].
Qed.

(** A dictionary filled by a loop over objects with distinct keys lists
    the objects in the order of the loop. *)
Lemma dict_fill_distinct {A V : Type} (key : A -> Z) (val : A -> V)
    (l : list A) :
  forall acc : Dict.t V,
    NoDup (map key l) ->
    (forall x, In x l -> ~ In (key x) (Dict.keys acc)) ->
    fold_left (fun acc x => Dict.set acc (key x) (val x)) l acc
    = acc ++ map (fun x => (key x, val x)) l.
Proof.
  induction l as [| x l IH]; intros acc Hnd Hfresh; cbn.
  - now rewrite app_nil_r.
  - inversion Hnd as [| ? ? Hx Hnd']. subst.
    rewrite dict_set_absent by (apply Hfresh; now left).
    rewrite IH; [now rewrite <- app_assoc | exact Hnd' |].
    intros y Hy. unfold Dict.keys. rewrite map_app, in_app_iff. cbn.
    intros [Hin | [E | []]].
    + apply (Hfresh y); [now right | exact Hin].
    + apply Hx. rewrite E. now apply in_map.
Qed.

Lemma insert_desc_In (x y : Z * R) (l : list (Z * R)) :
  In y (GraphBasedDetector.insert_desc x l) <-> y = x \/ In y l.
Proof.
  induction l as [| z l IH]; cbn.
  - intuition congruence.
  - destruct (Rge_dec (snd x) (snd z)); cbn; [intuition congruence |].
    rewrite IH. intuition congruence.
Qed.

Lemma sorted_desc_In (y : Z * R) (l : list (Z * R)) :
  In y (GraphBasedDetector.sorted_desc l) <-> In y l.
Proof.
  induction l as [| x l IH]; cbn; [tauto |].
  rewrite insert_desc_In, IH. intuition congruence.
Qed.

(** X26: detection from the voltage profile alone.  For an active fault on
    a grid whose buses have distinct ids and where no line and no bus is
    flagged as faulted, [detect_fault] reports a detection exactly when
    the voltage of some bus deviates from 1.0 pu by 0.05 or more; it then
    names a bus and no line, gives no position, and leaves the fault
    record as it was.  The iteration order of the set of affected buses
    does not matter for this. *)
Theorem graph_detect_by_voltage (set_iter : list Z -> list Z) (h : Heap)
    (g : Grid.t) (d : GraphBasedDetector.t) (f : Fault.t) :
  (forall l x, In x (set_iter l) <-> In x l) ->
  NoDup (map (fun bus => Bus.id (h bus)) (Dict.values (Grid.buses g))) ->
  Fault.is_active f = true ->
  find TransmissionLine.is_faulted (Dict.values (Grid.lines g)) = None ->
  find (fun bus => Bus.is_faulted (h bus)) (Dict.values (Grid.buses g)) = None ->
  let '(d', r, f') := GraphBasedDetector.detect_fault set_iter h g d (Some f) in
  (GraphBasedDetector.detected r = true
   <-> Exists (fun bus => Rabs (1.0 - Bus.voltage_pu (h bus)) >= 0.05)
              (Dict.values (Grid.buses g)))
  /\ (GraphBasedDetector.detected r = true ->
      exists b, GraphBasedDetector.faulted_bus_id r = Some b)
  /\ GraphBasedDetector.faulted_line_id r = None
  /\ GraphBasedDetector.estimated_position r = None
  /\ f' = Some f
  /\ GraphBasedDetector.voltage_deviations d'
     = map (fun bus => (Bus.id (h bus), Rabs (1.0 - Bus.voltage_pu (h bus))))
           (Dict.values (Grid.buses g)).
Proof.
  intros Hset Hnd Hact Hnl Hnb.
  unfold GraphBasedDetector.detect_fault. rewrite Hact. cbn [negb].
  set (d1 := GraphBasedDetector._analyze_currents g
               (GraphBasedDetector._analyze_voltages h g d)).
  assert (Hdev : GraphBasedDetector.voltage_deviations d1
                 = map (fun bus => (Bus.id (h bus),
                                    Rabs (1.0 - Bus.voltage_pu (h bus))))
                       (Dict.values (Grid.buses g))).
  { unfold d1, GraphBasedDetector._analyze_currents,
      GraphBasedDetector._analyze_voltages.
    cbn [GraphBasedDetector.voltage_deviations].
    rewrite (dict_fill_distinct (fun bus => Bus.id (h bus))
               (fun bus => Rabs (1.0 - Bus.voltage_pu (h bus))));
      [reflexivity | exact Hnd | intros x _ []]. }
  set (affected := GraphBasedDetector._find_affected_buses set_iter d1 0.05).
  assert (Haff : affected <> []
                 <-> Exists (fun bus => Rabs (1.0 - Bus.voltage_pu (h bus))
                                        >= 0.05)
                            (Dict.values (Grid.buses g))).
  { unfold affected, GraphBasedDetector._find_affected_buses.
    rewrite Hdev. rewrite Exists_exists. split.
    - intros Hne.
      destruct (set_iter _) as [| b rest] eqn:E; [contradiction |].
      assert (Hin : In b (set_iter
                 (map fst
                    (filter (fun item => if Rge_dec (snd item) 0.05
                                         then true else false)
                       (GraphBasedDetector.sorted_desc
                          (map (fun bus => (Bus.id (h bus),
                                            Rabs (1.0 - Bus.voltage_pu (h bus))))
                               (Dict.values (Grid.buses g))))))))
        by (rewrite E; now left).
      apply (proj1 (Hset _ _)) in Hin. apply in_map_iff in Hin.
      destruct Hin as [[k v] [_ Hin]]. apply filter_In in Hin.
      destruct Hin as [Hin Hge]. apply (proj1 (sorted_desc_In _ _)) in Hin.
      apply in_map_iff in Hin. destruct Hin as [bus [Ebus Hbus]].
      exists bus. split; [exact Hbus |].
      inversion Ebus. subst. cbn in Hge.
      now destruct (Rge_dec (Rabs (1.0 - Bus.voltage_pu (h bus))) 0.05).
    - intros [bus [Hbus Hge]] Hnil.
      assert (Hin : In (Bus.id (h bus)) (set_iter
                 (map fst
                    (filter (fun item => if Rge_dec (snd item) 0.05
                                         then true else false)
                       (GraphBasedDetector.sorted_desc
                          (map (fun bus => (Bus.id (h bus),
                                            Rabs (1.0 - Bus.voltage_pu (h bus))))
                               (Dict.values (Grid.buses g)))))))).
      { apply (proj2 (Hset _ _)).
        apply (in_map fst _ (Bus.id (h bus),
                             Rabs (1.0 - Bus.voltage_pu (h bus)))).
        apply filter_In. split.
        - apply (proj2 (sorted_desc_In _ _)).
          now apply (in_map (fun bus => (Bus.id (h bus),
                                         Rabs (1.0 - Bus.voltage_pu (h bus))))).
        - cbn. now destruct (Rge_dec (Rabs (1.0 - Bus.voltage_pu (h bus))) 0.05). }
      rewrite Hnil in Hin. exact Hin. }
  unfold GraphBasedDetector._localize_fault. rewrite Hnl, Hnb.
  destruct affected as [| first others].
  - cbn. repeat split; try reflexivity; try discriminate; try exact Hdev.
    intros HE. apply Haff in HE. now contradiction HE.
  - cbn. repeat split; try reflexivity; try exact Hdev.
    + intros _. apply Haff. discriminate.
    + intros _. eexists. reflexivity.
Qed.

Lemma graph_detect_by_voltage_witness :
  Fault.is_active Sample.slg_fault = true
  /\ (let '(d', r, f') :=
        GraphBasedDetector.detect_fault (fun l => l)
          (heap_set Sample.heap 0%nat (Bus.set_voltage Sample.bus1 0.9 0))
          Sample.grid_two_bus Sample.detector (Some Sample.slg_fault) in
      GraphBasedDetector.detected r = true
      <-> Exists
            (fun bus =>
               Rabs (1.0 - Bus.voltage_pu
                             (heap_set Sample.heap 0%nat
                                (Bus.set_voltage Sample.bus1 0.9 0) bus))
               >= 0.05)
            (Dict.values (Grid.buses Sample.grid_two_bus))).
Proof.
  split; [reflexivity |].
  assert (Hset : forall (l : list Z) (x : Z), In x ((fun l => l) l) <-> In x l)
    by (intros; tauto).
  assert (Hnd : NoDup (map (fun bus =>
                              Bus.id (heap_set Sample.heap 0%nat
                                        (Bus.set_voltage Sample.bus1 0.9 0) bus))
                           (Dict.values (Grid.buses Sample.grid_two_bus)))).
  { cbn. repeat constructor; cbn; intuition discriminate. }
  pose proof (graph_detect_by_voltage (fun l => l)
                (heap_set Sample.heap 0%nat (Bus.set_voltage Sample.bus1 0.9 0))
                Sample.grid_two_bus Sample.detector Sample.slg_fault
                Hset Hnd eq_refl eq_refl eq_refl) as H.
  destruct (GraphBasedDetector.detect_fault _ _ _ _ _) as [[d' r] f'].
  exact (proj1 H).
Defined.

(** ** Breadth-first search for a path *)

Lemma neighbors_in_adjacency (g : Grid.t) (c x : Z) :
  In x (Grid.get_neighbors g c) ->
  In x (List.concat (Dict.values (Grid.adjacency g))).
Proof.
  unfold Grid.get_neighbors.
  destruct (Dict.get (Grid.adjacency g) c) as [l |] eqn:E; [| intros []].
  intros Hx. apply in_concat. exists l. split; [| exact Hx].
  now apply dict_get_In with c.
Qed.

Lemma unvisited_le (u : list Z) (x : Z) (visited : list Z) :
  (List.length (filter (fun y => negb (Grid.mem y (x :: visited))) u)
   <= List.length (filter (fun y => negb (Grid.mem y visited)) u))%nat.
Proof.
  induction u as [| y u IH]; cbn [filter]; [lia |].
  unfold Grid.mem at 1. cbn [existsb]. fold (Grid.mem y visited).
  destruct (Z.eqb y x), (Grid.mem y visited); cbn [orb negb List.length]; lia.
Qed.

Lemma unvisited_lt (u : list Z) (x : Z) (visited : list Z) :
  In x u -> Grid.mem x visited = false ->
  (List.length (filter (fun y => negb (Grid.mem y (x :: visited))) u)
   < List.length (filter (fun y => negb (Grid.mem y visited)) u))%nat.
Proof.
  intros Hin Hx. induction u as [| y u IH]; [contradiction |].
  cbn [filter]. unfold Grid.mem at 1. cbn [existsb].
  fold (Grid.mem y visited).
  pose proof (unvisited_le u x visited) as Hle.
  destruct (Z.eqb_spec y x) as [-> | N].
  - rewrite Hx. cbn [orb negb List.length]. lia.
  - destruct Hin as [E | Hin]; [congruence |]. specialize (IH Hin).
    destruct (Grid.mem y visited); cbn [orb negb List.length]; lia.
Qed.

(** The scan of one neighbour list does not increase the number of queue
    entries plus the number of adjacency entries not yet visited. *)
Lemma scan_neighbors_measure (u : list Z) (to_bus_id : Z) (path : list Z) :
  forall (neighbors visited : list Z) (queue : list (Z * list Z))
         (visited' : list Z) (queue' : list (Z * list Z)),
    incl neighbors u ->
    GraphBasedDetector.scan_neighbors to_bus_id path neighbors visited queue
    = inr (visited', queue') ->
    (List.length queue'
     + List.length (filter (fun y => negb (Grid.mem y visited')) u)
     <= List.length queue
        + List.length (filter (fun y => negb (Grid.mem y visited)) u))%nat.
Proof.
  induction neighbors as [| nb rest IH]; intros visited queue visited' queue'
    Hincl Hscan; cbn in Hscan.
  - inversion Hscan. subst. lia.
  - assert (Hrest : incl rest u) by (intros y Hy; apply Hincl; now right).
    destruct (Z.eqb nb to_bus_id); [discriminate |].
    destruct (Grid.mem nb visited) eqn:Hm.
    + now apply IH.
    + apply IH in Hscan; [| exact Hrest].
      rewrite length_app in Hscan. cbn [List.length] in Hscan.
      pose proof (unvisited_lt u nb visited (Hincl nb (or_introl eq_refl)) Hm).
      lia.
Qed.

Lemma bfs_returns (g : Grid.t) (to_bus_id : Z) :
  forall (fuel : nat) (visited : list Z) (queue : list (Z * list Z)),
    (List.length queue
     + List.length (filter (fun y => negb (Grid.mem y visited))
                      (List.concat (Dict.values (Grid.adjacency g))))
     < fuel)%nat ->
    exists p, GraphBasedDetector.bfs fuel g to_bus_id visited queue = Some p.
Proof.
  induction fuel as [| fuel IH]; intros visited queue Hm; [lia |].
  cbn [GraphBasedDetector.bfs].
  destruct queue as [| [current path] queue']; [now exists [] |].
  destruct (GraphBasedDetector.scan_neighbors _ _ _ _ _)
    as [found | [visited' queue'']] eqn:Hscan; [now exists found |].
  apply IH.
  apply (scan_neighbors_measure (List.concat (Dict.values (Grid.adjacency g))))
    in Hscan.
  - cbn [List.length] in Hm. lia.
  - intros x Hx. now apply neighbors_in_adjacency with current.
Qed.

Lemma scan_neighbors_walks (g : Grid.t) (a to_bus_id current : Z)
    (path : list Z) :
  walk g a current path ->
  forall (neighbors visited : list Z) (queue : list (Z * list Z)),
    incl neighbors (Grid.get_neighbors g current) ->
    Forall (fun entry => walk g a (fst entry) (snd entry)) queue ->
    match GraphBasedDetector.scan_neighbors to_bus_id path neighbors visited
            queue with
    | inl found => walk g a to_bus_id found
    | inr (_, queue') =>
        Forall (fun entry => walk g a (fst entry) (snd entry)) queue'
    end.
Proof.
  intros Hw. induction neighbors as [| nb rest IH]; intros visited queue
    Hincl Hq; cbn.
  - exact Hq.
  - assert (Hrest : incl rest (Grid.get_neighbors g current))
      by (intros y Hy; apply Hincl; now right).
    assert (Hnb : In nb (Grid.get_neighbors g current))
      by (apply Hincl; now left).
    destruct (Z.eqb_spec nb to_bus_id) as [<- | _].
    + now apply walk_step with current.
    + destruct (Grid.mem nb visited); [now apply IH |].
      apply IH; [exact Hrest |].
      apply Forall_app. split; [exact Hq |].
      constructor; [| constructor]. cbn. now apply walk_step with current.
Qed.

Lemma bfs_walk (g : Grid.t) (a to_bus_id : Z) :
  forall (fuel : nat) (visited : list Z) (queue : list (Z * list Z))
         (p : list Z),
    Forall (fun entry => walk g a (fst entry) (snd entry)) queue ->
    GraphBasedDetector.bfs fuel g to_bus_id visited queue = Some p ->
    p = [] \/ walk g a to_bus_id p.
Proof.
  induction fuel as [| fuel IH]; intros visited queue p Hq Hb;
    [discriminate |].
  cbn [GraphBasedDetector.bfs] in Hb.
  destruct queue as [| [current path] queue'].
  - inversion Hb. now left.
  - inversion Hq as [| ? ? Hw Hq']. subst. cbn in Hw.
    pose proof (scan_neighbors_walks g a to_bus_id current path Hw
                  (Grid.get_neighbors g current) visited queue'
                  (incl_refl _) Hq') as Hscan.
    destruct (GraphBasedDetector.scan_neighbors _ _ _ _ _)
      as [found | [visited' queue'']].
    + inversion Hb. subst. now right.
    + now apply IH with visited' queue''.
Qed.

(** X27: [find_shortest_path] ends and returns a path.  The [while] loop
    takes fewer entries from the queue than there are entries in all
    adjacency lists plus two, so with that much fuel the search returns;
    what it returns is either the empty list or a list of bus ids that
    starts at the first bus, ends at the second, and in which each id is a
    neighbour of the one before it.  For equal ids it is the one-element
    list. *)
Theorem find_shortest_path_returns_walk (g : Grid.t) (a b : Z) (fuel : nat) :
  (adjacency_size g + 2 <= fuel)%nat ->
  exists p,
    GraphBasedDetector.find_shortest_path fuel g a b = Some p
    /\ (p = [] \/ walk g a b p)
    /\ (a = b -> p = [a]).
Proof.
  intros Hfuel. unfold GraphBasedDetector.find_shortest_path.
  destruct (Z.eqb_spec a b) as [-> | N].
  - exists [b]. split; [reflexivity |].
    split; [right; constructor | reflexivity].
  - destruct (bfs_returns g b fuel [a] [(a, [a])]) as [p Hp].
    { cbn [List.length]. unfold adjacency_size in Hfuel.
      pose proof (filter_length_le
                    (fun y => negb (Grid.mem y [a]))
                    (List.concat (Dict.values (Grid.adjacency g)))).
      lia. }
    exists p. split; [exact Hp |]. split; [| contradiction].
    apply (bfs_walk g a b fuel [a] [(a, [a])] p); [| exact Hp].
    constructor; [constructor | constructor].
Qed.

Lemma find_shortest_path_returns_walk_witness :
  (adjacency_size Sample.grid_two_bus + 2 <= 4)%nat
  /\ GraphBasedDetector.find_shortest_path 4 Sample.grid_two_bus 1 2
     = Some [1%Z; 2%Z]
  /\ walk Sample.grid_two_bus 1 2 [1%Z; 2%Z].
Proof.
  assert (Hf : (adjacency_size Sample.grid_two_bus + 2 <= 4)%nat)
    by (cbn; lia).
  split; [exact Hf |].
  destruct (find_shortest_path_returns_walk Sample.grid_two_bus 1 2 4 Hf)
    as [p [Hp [Hw _]]].
  assert (E : p = [1%Z; 2%Z]) by (cbn in Hp; now inversion Hp).
  subst p. split; [exact Hp |].
  destruct Hw as [Hn | Hw]; [discriminate | exact Hw].
Defined.

Lemma scan_neighbors_visits (to_bus_id : Z) (path : list Z) :
  forall (neighbors visited : list Z) (queue : list (Z * list Z)),
    match GraphBasedDetector.scan_neighbors to_bus_id path neighbors visited
            queue with
    | inl found => found <> []
    | inr (visited', queue') =>
        incl visited visited'
        /\ (forall nb, In nb neighbors -> In nb visited')
        /\ (~ In to_bus_id visited -> ~ In to_bus_id visited')
        /\ (forall v, In v visited' -> In v visited \/ In v (map fst queue'))
        /\ incl (map fst queue) (map fst queue')
    end.
Proof.
  induction neighbors as [| nb rest IH]; intros visited queue; cbn.
  - split; [apply incl_refl |]. split; [intros nb [] |].
    split; [tauto |]. split; [tauto | apply incl_refl].
  - destruct (Z.eqb_spec nb to_bus_id) as [E | N].
    + intros Hnil. now apply app_eq_nil in Hnil.
    + destruct (Grid.mem nb visited) eqn:Hm.
      * specialize (IH visited queue).
        destruct (GraphBasedDetector.scan_neighbors _ _ rest visited queue)
          as [found | [visited' queue']]; [exact IH |].
        destruct IH as [H1 [H2 [H3 [H4 H5]]]].
        split; [exact H1 |]. split; [| tauto].
        intros x [<- | Hx]; [| now apply H2].
        apply H1. now apply mem_In.
      * specialize (IH (nb :: visited)
                       (queue ++ [(nb, path ++ [nb])])).
        destruct (GraphBasedDetector.scan_neighbors _ _ rest _ _)
          as [found | [visited' queue']]; [exact IH |].
        destruct IH as [H1 [H2 [H3 [H4 H5]]]].
        assert (Hq : incl (map fst queue) (map fst queue')).
        { intros x Hx. apply H5. rewrite map_app, in_app_iff. now left. }
        split; [intros x Hx; apply H1; now right |].
        split; [intros x [<- | Hx]; [apply H1; now left | now apply H2] |].
        split.
        { intros Hto. apply H3. intros [E | Hin]; [congruence | tauto]. }
        split; [| exact Hq].
        intros v Hv. destruct (H4 v Hv) as [[<- | Hin] | Hin]; try tauto.
        right. apply H5. rewrite map_app, in_app_iff. right. now left.
Qed.

(** When the queue runs empty, the visited set holds the first bus, not
    the second, and with each bus all its neighbours. *)
Lemma bfs_empty_closed (g : Grid.t) (a to_bus_id : Z) :
  forall (fuel : nat) (visited : list Z) (queue : list (Z * list Z)),
    In a visited ->
    ~ In to_bus_id visited ->
    (forall v, In v visited ->
       In v (map fst queue)
       \/ forall nb, In nb (Grid.get_neighbors g v) -> In nb visited) ->
    GraphBasedDetector.bfs fuel g to_bus_id visited queue = Some [] ->
    exists closed,
      In a closed /\ ~ In to_bus_id closed
      /\ forall v nb, In v closed -> In nb (Grid.get_neighbors g v) ->
                      In nb closed.
Proof.
  induction fuel as [| fuel IH]; intros visited queue Ha Hto Hinv Hb;
    [discriminate |].
  cbn [GraphBasedDetector.bfs] in Hb.
  destruct queue as [| [current path] queue'].
  - exists visited. split; [exact Ha |]. split; [exact Hto |].
    intros v nb Hv Hnb. destruct (Hinv v Hv) as [[] | Hc]. now apply Hc.
  - pose proof (scan_neighbors_visits to_bus_id path
                  (Grid.get_neighbors g current) visited queue') as Hscan.
    destruct (GraphBasedDetector.scan_neighbors _ _ _ _ _)
      as [found | [visited' queue'']].
    + inversion Hb. contradiction.
    + destruct Hscan as [H1 [H2 [H3 [H4 H5]]]].
      apply (IH visited' queue''); [now apply H1 | now apply H3 | | exact Hb].
      intros v Hv. destruct (H4 v Hv) as [Hold | Hnew]; [| now left].
      destruct (Hinv v Hold) as [[E | Hq] | Hc].
      * cbn in E. subst v. right. exact H2.
      * left. now apply H5.
      * right. intros nb Hnb. apply H1. now apply Hc.
Qed.

Lemma walk_length_pos (g : Grid.t) (a x : Z) (q : list Z) :
  walk g a x q -> (1 <= List.length q)%nat.
Proof.
  intros Hw. destruct Hw; [cbn; lia |]. rewrite length_app. cbn. lia.
Qed.

(** The scan of the neighbours of a bus whose queue entry is a walk of [L]
    ids, when every bus that has a walk of at most [L] ids is visited
    already: what it returns is a shortest walk, and what it adds to the
    queue are shortest walks of [L + 1] ids. *)
Lemma scan_neighbors_level (g : Grid.t) (a to_bus_id current : Z)
    (path : list Z) :
  walk g a current path ->
  forall (neighbors visited : list Z) (queue : list (Z * list Z)),
    incl neighbors (Grid.get_neighbors g current) ->
    (forall x q, walk g a x q ->
       (List.length q <= List.length path)%nat -> In x visited) ->
    ~ In to_bus_id visited ->
    match GraphBasedDetector.scan_neighbors to_bus_id path neighbors visited
            queue with
    | inl found => shortest_walk g a to_bus_id found
    | inr (_, queue') =>
        exists news,
          queue' = queue ++ news
          /\ Forall (fun e => List.length (snd e) = S (List.length path)) news
          /\ Forall (fun e => shortest_walk g a (fst e) (snd e)) news
    end.
Proof.
  intros Hw.
  assert (Hnew : forall nb visited,
             In nb (Grid.get_neighbors g current) ->
             (forall x q, walk g a x q ->
                (List.length q <= List.length path)%nat -> In x visited) ->
             ~ In nb visited ->
             shortest_walk g a nb (path ++ [nb])).
  { intros nb visited Hnb Hlev Hn. split; [now apply walk_step with current |].
    intros q Hq. rewrite length_app. cbn [List.length].
    destruct (Nat.le_gt_cases (List.length q) (List.length path))
      as [Hle | Hgt]; [| lia].
    exfalso. apply Hn. now apply Hlev with q. }
  induction neighbors as [| nb rest IH]; intros visited queue Hincl Hlev Hto;
    cbn.
  - exists []. split; [now rewrite app_nil_r | split; constructor].
  - assert (Hrest : incl rest (Grid.get_neighbors g current))
      by (intros y Hy; apply Hincl; now right).
    assert (Hnb : In nb (Grid.get_neighbors g current))
      by (apply Hincl; now left).
    destruct (Z.eqb_spec nb to_bus_id) as [E | N].
    + subst nb. now apply Hnew with visited.
    + destruct (Grid.mem nb visited) eqn:Hm; [now apply IH |].
      assert (Hn : ~ In nb visited)
        by (intros Hin; apply mem_In in Hin; congruence).
      assert (Hlev' : forall x q, walk g a x q ->
                        (List.length q <= List.length path)%nat ->
                        In x (nb :: visited))
        by (intros x q Hq Hl; right; now apply Hlev with q).
      assert (Hto' : ~ In to_bus_id (nb :: visited))
        by (intros [E | Hin]; [congruence | contradiction]).
      specialize (IH (nb :: visited) (queue ++ [(nb, path ++ [nb])])
                     Hrest Hlev' Hto').
      destruct (GraphBasedDetector.scan_neighbors _ _ rest _ _)
        as [found | [visited' queue']]; [exact IH |].
      destruct IH as [news [Hq [Hlen Hall]]].
      exists ((nb, path ++ [nb]) :: news).
      split; [now rewrite Hq, <- app_assoc |].
      split; constructor; try assumption; cbn [fst snd].
      * rewrite length_app. cbn. lia.
      * now apply Hnew with visited.
Qed.

(** The level invariant of the search: the queue holds shortest walks, those
    of [level] ids before those of [level + 1] ids; every visited bus is in
    the queue or has all its neighbours visited; every bus that has a walk
    of at most [level] ids is visited. *)
Lemma bfs_shortest (g : Grid.t) (a to_bus_id : Z) :
  forall (fuel level : nat) (visited : list Z)
         (low high : list (Z * list Z)) (p : list Z),
    In a visited ->
    ~ In to_bus_id visited ->
    Forall (fun e => List.length (snd e) = level) low ->
    Forall (fun e => List.length (snd e) = S level) high ->
    Forall (fun e => shortest_walk g a (fst e) (snd e)) (low ++ high) ->
    (forall v, In v visited ->
       In v (map fst (low ++ high))
       \/ forall nb, In nb (Grid.get_neighbors g v) -> In nb visited) ->
    (forall x q, walk g a x q -> (List.length q <= level)%nat ->
       In x visited) ->
    GraphBasedDetector.bfs fuel g to_bus_id visited (low ++ high) = Some p ->
    p <> [] ->
    shortest_walk g a to_bus_id p.
Proof.
  induction fuel as [| fuel IH]; [intros; discriminate |].
  assert (Hstep : forall level visited current path low high p,
             In a visited ->
             ~ In to_bus_id visited ->
             List.length path = level ->
             Forall (fun e => List.length (snd e) = level) low ->
             Forall (fun e => List.length (snd e) = S level) high ->
             Forall (fun e => shortest_walk g a (fst e) (snd e))
                    ((current, path) :: low ++ high) ->
             (forall v, In v visited ->
                In v (map fst ((current, path) :: low ++ high))
                \/ forall nb, In nb (Grid.get_neighbors g v) -> In nb visited) ->
             (forall x q, walk g a x q -> (List.length q <= level)%nat ->
                In x visited) ->
             GraphBasedDetector.bfs (S fuel) g to_bus_id visited
               ((current, path) :: low ++ high) = Some p ->
             p <> [] ->
             shortest_walk g a to_bus_id p).
  { intros level visited current path low high p Ha Hto Hlen Hlow Hhigh
      Hshort Hclosed Hlev Hb Hp.
    cbn [GraphBasedDetector.bfs] in Hb.
    inversion Hshort as [| ? ? [Hw _] Hshort']. subst.
    cbn [fst snd] in Hw.
    pose proof (scan_neighbors_level g a to_bus_id current path Hw
                  (Grid.get_neighbors g current) visited (low ++ high)
                  (incl_refl _) Hlev Hto) as Hlevel.
    pose proof (scan_neighbors_visits to_bus_id path
                  (Grid.get_neighbors g current) visited (low ++ high))
      as Hvisits.
    destruct (GraphBasedDetector.scan_neighbors _ _ _ _ _)
      as [found | [visited' queue']].
    - inversion Hb. subst. exact Hlevel.
    - destruct Hlevel as [news [Hq [Hnlen Hnshort]]].
      destruct Hvisits as [H1 [H2 [H3 [H4 H5]]]].
      subst queue'. rewrite <- app_assoc in Hb, H4, H5.
      apply (IH (List.length path) visited' low (high ++ news) p);
        try assumption.
      + now apply H1.
      + now apply H3.
      + apply Forall_app. split; assumption.
      + rewrite app_assoc. apply Forall_app. split; assumption.
      + intros v Hv. destruct (H4 v Hv) as [Hold | Hnew]; [| now left].
        destruct (Hclosed v Hold) as [[E | Hin] | Hc].
        * cbn in E. subst v. right. exact H2.
        * left. now apply H5.
        * right. intros nb Hnb. apply H1. now apply Hc.
      + intros x q Hq Hl. apply H1. now apply Hlev with q. }
  intros level visited low high p Ha Hto Hlow Hhigh Hshort Hclosed Hlev Hb Hp.
  destruct low as [| [current path] low'].
  - destruct high as [| [current path] high'].
    + cbn in Hb. inversion Hb. congruence.
    + (* the level is exhausted: the next one becomes the current one *)
      cbn [app] in Hb, Hshort, Hclosed.
      inversion Hhigh as [| ? ? Hlen Hhigh']. subst. cbn [snd] in Hlen.
      apply (Hstep (S level) visited current path high' [] p);
        try assumption; try (rewrite app_nil_r; assumption);
        try constructor.
      intros x q Hq Hl. destruct Hq as [| y x q' Hq' Hx]; [exact Ha |].
      rewrite length_app in Hl. cbn [List.length] in Hl.
      assert (Hy : In y visited) by (apply Hlev with q'; [exact Hq' | lia]).
      destruct (Hclosed y Hy) as [Hin | Hc]; [| now apply Hc].
      exfalso. apply in_map_iff in Hin.
      destruct Hin as [[y' py] [E Hin]]. cbn in E. subst y'.
      rewrite Forall_forall in Hshort.
      destruct (Hshort _ Hin) as [_ Hmin]. cbn [fst snd] in Hmin.
      specialize (Hmin q' Hq').
      assert (Hpy : List.length py = S level).
      { destruct Hin as [E | Hin]; [inversion E; now subst |].
        rewrite Forall_forall in Hhigh'. exact (Hhigh' _ Hin). }
      lia.
  - inversion Hlow as [| e l Hlen Hlow' [E1 E2]]. cbn [snd] in Hlen.
    apply (Hstep level visited current path low' high p); assumption.
Qed.

(** X28: what [find_shortest_path] returns is right.  When the search
    returns the empty list, no list of bus ids leads from the first bus to
    the second along the adjacency lists; when it returns a non-empty list,
    that list is such a path and no path between the two buses has fewer
    ids. *)
Theorem find_shortest_path_correct (g : Grid.t) (a b : Z) (fuel : nat)
    (p : list Z) :
  GraphBasedDetector.find_shortest_path fuel g a b = Some p ->
  (p = [] -> forall q, ~ walk g a b q)
  /\ (p <> [] ->
      walk g a b p
      /\ forall q, walk g a b q -> (List.length p <= List.length q)%nat).
Proof.
  intros Hf. split.
  - intros E. subst p.
    unfold GraphBasedDetector.find_shortest_path in Hf.
    destruct (Z.eqb_spec a b) as [E | N]; [discriminate |].
    destruct (bfs_empty_closed g a b fuel [a] [(a, [a])])
      as [closed [Ha [Hto Hc]]].
    + now left.
    + intros [E | []]. congruence.
    + intros v [<- | []]. left. now left.
    + exact Hf.
    + assert (Hall : forall x q, walk g a x q -> In x closed).
      { intros x q Hw. induction Hw as [| c nb q Hw IH Hnb]; [exact Ha |].
        now apply Hc with c. }
      intros q Hw. apply Hto. now apply Hall with q.
  - intros Hp. unfold GraphBasedDetector.find_shortest_path in Hf.
    destruct (Z.eqb_spec a b) as [E | N].
    + inversion Hf. subst. split; [constructor |].
      intros q Hq. apply walk_length_pos in Hq. cbn. lia.
    + apply (bfs_shortest g a b fuel 1 [a] [(a, [a])] [] p);
        try assumption.
      * now left.
      * intros [E | []]. congruence.
      * constructor; [reflexivity | constructor].
      * constructor.
      * constructor; [| constructor]. split; [constructor |].
        intros q Hq. apply walk_length_pos in Hq. cbn. lia.
      * intros v [<- | []]. left. now left.
      * intros x q Hq Hl. destruct Hq as [| y x q' Hq' Hx]; [now left |].
        apply walk_length_pos in Hq'. rewrite length_app in Hl.
        cbn in Hl. lia.
Qed.

Lemma find_shortest_path_correct_witness :
  GraphBasedDetector.find_shortest_path 4 Sample.grid_two_bus 1 2
  = Some [1%Z; 2%Z]
  /\ walk Sample.grid_two_bus 1 2 [1%Z; 2%Z]
  /\ GraphBasedDetector.find_shortest_path 2 Sample.grid_no_line 1 2 = Some []
  /\ ~ walk Sample.grid_no_line 1 2 [1%Z; 2%Z].
Proof.
  assert (H1 : GraphBasedDetector.find_shortest_path 4 Sample.grid_two_bus 1 2
               = Some [1%Z; 2%Z]) by reflexivity.
  assert (H2 : GraphBasedDetector.find_shortest_path 2 Sample.grid_no_line 1 2
               = Some []) by reflexivity.
  split; [exact H1 |]. split.
  - apply (find_shortest_path_correct Sample.grid_two_bus 1 2 4 _ H1).
    discriminate.
  - split; [exact H2 |].
    exact (proj1 (find_shortest_path_correct Sample.grid_no_line 1 2 2 _ H2)
                 eq_refl [1%Z; 2%Z]).
Defined.

(** ** The impedance-based detector *)

Lemma abs_gt_nonzero (z : C) (e : R) : 0 <= e -> Cx.abs z > e -> z <> Cx.zero.
Proof.
  intros He Hz E. subst z. rewrite abs_zero in Hz. lra.
Qed.

Lemma measured_impedance_defined (v i : C) :
  exists z, ImpedanceBasedDetector.measured_impedance v i = Some z.
Proof.
  unfold ImpedanceBasedDetector.measured_impedance.
  destruct (Rgt_dec (Cx.abs i) 1e-10) as [Hi | _]; [| now eexists].
  destruct (div_defined v i (abs_gt_nonzero i 1e-10 ltac:(lra) Hi)) as [q ->].
  now eexists.
Qed.

Lemma measure_line_defined (h : Heap) (fault : option Fault.t)
    (line : TransmissionLine.t) :
  exists m, ImpedanceBasedDetector.measure_line h fault line = Some m.
Proof.
  unfold ImpedanceBasedDetector.measure_line.
  destruct (negb (TransmissionLine.is_closed line)
            && negb (TransmissionLine.is_faulted line)); [now eexists |].
  set (v_from := Bus.voltage_complex (h (TransmissionLine.from_bus line))).
  set (v_to := Bus.voltage_complex (h (TransmissionLine.to_bus line))).
  assert (Hn : exists i_normal,
             (if Rgt_dec (Cx.abs (TransmissionLine.z_pu line)) 1e-10
              then Cx.div (Cx.sub v_from v_to) (TransmissionLine.z_pu line)
              else Some (Cx.mk 0 0)) = Some i_normal).
  { destruct (Rgt_dec _ _) as [Hz | _]; [| now eexists].
    apply div_defined. now apply abs_gt_nonzero with 1e-10; [lra |]. }
  destruct Hn as [i_normal ->]. cbn [obind].
  destruct (measured_impedance_defined v_from i_normal) as [zn Hzn].
  destruct fault as [f |].
  - destruct (TransmissionLine.is_faulted line
              && Z.eqb (Fault.element_id f) (TransmissionLine.id line)).
    + match goal with
      | |- context [Rgt_dec (Cx.abs ?zt) 1e-10] => set (z_total := zt)
      end.
      assert (Hf : exists i_fault,
                 (if Rgt_dec (Cx.abs z_total) 1e-10
                  then Cx.div v_from z_total
                  else Cx.div v_from (Cx.of_real 1e-6)) = Some i_fault).
      { destruct (Rgt_dec _ _) as [Hz | _].
        - apply div_defined. now apply abs_gt_nonzero with 1e-10; [lra |].
        - apply div_defined. apply of_real_nonzero. lra. }
      destruct Hf as [i_fault ->]. cbn [obind].
      destruct (measured_impedance_defined v_from i_fault) as [zf ->].
      cbn [obind]. now eexists.
    + rewrite Hzn. cbn [obind]. now eexists.
  - rewrite Hzn. cbn [obind]. now eexists.
Qed.

Lemma simulate_measurements_defined (h : Heap) (g : Grid.t)
    (fault : option Fault.t) :
  exists ms, ImpedanceBasedDetector.simulate_measurements h g fault = Some ms.
Proof.
  unfold ImpedanceBasedDetector.simulate_measurements.
  generalize (@nil (Z * RelayMeasurement.t)).
  induction (Dict.values (Grid.lines g)) as [| line ls IH]; intros acc; cbn.
  - now eexists.
  - destruct (measure_line_defined h fault line) as [[m |] ->]; cbn [obind];
      apply IH.
Qed.

Lemma zone_confidence_bounds (reach_ratio : R) (zone : Z) :
  0 <= reach_ratio ->
  ImpedanceBasedDetector.zone_of reach_ratio = Some zone ->
  (zone = 1%Z /\ reach_ratio <= 0.8
   /\ Rmin 1.0 reach_ratio = reach_ratio
   /\ 0.85 <= ImpedanceBasedDetector.confidence_of zone reach_ratio <= 0.95)
  \/ (zone = 2%Z /\ 0.8 < reach_ratio <= 1.2
      /\ 0.8 < Rmin 1.0 reach_ratio <= 1
      /\ 0.7 <= ImpedanceBasedDetector.confidence_of zone reach_ratio < 0.8)
  \/ (zone = 3%Z /\ 1.2 < reach_ratio <= 1.5
      /\ Rmin 1.0 reach_ratio = 1
      /\ 0.5 <= ImpedanceBasedDetector.confidence_of zone reach_ratio < 0.6).
Proof.
  intros Hpos. unfold ImpedanceBasedDetector.zone_of,
    ImpedanceBasedDetector.confidence_of, Config.ZONE1_REACH,
    Config.ZONE2_REACH, Config.ZONE3_REACH.
  destruct (Rle_dec reach_ratio 0.80) as [H1 | H1].
  - intros E. inversion E. subst zone. left. cbn [Z.eqb Pos.eqb].
    split; [reflexivity |]. split; [lra |].
    split; [rewrite Rmin_right; lra | lra].
  - destruct (Rle_dec reach_ratio 1.20) as [H2 | H2].
    + intros E. inversion E. subst zone. right. left. cbn [Z.eqb Pos.eqb].
      split; [reflexivity |]. split; [lra |]. split; [| lra].
      unfold Rmin. destruct (Rle_dec 1.0 reach_ratio); lra.
    + destruct (Rle_dec reach_ratio 1.50) as [H3 | H3]; [| discriminate].
      intros E. inversion E. subst zone. right. right. cbn [Z.eqb Pos.eqb].
      split; [reflexivity |]. split; [lra |].
      split; [rewrite Rmin_left; lra | lra].
Qed.

Lemma check_zones_result (g : Grid.t) (fault : Fault.t) :
  forall (items : list (Z * RelayMeasurement.t)) (r : DetectionResult.t)
         (fault' : Fault.t),
    ImpedanceBasedDetector.check_zones g fault items = Some (r, fault') ->
    exists line_id m line z_apparent reach_ratio zone,
      In (line_id, m) items
      /\ Grid.get_line g line_id = Some line
      /\ RelayMeasurement.apparent_impedance m = Cx.Fin z_apparent
      /\ reach_ratio = Cx.abs z_apparent / Cx.abs (TransmissionLine.z_pu line)
      /\ 0 <= reach_ratio <= 1.5
      /\ ImpedanceBasedDetector.zone_of reach_ratio = Some zone
      /\ r = DetectionResult.mk true (Some line_id)
               (Some (Rmin 1.0 reach_ratio)) (Some zone)
               (ImpedanceBasedDetector.confidence_of zone reach_ratio)
      /\ fault'
         = (if Fault.is_line_fault fault
               && Z.eqb (Fault.element_id fault) line_id
            then Fault.set_detected fault true (Some (Rmin 1.0 reach_ratio))
            else fault).
Proof.
  induction items as [| [line_id m] rest IH]; intros r fault' Hc;
    cbn [ImpedanceBasedDetector.check_zones] in Hc; [discriminate |].
  assert (Hrest : ImpedanceBasedDetector.check_zones g fault rest
                  = Some (r, fault') ->
                  exists line_id0 m0 line z_apparent reach_ratio zone,
                    In (line_id0, m0) ((line_id, m) :: rest)
                    /\ Grid.get_line g line_id0 = Some line
                    /\ RelayMeasurement.apparent_impedance m0
                       = Cx.Fin z_apparent
                    /\ reach_ratio
                       = Cx.abs z_apparent / Cx.abs (TransmissionLine.z_pu line)
                    /\ 0 <= reach_ratio <= 1.5
                    /\ ImpedanceBasedDetector.zone_of reach_ratio = Some zone
                    /\ r = DetectionResult.mk true (Some line_id0)
                             (Some (Rmin 1.0 reach_ratio)) (Some zone)
                             (ImpedanceBasedDetector.confidence_of zone
                                reach_ratio)
                    /\ fault'
                       = (if Fault.is_line_fault fault
                             && Z.eqb (Fault.element_id fault) line_id0
                          then Fault.set_detected fault true
                                 (Some (Rmin 1.0 reach_ratio))
                          else fault)).
  { intros H. destruct (IH r fault' H)
      as [l0 [m0 [line [za [rr [zone [Hin Hx]]]]]]].
    exists l0, m0, line, za, rr, zone. split; [now right | exact Hx]. }
  destruct (Grid.get_line g line_id) as [line |] eqn:Hget; [| now apply Hrest].
  destruct (RelayMeasurement.apparent_impedance m) as [za |] eqn:Hza;
    cbn [Cx.abs_ext] in Hc; [| now apply Hrest].
  destruct (Rgt_dec (Cx.abs za) (Cx.abs (TransmissionLine.z_pu line) * 2))
    as [_ | Hsmall]; [now apply Hrest |].
  destruct (Rgt_dec (Cx.abs (TransmissionLine.z_pu line)) 1e-10)
    as [Hz | _]; [| now apply Hrest].
  destruct (ImpedanceBasedDetector.zone_of _) as [zone |] eqn:Hzone;
    [| now apply Hrest].
  inversion Hc. subst r fault'. clear Hc.
  assert (Hrr : 0 <= Cx.abs za / Cx.abs (TransmissionLine.z_pu line)).
  { apply Rmult_le_pos; [apply abs_nonneg |].
    left. apply Rinv_0_lt_compat. lra. }
  assert (Hconf : forall c, 0.5 <= c -> Rmax 0.1 c = c)
    by (intros c Hc; apply Rmax_right; lra).
  assert (Hup : Cx.abs za / Cx.abs (TransmissionLine.z_pu line) <= 1.5).
  { unfold ImpedanceBasedDetector.zone_of, Config.ZONE1_REACH,
      Config.ZONE2_REACH, Config.ZONE3_REACH in Hzone.
    repeat match type of Hzone with
           | context [Rle_dec ?x ?y] => destruct (Rle_dec x y)
           end; try discriminate; lra. }
  exists line_id, m, line, za,
    (Cx.abs za / Cx.abs (TransmissionLine.z_pu line)), zone.
  split; [now left |]. split; [exact Hget |]. split; [exact Hza |].
  split; [reflexivity |]. split; [split; [exact Hrr | exact Hup] |].
  split; [exact Hzone |]. split; [| reflexivity].
  f_equal. apply Hconf.
  destruct (zone_confidence_bounds _ _ Hrr Hzone)
    as [[_ [_ [_ H]]] | [[_ [_ [_ H]]] | [_ [_ [_ H]]]]]; lra.
Qed.

(** X29: the impedance-based detector never fails and its results are
    within bounds.  [detect_fault] returns for every grid and fault (no
    division by zero: each division is guarded).  A positive result names
    a line of the grid, a zone among 1, 2 and 3, a position in [0, 1] and a
    confidence between 0.5 and 0.95, so the floor of 0.1 on the confidence
    is never reached; in zone 3 the position is 1.0.  A negative result
    changes neither the fault record nor the list of results. *)
Theorem impedance_detect_bounds (h : Heap) (g : Grid.t)
    (d : ImpedanceBasedDetector.t) (fault : option Fault.t) :
  exists d' r fault',
    ImpedanceBasedDetector.detect_fault h g d fault = Some (d', r, fault')
    /\ ImpedanceBasedDetector.simulate_measurements h g fault
       = Some (ImpedanceBasedDetector.measurements d')
    /\ if DetectionResult.detected r
       then
         exists line_id line pos zone f,
           fault = Some f /\ Fault.is_active f = true
           /\ DetectionResult.line_id r = Some line_id
           /\ Grid.get_line g line_id = Some line
           /\ DetectionResult.estimated_position r = Some pos
           /\ DetectionResult.zone r = Some zone
           /\ 0 <= pos <= 1
           /\ (zone = 1 \/ zone = 2 \/ zone = 3)%Z
           /\ (zone = 3%Z -> pos = 1)
           /\ 0.5 <= DetectionResult.confidence r <= 0.95
           /\ ImpedanceBasedDetector.results d'
              = ImpedanceBasedDetector.results d ++ [r]
       else
         r = DetectionResult.not_detected
         /\ fault' = fault
         /\ ImpedanceBasedDetector.results d'
            = ImpedanceBasedDetector.results d.
Proof.
  unfold ImpedanceBasedDetector.detect_fault.
  destruct (simulate_measurements_defined h g fault) as [ms Hms].
  rewrite Hms. cbn [obind].
  destruct fault as [f |].
  2:{ do 3 eexists. split; [reflexivity |]. split; [reflexivity |].
      cbn. repeat split. }
  destruct (Fault.is_active f) eqn:Hact; cbn [negb].
  2:{ do 3 eexists. split; [reflexivity |]. split; [reflexivity |].
      cbn. repeat split. }
  destruct (ImpedanceBasedDetector.check_zones g f ms) as [[r f'] |] eqn:Hc.
  2:{ do 3 eexists. split; [reflexivity |]. split; [reflexivity |].
      cbn. repeat split. }
  do 3 eexists. split; [reflexivity |]. split; [reflexivity |].
  destruct (check_zones_result g f ms r f' Hc)
    as [line_id [m [line [za [rr [zone [_ [Hget [_ [_ [[Hrr Hup] [Hzone
       [Hr _]]]]]]]]]]]]].
  subst r. cbn [DetectionResult.detected].
  exists line_id, line, (Rmin 1.0 rr), zone, f.
  cbn [DetectionResult.line_id DetectionResult.estimated_position
       DetectionResult.zone DetectionResult.confidence
       ImpedanceBasedDetector.results].
  split; [reflexivity |]. split; [exact Hact |]. split; [reflexivity |].
  split; [exact Hget |]. split; [reflexivity |]. split; [reflexivity |].
  destruct (zone_confidence_bounds rr zone Hrr Hzone)
    as [[Hz [H1 [H2 H3]]] | [[Hz [H1 [H2 H3]]] | [Hz [H1 [H2 H3]]]]];
    subst zone; rewrite ?H2.
  - split; [lra |]. split; [tauto |]. split; [discriminate |].
    split; [lra | reflexivity].
  - split; [lra |]. split; [tauto |]. split; [discriminate |].
    split; [lra | reflexivity].
  - split; [lra |]. split; [tauto |]. split; [reflexivity |].
    split; [lra | reflexivity].
Qed.






